(** * O2 Monitor: the alert evaluator of [src/alert_evaluator.py]

    A shallow embedding of [AlertConditionTracker] and [AlertEvaluator] and
    the properties of the alert policy: dwell and cooldown, bypass on
    therapy, escalation tiers, the battery change guard.

    Modelling choices.
    - A [datetime] is the number of microseconds since [datetime.min]; naive
      datetimes subtract field by field, so this is exact.  A [timedelta] is a
      difference of two such numbers.
    - A Python float is the rational number it stands for, and an operation
      that returns a float rounds its exact result to the nearest binary64
      value, ties to even ([round_ne]): [timedelta.total_seconds()] and
      [duration / 60] are such operations.  The instants of [datetime] keep
      every quotient far under the overflow threshold, so [round_ne] does not
      cap its result.
    - A number of the configuration ([threshold], [duration_seconds],
      [resend_interval_seconds]) is a Python int or float: a rational, an
      infinity or a NaN ([number]).  Comparisons are exact, as Python
      compares ints with floats, and false on a NaN.
    - The two dictionaries of the tracker are finite maps with string keys.
    - A method is a computation in a state and exception monad: it reads the
      clock, reads and writes [self], and either returns or raises.  The
      clock is an input of the call: the reads of [datetime.now()] inside one
      call of [evaluate] see the same instant.
    - [logger] calls have no effect on the state or the result and are left
      out. *)

From Stdlib Require Import ZArith QArith Qround Qabs Qpower Lia Lqa String Sorted.
From Stdlib Require Floats.SpecFloat.
From stdpp Require Import gmap strings list fin_maps pretty.

Open Scope Z_scope.
Set Warnings "-clear-no-such-hyp".

(** ** Python values and control *)

Inductive PyExn : Type :=
| KeyError (key : string)
| AttributeError (attr : string).

Inductive Result (A : Type) : Type :=
| Ok (a : A)
| Raise (e : PyExn).
Arguments Ok {A} a.
Arguments Raise {A} e.

(** A method on an object of class [S]: the clock, then [self]. *)
Definition M (S A : Type) : Type := Z → S → Result (A * S).

Definition ret {S A} (a : A) : M S A := λ _ self, Ok (a, self).

Definition bind {S A B} (m : M S A) (k : A → M S B) : M S B :=
  λ now self,
    match m now self with
    | Ok (a, self') => k a now self'
    | Raise e => Raise e
    end.

Definition raise {S A} (e : PyExn) : M S A := λ _ _, Raise e.
Definition get {S} : M S S := λ _ self, Ok (self, self).
Definition put {S} (self' : S) : M S unit := λ _ _, Ok (tt, self').
Definition datetime_now {S} : M S Z := λ now self, Ok (now, self).

Notation "x <- c1 ;; c2" := (bind c1 (λ x, c2))
  (at level 100, c1 at next level, right associativity).
Notation "c1 ;; c2" := (bind c1 (λ _, c2))
  (at level 100, right associativity).

(** [for x in l: body(x)] *)
Fixpoint for_ {S A} (l : list A) (body : A → M S unit) : M S unit :=
  match l with
  | [] => ret tt
  | x :: l' => body x ;; for_ l' body
  end.

(** ** Python numbers *)

(** The value of an int or a float. *)
Inductive number : Type :=
| Num (q : Q)
| Inf (negative : bool)
| NaN.

(** The value of an int. *)
Definition of_int (z : Z) : number := Num (inject_Z z).

(** [x <= y] on numbers. *)
Definition num_le (x y : number) : bool :=
  match x, y with
  | NaN, _ | _, NaN => false
  | Num a, Num b => Qle_bool a b
  | Inf true, _ => true
  | _, Inf false => true
  | Inf false, _ => false
  | _, Inf true => false
  end.

(** [x < y] on numbers. *)
Definition num_lt (x y : number) : bool :=
  match x, y with
  | NaN, _ | _, NaN => false
  | Num a, Num b => negb (Qle_bool b a)
  | Inf true, Inf true => false
  | Inf true, _ => true
  | Inf false, _ => false
  | Num _, Inf negative => negb negative
  end.

(** *** Rounding to binary64 *)

(** For [0 < q], the exponent [m] with [2^(m-1) <= q < 2^m]. *)
Definition mag (q : Q) : Z :=
  let d := Z.log2 (Qnum q) - Z.log2 (Z.pos (Qden q)) in
  if Qle_bool (2 ^ d) q then d + 1 else d.

(** The integer nearest to [s], a tie going to the even one. *)
Definition rne (s : Q) : Z :=
  let f := Qfloor s in
  match ((s - inject_Z f) ?= (1 # 2))%Q with
  | Lt => f
  | Gt => f + 1
  | Eq => if Z.even f then f else f + 1
  end.

(** The exponent of the last bit of a binary64 value of magnitude [m]: 53
    bits of precision, and -1074 for the subnormal values. *)
Definition fexp (m : Z) : Z := Z.max (m - 53) (-1074).

(** The binary64 value nearest to [q], for [0 < q]. *)
Definition round_pos (q : Q) : Q :=
  let e := fexp (mag q) in
  (inject_Z (rne (q / 2 ^ e)) * 2 ^ e)%Q.

(** The binary64 value nearest to [q], ties to even. *)
Definition round_ne (q : Q) : Q :=
  match (q ?= 0)%Q with
  | Eq => 0%Q
  | Gt => round_pos q
  | Lt => (- round_pos (- q))%Q
  end.

(** [x / y] for an int or float [x] and a non-zero int [y]: a float, the
    quotient correctly rounded. *)
Definition truediv (x : Q) (y : Z) : Q := round_ne (x / inject_Z y).

(** [timedelta.total_seconds()], on a difference in microseconds: the
    microseconds divided by [10**6]. *)
Definition total_seconds (delta : Z) : Q := truediv (inject_Z delta) 1000000.

(** [int(x)] on a number: truncation towards zero. *)
Definition int (x : Q) : Z := Z.quot (Qnum x) (Z.pos (Qden x)).

(** [now.hour] and [now.minute]. *)
Definition hour (now : Z) : Z := (now / 3600000000) mod 24.
Definition minute (now : Z) : Z := (now / 60000000) mod 60.

(** ** [src.models] *)

(** Modelled from the spec: the enumerations and value classes of
    [src/models.py], which is not part of the sources at hand.  The severity
    values are the keys of [SEVERITY_MAP]. *)
Inductive AlertSeverity : Type := CRITICAL | HIGH | WARNING | INFO.

Definition severity_value (s : AlertSeverity) : string :=
  match s with
  | CRITICAL => "critical"
  | HIGH => "high"
  | WARNING => "warning"
  | INFO => "info"
  end.

Inductive AlertType : Type :=
| SPO2_CRITICAL | SPO2_WARNING | HR_HIGH | HR_LOW | DISCONNECT
| NO_THERAPY_AT_NIGHT | BATTERY_CRITICAL | BATTERY_WARNING.

Inductive AVAPSState : Type := ON | OFF | UNKNOWN.

Record OxiReading : Type := {
  spo2 : Z;
  heart_rate : Z;
  battery_level : Z;
  is_valid : bool
}.

Record Alert : Type := {
  alert_type : AlertType;
  severity : AlertSeverity;
  message : string;
  alert_spo2 : option Z;
  alert_heart_rate : option Z;
  timestamp : Z
}.

Global Instance AlertSeverity_eq_dec : EqDecision AlertSeverity.
Proof. solve_decision. Defined.
Global Instance AlertType_eq_dec : EqDecision AlertType.
Proof. solve_decision. Defined.
Global Instance AVAPSState_eq_dec : EqDecision AVAPSState.
Proof. solve_decision. Defined.

(** ** [src.config] *)

(** Modelled from the spec: the configuration classes of [src/config.py],
    which is not part of the sources at hand; the field names are the ones
    the evaluator reads. *)
Module AlertItemConfig.
Record t : Type := {
  threshold : number;
  duration_seconds : number;
  resend_interval_seconds : number;
  severity : string;
  enabled : bool;
  bypass_on_therapy : bool
}.
End AlertItemConfig.

Module SleepHoursConfig.
Record t : Type := {
  is_sleep_hours : Z → Z → bool
}.
End SleepHoursConfig.

Module AlertsConfig.
Record t : Type := {
  spo2_critical_on_therapy : AlertItemConfig.t;
  spo2_critical_off_therapy : AlertItemConfig.t;
  spo2_warning : AlertItemConfig.t;
  hr_high : AlertItemConfig.t;
  hr_low : AlertItemConfig.t;
  disconnect : AlertItemConfig.t;
  no_therapy_at_night_info : AlertItemConfig.t;
  no_therapy_at_night_high : AlertItemConfig.t;
  battery_warning : AlertItemConfig.t;
  battery_critical : AlertItemConfig.t;
  sleep_hours : SleepHoursConfig.t
}.
End AlertsConfig.

(** ** [SEVERITY_MAP] *)

Definition SEVERITY_MAP : gmap string AlertSeverity :=
  <["critical" := CRITICAL]> (<["high" := HIGH]>
    (<["warning" := WARNING]> (<["info" := INFO]> ∅))).

(** ** [class AlertConditionTracker] *)

Module AlertConditionTracker.

Record t : Type := {
  condition_starts : gmap string Z;
  fired_alerts : gmap string Z
}.

(** [AlertConditionTracker()] *)
Definition new : t := {| condition_starts := ∅; fired_alerts := ∅ |}.

Definition set_condition_starts (d : gmap string Z) (self : t) : t :=
  {| condition_starts := d; fired_alerts := fired_alerts self |}.
Definition set_fired_alerts (d : gmap string Z) (self : t) : t :=
  {| condition_starts := condition_starts self; fired_alerts := d |}.

(** [self.fired_alerts[key]] *)
Definition fired_alerts_getitem (key : string) : M t Z :=
  self <- get ;;
  match fired_alerts self !! key with
  | Some v => ret v
  | None => raise (KeyError key)
  end.

(** [del self.fired_alerts[key]] *)
Definition fired_alerts_delitem (key : string) : M t unit :=
  self <- get ;;
  match fired_alerts self !! key with
  | Some _ => put (set_fired_alerts (delete key (fired_alerts self)) self)
  | None => raise (KeyError key)
  end.

Definition reset (condition : string) : M t unit :=
  self <- get ;;
  put (set_condition_starts (delete condition (condition_starts self)) self).

Definition start (condition : string) : M t unit :=
  self <- get ;;
  match condition_starts self !! condition with
  | None =>
      now <- datetime_now ;;
      put (set_condition_starts (<[condition := now]> (condition_starts self)) self)
  | Some _ => ret tt
  end.

Definition duration_seconds (condition : string) : M t Q :=
  self <- get ;;
  match condition_starts self !! condition with
  | None => ret 0%Q
  | Some start =>
      now <- datetime_now ;;
      ret (total_seconds (now - start))
  end.

Definition mark_fired (alert_type severity : string) : M t unit :=
  let key := alert_type +:+ "_" +:+ severity in
  now <- datetime_now ;;
  self <- get ;;
  put (set_fired_alerts (<[key := now]> (fired_alerts self)) self).

Definition was_fired_recently (alert_type severity : string)
    (cooldown_seconds : number) : M t bool :=
  let key := alert_type +:+ "_" +:+ severity in
  self <- get ;;
  match fired_alerts self !! key with
  | None => ret false
  | Some _ =>
      now <- datetime_now ;;
      fired <- fired_alerts_getitem key ;;
      let elapsed := total_seconds (now - fired) in
      ret (num_lt (Num elapsed) cooldown_seconds)
  end.

Definition clear_fired (alert_type : string) : M t unit :=
  self <- get ;;
  let keys_to_remove :=
    filter (λ k, String.prefix alert_type k = true)
           (map_to_list (fired_alerts self)).*1 in
  for_ keys_to_remove (λ key, fired_alerts_delitem key).

End AlertConditionTracker.

(** ** [class AlertEvaluator] *)

(** [not alerts], on a list. *)
Definition not_ {A} (l : list A) : bool :=
  match l with
  | [] => true
  | _ :: _ => false
  end.

(** [obj.name], on a reference that may be [None]. *)
Definition getattr {S A} (obj : option OxiReading) (name : string)
    (field : OxiReading → A) : M S A :=
  match obj with
  | Some r => ret (field r)
  | None => raise (AttributeError name)
  end.

(** [Alert(alert_type=..., severity=..., message=..., ...)]; the timestamp
    is the instant of the construction. *)
Definition new_Alert {S} (ty : AlertType) (sev : AlertSeverity) (msg : string)
    (spo2 heart_rate : option Z) : M S Alert :=
  now <- datetime_now ;;
  ret {| alert_type := ty; severity := sev; message := msg;
         alert_spo2 := spo2; alert_heart_rate := heart_rate;
         timestamp := now |}.

(** The messages of the alerts (the f-strings of the evaluators). *)
Module Message.
Definition spo2_critical (spo2 : Z) (duration : Q) (therapy_str : string) : string :=
  "SpO2 critically low at " +:+ pretty spo2 +:+ "% for "
    +:+ pretty (int duration) +:+ "s (" +:+ therapy_str +:+ ")".
Definition spo2_warning (spo2 : Z) (duration : Q) : string :=
  "SpO2 warning at " +:+ pretty spo2 +:+ "% for "
    +:+ pretty (int duration) +:+ "s".
Definition hr_high (hr : Z) (duration : Q) : string :=
  "Heart rate high at " +:+ pretty hr +:+ " BPM for "
    +:+ pretty (int duration) +:+ "s".
Definition hr_low (hr : Z) (duration : Q) : string :=
  "Heart rate low at " +:+ pretty hr +:+ " BPM for "
    +:+ pretty (int duration) +:+ "s".
Definition disconnect (duration_minutes : Q) : string :=
  "Oximeter disconnected for " +:+ pretty (int duration_minutes) +:+ " minutes".
Definition no_therapy_high (duration_minutes : Q) : string :=
  "URGENT: AVAPS therapy not in use for " +:+ pretty (int duration_minutes)
    +:+ " minutes during sleep hours".
Definition no_therapy_info (duration_minutes : Q) : string :=
  "AVAPS therapy not in use for " +:+ pretty (int duration_minutes)
    +:+ " minutes during sleep hours".
Definition battery_critical (battery : Z) : string :=
  "Oximeter battery critically low at " +:+ pretty battery +:+ "%".
Definition battery_warning (battery : Z) : string :=
  "Oximeter battery low at " +:+ pretty battery +:+ "%".
End Message.

Module AlertEvaluator.
Import AlertItemConfig AlertsConfig SleepHoursConfig.

(** [self.config] is set once by [__init__] and only read afterwards: it
    is a parameter of the methods below, and [t] holds the fields that
    change. *)
Record t : Type := {
  tracker : AlertConditionTracker.t;
  _last_battery_level : option Z
}.

(** [AlertEvaluator(config)] *)
Definition new : t :=
  {| tracker := AlertConditionTracker.new; _last_battery_level := None |}.

(** [self.tracker.method(...)] *)
Definition tracker_call {A} (m : M AlertConditionTracker.t A) : M t A :=
  λ now self,
    match m now (tracker self) with
    | Ok (a, tr) =>
        Ok (a, {| tracker := tr;
                  _last_battery_level := _last_battery_level self |})
    | Raise e => Raise e
    end.

Definition set_last_battery_level (b : option Z) : M t unit :=
  self <- get ;;
  put {| tracker := tracker self; _last_battery_level := b |}.

Definition _get_severity (cfg : AlertItemConfig.t) : AlertSeverity :=
  default WARNING (SEVERITY_MAP !! AlertItemConfig.severity cfg).

Definition _should_bypass (cfg : AlertItemConfig.t) (therapy_on : bool) : bool :=
  therapy_on && bypass_on_therapy cfg.

(** The block that every evaluator repeats once its dwell test has passed
    (lines 165-181, 194-210, 230-246, 259-275, 299-313, 345-359, 364-378,
    401-417, 424-440): the cooldown test, then the alert when the item is
    enabled, and [mark_fired] in both branches. *)
Definition fire_unless_recent (alerts : list Alert) (cfg : AlertItemConfig.t)
    (key : string) (ty : AlertType) (msg : string)
    (spo2 heart_rate : option Z) : M t (list Alert) :=
  let severity := _get_severity cfg in
  let cooldown := resend_interval_seconds cfg in
  recently <- tracker_call
    (AlertConditionTracker.was_fired_recently key (severity_value severity) cooldown) ;;
  if negb recently then
    if enabled cfg then
      alert <- new_Alert ty severity msg spo2 heart_rate ;;
      tracker_call (AlertConditionTracker.mark_fired key (severity_value severity)) ;;
      ret (alerts ++ [alert])
    else
      tracker_call (AlertConditionTracker.mark_fired key (severity_value severity)) ;;
      ret alerts
  else ret alerts.

Section Methods.
Variable config : AlertsConfig.t.

Definition _evaluate_spo2 (reading : option OxiReading) (therapy_on : bool)
    : M t (list Alert) :=
  let alerts := [] in
  spo2 <- getattr reading "spo2" spo2 ;;
  let cfg :=
    if therapy_on then spo2_critical_on_therapy config
    else spo2_critical_off_therapy config in
  let tracker_key :=
    if therapy_on then "spo2_critical_on" else "spo2_critical_off" in
  let therapy_str := if therapy_on then "on therapy" else "off therapy" in
  alerts <-
    (if num_lt (of_int spo2) (threshold cfg) then
       tracker_call (AlertConditionTracker.start tracker_key) ;;
       duration <- tracker_call (AlertConditionTracker.duration_seconds tracker_key) ;;
       if num_le (duration_seconds cfg) (Num duration) then
         heart_rate <- getattr reading "heart_rate" heart_rate ;;
         fire_unless_recent alerts cfg tracker_key SPO2_CRITICAL
           (Message.spo2_critical spo2 duration therapy_str)
           (Some spo2) (Some heart_rate)
       else ret alerts
     else
       tracker_call (AlertConditionTracker.reset tracker_key) ;;
       tracker_call (AlertConditionTracker.clear_fired tracker_key) ;;
       ret alerts) ;;
  let cfg := spo2_warning config in
  if not_ alerts && negb (_should_bypass cfg therapy_on) then
    if num_lt (of_int spo2) (threshold cfg) then
      tracker_call (AlertConditionTracker.start "spo2_warning") ;;
      duration <- tracker_call (AlertConditionTracker.duration_seconds "spo2_warning") ;;
      if num_le (duration_seconds cfg) (Num duration) then
        heart_rate <- getattr reading "heart_rate" heart_rate ;;
        fire_unless_recent alerts cfg "spo2_warning" SPO2_WARNING
          (Message.spo2_warning spo2 duration)
          (Some spo2) (Some heart_rate)
      else ret alerts
    else
      tracker_call (AlertConditionTracker.reset "spo2_warning") ;;
      tracker_call (AlertConditionTracker.clear_fired "spo2_warning") ;;
      ret alerts
  else ret alerts.

Definition _evaluate_hr (reading : option OxiReading) (therapy_on : bool)
    : M t (list Alert) :=
  let alerts := [] in
  hr <- getattr reading "heart_rate" heart_rate ;;
  let cfg := hr_high config in
  alerts <-
    (if negb (_should_bypass cfg therapy_on) then
       if num_lt (threshold cfg) (of_int hr) then
         tracker_call (AlertConditionTracker.start "hr_high") ;;
         duration <- tracker_call (AlertConditionTracker.duration_seconds "hr_high") ;;
         if num_le (duration_seconds cfg) (Num duration) then
           spo2 <- getattr reading "spo2" spo2 ;;
           fire_unless_recent alerts cfg "hr_high" HR_HIGH
             (Message.hr_high hr duration)
             (Some spo2) (Some hr)
         else ret alerts
       else
         tracker_call (AlertConditionTracker.reset "hr_high") ;;
         tracker_call (AlertConditionTracker.clear_fired "hr_high") ;;
         ret alerts
     else ret alerts) ;;
  let cfg := hr_low config in
  if negb (_should_bypass cfg therapy_on) then
    if num_lt (of_int hr) (threshold cfg) then
      tracker_call (AlertConditionTracker.start "hr_low") ;;
      duration <- tracker_call (AlertConditionTracker.duration_seconds "hr_low") ;;
      if num_le (duration_seconds cfg) (Num duration) then
        spo2 <- getattr reading "spo2" spo2 ;;
        fire_unless_recent alerts cfg "hr_low" HR_LOW
          (Message.hr_low hr duration)
          (Some spo2) (Some hr)
      else ret alerts
    else
      tracker_call (AlertConditionTracker.reset "hr_low") ;;
      tracker_call (AlertConditionTracker.clear_fired "hr_low") ;;
      ret alerts
  else ret alerts.

Definition _evaluate_disconnect (ble_connected therapy_on : bool)
    : M t (list Alert) :=
  let alerts := [] in
  let cfg := disconnect config in
  if _should_bypass cfg therapy_on then
    tracker_call (AlertConditionTracker.reset "disconnect") ;;
    tracker_call (AlertConditionTracker.clear_fired "disconnect") ;;
    ret alerts
  else if negb ble_connected then
    tracker_call (AlertConditionTracker.start "disconnect") ;;
    duration <- tracker_call (AlertConditionTracker.duration_seconds "disconnect") ;;
    let duration_minutes := truediv duration 60 in
    if num_le (threshold cfg) (Num duration_minutes) then
      fire_unless_recent alerts cfg "disconnect" DISCONNECT
        (Message.disconnect duration_minutes)
        None None
    else ret alerts
  else
    tracker_call (AlertConditionTracker.reset "disconnect") ;;
    tracker_call (AlertConditionTracker.clear_fired "disconnect") ;;
    ret alerts.

Definition _evaluate_no_therapy_at_night (avaps_state : AVAPSState)
    : M t (list Alert) :=
  let alerts := [] in
  now <- datetime_now ;;
  let in_sleep_hours :=
    is_sleep_hours (sleep_hours config) (hour now) (minute now) in
  if negb in_sleep_hours then
    tracker_call (AlertConditionTracker.reset "no_therapy") ;;
    tracker_call (AlertConditionTracker.clear_fired "no_therapy_info") ;;
    tracker_call (AlertConditionTracker.clear_fired "no_therapy_high") ;;
    ret alerts
  else if bool_decide (avaps_state = OFF) then
    tracker_call (AlertConditionTracker.start "no_therapy") ;;
    duration <- tracker_call (AlertConditionTracker.duration_seconds "no_therapy") ;;
    let duration_minutes := truediv duration 60 in
    let cfg_high := no_therapy_at_night_high config in
    alerts <-
      (if num_le (threshold cfg_high) (Num duration_minutes) then
         fire_unless_recent alerts cfg_high "no_therapy_high" NO_THERAPY_AT_NIGHT
           (Message.no_therapy_high duration_minutes)
           None None
       else ret alerts) ;;
    let cfg_info := no_therapy_at_night_info config in
    if not_ alerts && num_le (threshold cfg_info) (Num duration_minutes) then
      fire_unless_recent alerts cfg_info "no_therapy_info" NO_THERAPY_AT_NIGHT
        (Message.no_therapy_info duration_minutes)
        None None
    else ret alerts
  else
    tracker_call (AlertConditionTracker.reset "no_therapy") ;;
    tracker_call (AlertConditionTracker.clear_fired "no_therapy_info") ;;
    tracker_call (AlertConditionTracker.clear_fired "no_therapy_high") ;;
    ret alerts.

Definition _evaluate_battery (reading : option OxiReading) (therapy_on : bool)
    : M t (list Alert) :=
  let alerts := [] in
  battery <- getattr reading "battery_level" battery_level ;;
  self <- get ;;
  if bool_decide (_last_battery_level self = Some battery) then ret alerts
  else
    set_last_battery_level (Some battery) ;;
    let check_warning : M t (list Alert) :=
      let cfg := battery_warning config in
      if negb (_should_bypass cfg therapy_on) then
        if num_le (of_int battery) (threshold cfg) then
          spo2 <- getattr reading "spo2" spo2 ;;
          heart_rate <- getattr reading "heart_rate" heart_rate ;;
          fire_unless_recent alerts cfg "battery_warning" BATTERY_WARNING
            (Message.battery_warning battery)
            (Some spo2) (Some heart_rate)
        else ret alerts
      else ret alerts in
    let cfg := battery_critical config in
    if negb (_should_bypass cfg therapy_on) then
      if num_le (of_int battery) (threshold cfg) then
        spo2 <- getattr reading "spo2" spo2 ;;
        heart_rate <- getattr reading "heart_rate" heart_rate ;;
        fire_unless_recent alerts cfg "battery_critical" BATTERY_CRITICAL
          (Message.battery_critical battery)
          (Some spo2) (Some heart_rate)
      else check_warning
    else check_warning.

(** [ble_connected and reading and reading.is_valid]: an [OxiReading]
    object is true, [None] is false, and [and] stops at the first false
    operand. *)
Definition vitals_guard (reading : option OxiReading) (ble_connected : bool)
    : bool :=
  ble_connected &&
  match reading with
  | Some r => is_valid r
  | None => false
  end.

Definition evaluate (reading : option OxiReading) (avaps_state : AVAPSState)
    (ble_connected : bool) : M t (list Alert) :=
  let alerts := [] in
  let therapy_on := bool_decide (avaps_state = ON) in
  disconnect_alerts <- _evaluate_disconnect ble_connected therapy_on ;;
  let alerts := alerts ++ disconnect_alerts in
  alerts <-
    (if vitals_guard reading ble_connected then
       spo2_alerts <- _evaluate_spo2 reading therapy_on ;;
       hr_alerts <- _evaluate_hr reading therapy_on ;;
       battery_alerts <- _evaluate_battery reading therapy_on ;;
       ret (((alerts ++ spo2_alerts) ++ hr_alerts) ++ battery_alerts)
     else ret alerts) ;;
  no_therapy_alerts <- _evaluate_no_therapy_at_night avaps_state ;;
  ret (alerts ++ no_therapy_alerts).

Definition reset_all : M t unit := put new.

End Methods.
End AlertEvaluator.

(** ** Polling cycles *)

(** One call of [evaluate]: the instant of the call and its arguments. *)
Record Cycle : Type := {
  now : Z;
  reading : option OxiReading;
  avaps_state : AVAPSState;
  ble_connected : bool
}.

Definition evaluate_cycle (config : AlertsConfig.t) (c : Cycle)
    (self : AlertEvaluator.t) : Result (list Alert * AlertEvaluator.t) :=
  AlertEvaluator.evaluate config (reading c) (avaps_state c) (ble_connected c)
    (now c) self.

(** The caller's loop: the alerts of each cycle, in order, and the final
    state; an exception ends the loop. *)
Fixpoint run (config : AlertsConfig.t) (cycles : list Cycle)
    (self : AlertEvaluator.t) : Result (list (list Alert) * AlertEvaluator.t) :=
  match cycles with
  | [] => Ok ([], self)
  | c :: cycles' =>
      match evaluate_cycle config c self with
      | Ok (alerts, self') =>
          match run config cycles' self' with
          | Ok (rest, self'') => Ok (alerts :: rest, self'')
          | Raise e => Raise e
          end
      | Raise e => Raise e
      end
  end.

(** ** The evaluators in closed form

    The functions below say what a call returns and leaves in the state, as
    plain functions of the clock and the state.  Each one is shown equal to
    the method it describes ([_evaluate_hr_closed] and the like), so that the
    properties of the methods can be read off them. *)

Module IC := AlertItemConfig.
Module Tr := AlertConditionTracker.
Module Ev := AlertEvaluator.
Import AlertsConfig SleepHoursConfig.

Definition starts (self : Ev.t) : gmap string Z :=
  Tr.condition_starts (Ev.tracker self).
Definition fired (self : Ev.t) : gmap string Z :=
  Tr.fired_alerts (Ev.tracker self).

Definition with_tracker (tr : Tr.t) (self : Ev.t) : Ev.t :=
  {| Ev.tracker := tr; Ev._last_battery_level := Ev._last_battery_level self |}.

(** The key of the cooldown ledger for an alert type and an item. *)
Definition ledger_key (ty : string) (cfg : IC.t) : string :=
  ty +:+ "_" +:+ severity_value (Ev._get_severity cfg).

(** [x >= bound], for a duration [x]. *)
Definition reached (bound : number) (x : Q) : bool := num_le bound (Num x).

(** The answer of [was_fired_recently], given the ledger entry. *)
Definition within_cooldown (now : Z) (cooldown : number) (last : option Z) : bool :=
  match last with
  | None => false
  | Some f => num_lt (Num (total_seconds (now - f))) cooldown
  end.

Definition reset_to (condition : string) (tr : Tr.t) : Tr.t :=
  Tr.set_condition_starts (delete condition (Tr.condition_starts tr)) tr.

Definition cleared (ty : string) (tr : Tr.t) : Tr.t :=
  Tr.set_fired_alerts
    (filter (λ kv, String.prefix ty kv.1 = false) (Tr.fired_alerts tr)) tr.

Definition started (now : Z) (condition : string) (tr : Tr.t) : Tr.t :=
  match Tr.condition_starts tr !! condition with
  | None => Tr.set_condition_starts (<[condition := now]> (Tr.condition_starts tr)) tr
  | Some _ => tr
  end.

Definition duration_of (now : Z) (condition : string) (tr : Tr.t) : Q :=
  match Tr.condition_starts tr !! condition with
  | None => 0%Q
  | Some start => total_seconds (now - start)
  end.

(** The block [fire_unless_recent]: the alerts it adds and the tracker it
    leaves. *)
Definition fire_closed (now : Z) (cfg : IC.t) (ty : string) (aty : AlertType)
    (msg : string) (spo2 heart_rate : option Z) (tr : Tr.t)
    : list Alert * Tr.t :=
  if within_cooldown now (IC.resend_interval_seconds cfg)
       (Tr.fired_alerts tr !! ledger_key ty cfg)
  then ([], tr)
  else
    ((if IC.enabled cfg
      then [ {| alert_type := aty; severity := Ev._get_severity cfg;
                message := msg; alert_spo2 := spo2;
                alert_heart_rate := heart_rate; timestamp := now |} ]
      else []),
     Tr.set_fired_alerts (<[ledger_key ty cfg := now]> (Tr.fired_alerts tr)) tr).

(** What one evaluation does to one tier: it leaves the tier alone, treats
    the condition as inactive, or observes it active. *)
Inductive Event : Type := Skip | Inactive | Active.

(** One tier in one evaluation: the shared policy of the evaluators. *)
Definition tier_closed (now : Z) (cfg : IC.t) (condition ty : string)
    (aty : AlertType) (dwell_met : Q → bool) (msg : Q → string)
    (spo2 heart_rate : option Z) (ev : Event) (tr : Tr.t)
    : list Alert * Tr.t :=
  match ev with
  | Skip => ([], tr)
  | Inactive => ([], cleared ty (reset_to condition tr))
  | Active =>
      let tr1 := started now condition tr in
      let duration := duration_of now condition tr1 in
      if dwell_met duration
      then fire_closed now cfg ty aty (msg duration) spo2 heart_rate tr1
      else ([], tr1)
  end.

Definition observe (bypassed : bool) (condition : bool) : Event :=
  if bypassed then Skip else if condition then Active else Inactive.

Section Closed.
Variable config : AlertsConfig.t.

Definition spo2_closed (now : Z) (r : OxiReading) (therapy_on : bool)
    (tr : Tr.t) : list Alert * Tr.t :=
  let cfg :=
    if therapy_on then spo2_critical_on_therapy config
    else spo2_critical_off_therapy config in
  let tracker_key : string :=
    if therapy_on then "spo2_critical_on" else "spo2_critical_off" in
  let therapy_str : string :=
    if therapy_on then "on therapy" else "off therapy" in
  let '(a1, tr1) :=
    tier_closed now cfg tracker_key tracker_key SPO2_CRITICAL
      (reached (IC.duration_seconds cfg))
      (λ duration, Message.spo2_critical (spo2 r) duration therapy_str)
      (Some (spo2 r)) (Some (heart_rate r))
      (observe false (num_lt (of_int (spo2 r)) (IC.threshold cfg))) tr in
  let cfg := spo2_warning config in
  let '(a2, tr2) :=
    tier_closed now cfg "spo2_warning" "spo2_warning" SPO2_WARNING
      (reached (IC.duration_seconds cfg))
      (Message.spo2_warning (spo2 r))
      (Some (spo2 r)) (Some (heart_rate r))
      (observe (negb (not_ a1) || Ev._should_bypass cfg therapy_on)
               (num_lt (of_int (spo2 r)) (IC.threshold cfg))) tr1 in
  (a1 ++ a2, tr2).

Definition hr_closed (now : Z) (r : OxiReading) (therapy_on : bool)
    (tr : Tr.t) : list Alert * Tr.t :=
  let cfg := hr_high config in
  let '(a1, tr1) :=
    tier_closed now cfg "hr_high" "hr_high" HR_HIGH
      (reached (IC.duration_seconds cfg))
      (Message.hr_high (heart_rate r))
      (Some (spo2 r)) (Some (heart_rate r))
      (observe (Ev._should_bypass cfg therapy_on)
               (num_lt (IC.threshold cfg) (of_int (heart_rate r)))) tr in
  let cfg := hr_low config in
  let '(a2, tr2) :=
    tier_closed now cfg "hr_low" "hr_low" HR_LOW
      (reached (IC.duration_seconds cfg))
      (Message.hr_low (heart_rate r))
      (Some (spo2 r)) (Some (heart_rate r))
      (observe (Ev._should_bypass cfg therapy_on)
               (num_lt (of_int (heart_rate r)) (IC.threshold cfg))) tr1 in
  (a1 ++ a2, tr2).

Definition disconnect_closed (now : Z) (ble_connected therapy_on : bool)
    (tr : Tr.t) : list Alert * Tr.t :=
  let cfg := disconnect config in
  tier_closed now cfg "disconnect" "disconnect" DISCONNECT
    (λ duration, reached (IC.threshold cfg) (truediv duration 60))
    (λ duration, Message.disconnect (truediv duration 60))
    None None
    (if Ev._should_bypass cfg therapy_on then Inactive
     else if negb ble_connected then Active else Inactive) tr.

Definition in_sleep_hours (now : Z) : bool :=
  is_sleep_hours (sleep_hours config) (hour now) (minute now).

Definition no_therapy_closed (now : Z) (avaps_state : AVAPSState)
    (tr : Tr.t) : list Alert * Tr.t :=
  if in_sleep_hours now && bool_decide (avaps_state = OFF) then
    let tr1 := started now "no_therapy" tr in
    let duration_minutes := truediv (duration_of now "no_therapy" tr1) 60 in
    let cfg_high := no_therapy_at_night_high config in
    let '(a1, tr2) :=
      if reached (IC.threshold cfg_high) duration_minutes
      then fire_closed now cfg_high "no_therapy_high" NO_THERAPY_AT_NIGHT
             (Message.no_therapy_high duration_minutes) None None tr1
      else ([], tr1) in
    let cfg_info := no_therapy_at_night_info config in
    let '(a2, tr3) :=
      if not_ a1 && reached (IC.threshold cfg_info) duration_minutes
      then fire_closed now cfg_info "no_therapy_info" NO_THERAPY_AT_NIGHT
             (Message.no_therapy_info duration_minutes) None None tr2
      else ([], tr2) in
    (a1 ++ a2, tr3)
  else
    ([], cleared "no_therapy_high"
           (cleared "no_therapy_info" (reset_to "no_therapy" tr))).

Definition battery_closed (now : Z) (r : OxiReading) (therapy_on : bool)
    (self : Ev.t) : list Alert * Ev.t :=
  let battery := battery_level r in
  if bool_decide (Ev._last_battery_level self = Some battery) then ([], self)
  else
    let tr := Ev.tracker self in
    let cfg_c := battery_critical config in
    let cfg_w := battery_warning config in
    let '(a, tr') :=
      if negb (Ev._should_bypass cfg_c therapy_on)
         && num_le (of_int battery) (IC.threshold cfg_c)
      then fire_closed now cfg_c "battery_critical" BATTERY_CRITICAL
             (Message.battery_critical battery)
             (Some (spo2 r)) (Some (heart_rate r)) tr
      else if negb (Ev._should_bypass cfg_w therapy_on)
              && num_le (of_int battery) (IC.threshold cfg_w)
      then fire_closed now cfg_w "battery_warning" BATTERY_WARNING
             (Message.battery_warning battery)
             (Some (spo2 r)) (Some (heart_rate r)) tr
      else ([], tr) in
    (a, {| Ev.tracker := tr'; Ev._last_battery_level := Some battery |}).

(** The vitals of one cycle: SpO2, then heart rate, then battery, when the
    guard of [evaluate] lets them run. *)
Definition vitals_closed (c : Cycle) (self : Ev.t) : list Alert * Ev.t :=
  match reading c with
  | Some r =>
      if ble_connected c && is_valid r then
        let therapy_on := bool_decide (avaps_state c = ON) in
        let '(a1, tr1) := spo2_closed (now c) r therapy_on (Ev.tracker self) in
        let '(a2, tr2) := hr_closed (now c) r therapy_on tr1 in
        let '(a3, self3) :=
          battery_closed (now c) r therapy_on (with_tracker tr2 self) in
        ((a1 ++ a2) ++ a3, self3)
      else ([], self)
  | None => ([], self)
  end.

Definition evaluate_closed (c : Cycle) (self : Ev.t) : list Alert * Ev.t :=
  let therapy_on := bool_decide (avaps_state c = ON) in
  let '(a0, tr0) :=
    disconnect_closed (now c) (ble_connected c) therapy_on (Ev.tracker self) in
  let '(a1, self1) := vitals_closed c (with_tracker tr0 self) in
  let '(a2, tr2) := no_therapy_closed (now c) (avaps_state c) (Ev.tracker self1) in
  ((a0 ++ a1) ++ a2, with_tracker tr2 self1).

End Closed.

(** ** Conditions and alert items

    The evaluators track seven conditions and decide ten alert items.  The
    definitions below name them and say, from the arguments of a cycle and
    the state before it, what the cycle does to each: they collect the
    guards that stand before each block in the source. *)

Global Instance Event_eq_dec : EqDecision Event.
Proof. solve_decision. Defined.

Inductive Condition : Type :=
| CondSpo2CriticalOn | CondSpo2CriticalOff | CondSpo2Warning
| CondHrHigh | CondHrLow | CondDisconnect | CondNoTherapy.

Global Instance Condition_eq_dec : EqDecision Condition.
Proof. solve_decision. Defined.

(** The key of a condition in [condition_starts]. *)
Definition condition_key (cond : Condition) : string :=
  match cond with
  | CondSpo2CriticalOn => "spo2_critical_on"
  | CondSpo2CriticalOff => "spo2_critical_off"
  | CondSpo2Warning => "spo2_warning"
  | CondHrHigh => "hr_high"
  | CondHrLow => "hr_low"
  | CondDisconnect => "disconnect"
  | CondNoTherapy => "no_therapy"
  end.

(** The alert types whose ledger entries [clear_fired] removes with it. *)
Definition condition_types (cond : Condition) : list string :=
  match cond with
  | CondNoTherapy => ["no_therapy_info"; "no_therapy_high"]
  | _ => [condition_key cond]
  end.

Inductive Item : Type :=
| Spo2CriticalOn | Spo2CriticalOff | Spo2Warning | HrHigh | HrLow
| Disconnect | NoTherapyHigh | NoTherapyInfo | BatteryCritical | BatteryWarning.

Global Instance Item_eq_dec : EqDecision Item.
Proof. solve_decision. Defined.

Definition item_cfg (config : AlertsConfig.t) (i : Item) : IC.t :=
  match i with
  | Spo2CriticalOn => spo2_critical_on_therapy config
  | Spo2CriticalOff => spo2_critical_off_therapy config
  | Spo2Warning => spo2_warning config
  | HrHigh => hr_high config
  | HrLow => hr_low config
  | Disconnect => disconnect config
  | NoTherapyHigh => no_therapy_at_night_high config
  | NoTherapyInfo => no_therapy_at_night_info config
  | BatteryCritical => battery_critical config
  | BatteryWarning => battery_warning config
  end.

(** The alert type string an item passes to [was_fired_recently] and
    [mark_fired]. *)
Definition item_type (i : Item) : string :=
  match i with
  | Spo2CriticalOn => "spo2_critical_on"
  | Spo2CriticalOff => "spo2_critical_off"
  | Spo2Warning => "spo2_warning"
  | HrHigh => "hr_high"
  | HrLow => "hr_low"
  | Disconnect => "disconnect"
  | NoTherapyHigh => "no_therapy_high"
  | NoTherapyInfo => "no_therapy_info"
  | BatteryCritical => "battery_critical"
  | BatteryWarning => "battery_warning"
  end.

Definition item_alert_type (i : Item) : AlertType :=
  match i with
  | Spo2CriticalOn | Spo2CriticalOff => SPO2_CRITICAL
  | Spo2Warning => SPO2_WARNING
  | HrHigh => HR_HIGH
  | HrLow => HR_LOW
  | Disconnect => DISCONNECT
  | NoTherapyHigh | NoTherapyInfo => NO_THERAPY_AT_NIGHT
  | BatteryCritical => BATTERY_CRITICAL
  | BatteryWarning => BATTERY_WARNING
  end.

(** The condition whose timer an item reads; the battery items have none. *)
Definition item_condition (i : Item) : option Condition :=
  match i with
  | Spo2CriticalOn => Some CondSpo2CriticalOn
  | Spo2CriticalOff => Some CondSpo2CriticalOff
  | Spo2Warning => Some CondSpo2Warning
  | HrHigh => Some CondHrHigh
  | HrLow => Some CondHrLow
  | Disconnect => Some CondDisconnect
  | NoTherapyHigh | NoTherapyInfo => Some CondNoTherapy
  | BatteryCritical | BatteryWarning => None
  end.

Definition item_ledger (config : AlertsConfig.t) (i : Item) : string :=
  ledger_key (item_type i) (item_cfg config i).

(** The alerts of an item in the output of a cycle: by type, and for the two
    therapy-absence tiers, which share a type, by the head of the message. *)
Definition is_alert_of (i : Item) (a : Alert) : bool :=
  bool_decide (alert_type a = item_alert_type i) &&
  match i with
  | NoTherapyHigh => String.prefix "URGENT" (message a)
  | NoTherapyInfo => negb (String.prefix "URGENT" (message a))
  | _ => true
  end.

Definition alerts_of (i : Item) (out : list Alert) : list Alert :=
  filter (λ a, is_alert_of i a = true) out.

(** The dwell test of an item on the elapsed seconds: [duration_seconds] in
    seconds, but [threshold] in minutes for the disconnect and the
    therapy-absence items, and no dwell for the battery items. *)
Definition item_dwell_met (config : AlertsConfig.t) (i : Item) (elapsed : Q) : bool :=
  match i with
  | Disconnect | NoTherapyHigh | NoTherapyInfo =>
      reached (IC.threshold (item_cfg config i)) (truediv elapsed 60)
  | BatteryCritical | BatteryWarning => true
  | _ => reached (IC.duration_seconds (item_cfg config i)) elapsed
  end.

(** The start of the item's condition as the cycle sees it: the recorded
    start, or the instant of the cycle when none is recorded. *)
Definition item_since (i : Item) (now : Z) (self : Ev.t) : Z :=
  match item_condition i with
  | Some cond => default now (starts self !! condition_key cond)
  | None => now
  end.

(** Dwell met and not within cooldown. *)
Definition item_due (config : AlertsConfig.t) (i : Item) (now : Z) (self : Ev.t)
    : bool :=
  item_dwell_met config i (total_seconds (now - item_since i now self))
  && negb (within_cooldown now (IC.resend_interval_seconds (item_cfg config i))
             (fired self !! item_ledger config i)).

Definition therapy_on (c : Cycle) : bool := bool_decide (avaps_state c = ON).

(** The reading the vitals evaluators get, when the guard of [evaluate]
    lets them run. *)
Definition vitals (c : Cycle) : option OxiReading :=
  match reading c with
  | Some r => if ble_connected c && is_valid r then Some r else None
  | None => None
  end.

Section Items.
Variable config : AlertsConfig.t.

(** The SpO2 critical tier emits in this cycle. *)
Definition spo2_critical_emits (c : Cycle) (self : Ev.t) : bool :=
  match vitals c with
  | Some r =>
      let i := if therapy_on c then Spo2CriticalOn else Spo2CriticalOff in
      num_lt (of_int (spo2 r)) (IC.threshold (item_cfg config i))
      && item_due config i (now c) self
      && IC.enabled (item_cfg config i)
  | None => false
  end.

(** What a cycle does to a condition. *)
Definition condition_event (cond : Condition) (c : Cycle) (self : Ev.t) : Event :=
  match cond with
  | CondDisconnect =>
      if Ev._should_bypass (disconnect config) (therapy_on c) then Inactive
      else if negb (ble_connected c) then Active else Inactive
  | CondNoTherapy =>
      if in_sleep_hours config (now c) && bool_decide (avaps_state c = OFF)
      then Active else Inactive
  | _ =>
      match vitals c with
      | None => Skip
      | Some r =>
          match cond with
          | CondSpo2CriticalOn =>
              if therapy_on c
              then observe false
                     (num_lt (of_int (spo2 r))
                        (IC.threshold (spo2_critical_on_therapy config)))
              else Skip
          | CondSpo2CriticalOff =>
              if therapy_on c then Skip
              else observe false
                     (num_lt (of_int (spo2 r))
                        (IC.threshold (spo2_critical_off_therapy config)))
          | CondSpo2Warning =>
              observe (spo2_critical_emits c self
                       || Ev._should_bypass (spo2_warning config) (therapy_on c))
                (num_lt (of_int (spo2 r)) (IC.threshold (spo2_warning config)))
          | CondHrHigh =>
              observe (Ev._should_bypass (hr_high config) (therapy_on c))
                (num_lt (IC.threshold (hr_high config)) (of_int (heart_rate r)))
          | _ =>
              observe (Ev._should_bypass (hr_low config) (therapy_on c))
                (num_lt (of_int (heart_rate r)) (IC.threshold (hr_low config)))
          end
      end
  end.

(** The critical battery tier takes the cycle: it is not bypassed and the
    level is at or under its threshold. *)
Definition battery_critical_applies (r : OxiReading) (c : Cycle) : bool :=
  negb (Ev._should_bypass (battery_critical config) (therapy_on c))
  && num_le (of_int (battery_level r)) (IC.threshold (battery_critical config)).

(** The cycle reaches the dwell test of the item: its block is evaluated
    and its condition holds. *)
Definition item_active (i : Item) (c : Cycle) (self : Ev.t) : bool :=
  match i with
  | NoTherapyHigh =>
      bool_decide (condition_event CondNoTherapy c self = Active)
  | NoTherapyInfo =>
      bool_decide (condition_event CondNoTherapy c self = Active)
      && negb (item_due config NoTherapyHigh (now c) self
               && IC.enabled (no_therapy_at_night_high config))
  | BatteryCritical =>
      match vitals c with
      | Some r =>
          negb (bool_decide (Ev._last_battery_level self = Some (battery_level r)))
          && battery_critical_applies r c
      | None => false
      end
  | BatteryWarning =>
      match vitals c with
      | Some r =>
          negb (bool_decide (Ev._last_battery_level self = Some (battery_level r)))
          && negb (battery_critical_applies r c)
          && negb (Ev._should_bypass (battery_warning config) (therapy_on c))
          && num_le (of_int (battery_level r))
               (IC.threshold (battery_warning config))
      | None => false
      end
  | Spo2CriticalOn => bool_decide (condition_event CondSpo2CriticalOn c self = Active)
  | Spo2CriticalOff => bool_decide (condition_event CondSpo2CriticalOff c self = Active)
  | Spo2Warning => bool_decide (condition_event CondSpo2Warning c self = Active)
  | HrHigh => bool_decide (condition_event CondHrHigh c self = Active)
  | HrLow => bool_decide (condition_event CondHrLow c self = Active)
  | Disconnect => bool_decide (condition_event CondDisconnect c self = Active)
  end.

End Items.

(** ** What a block touches and what it does to its own item *)

(** A block that turns tracker [tr] into [tr'] and returns [a] touches at
    most the conditions [ks], the ledger entries whose key starts with one of
    [ps], and returns only alerts that satisfy [P]. *)
Definition touches (ks ps : list string) (P : Alert → Prop)
    (tr : Tr.t) (a : list Alert) (tr' : Tr.t) : Prop :=
  (∀ k, k ∉ ks → Tr.condition_starts tr' !! k = Tr.condition_starts tr !! k)
  ∧ (∀ lk, Forall (λ p, String.prefix p lk = false) ps →
           Tr.fired_alerts tr' !! lk = Tr.fired_alerts tr !! lk)
  ∧ Forall P a.

(** The alerts of the given types. *)
Definition of_types (tys : list AlertType) (x : Alert) : Prop :=
  alert_type x ∈ tys.

(** The alerts of a type with a message. *)
Definition of_message (aty : AlertType) (msg : string) (x : Alert) : Prop :=
  alert_type x = aty ∧ message x = msg.

(** The block of an item, reached with the item's condition true: the
    start of the condition is recorded, the ledger entry is set when the
    item is due, and one alert is returned when it is due and enabled.
    [mine] tells the alerts of the item among those returned. *)
Definition decides (now : Z) (cfg : IC.t) (ty : string) (dwell_met : Q → bool)
    (ck : option string) (mine : Alert → bool)
    (tr : Tr.t) (a : list Alert) (tr' : Tr.t) : Prop :=
  let since :=
    match ck with
    | Some k => default now (Tr.condition_starts tr !! k)
    | None => now
    end in
  let due :=
    dwell_met (total_seconds (now - since))
    && negb (within_cooldown now (IC.resend_interval_seconds cfg)
               (Tr.fired_alerts tr !! ledger_key ty cfg)) in
  Tr.fired_alerts tr' !! ledger_key ty cfg =
    (if due then Some now else Tr.fired_alerts tr !! ledger_key ty cfg)
  ∧ (∀ k, ck = Some k → Tr.condition_starts tr' !! k = Some since)
  ∧ length (filter (λ x, mine x = true) a) = (if due && IC.enabled cfg then 1 else 0)%nat
  ∧ Forall (λ x, severity x = Ev._get_severity cfg) (filter (λ x, mine x = true) a).

(** What the vitals evaluators touch, taken together. *)
Definition vitals_keys : list string :=
  ["spo2_critical_on"; "spo2_critical_off"; "spo2_warning"; "hr_high"; "hr_low"].
Definition vitals_prefixes : list string :=
  ["spo2_critical_on"; "spo2_critical_off"; "spo2_warning"; "hr_high"; "hr_low";
   "battery_critical"; "battery_warning"].
Definition vitals_types : list AlertType :=
  [SPO2_CRITICAL; SPO2_WARNING; HR_HIGH; HR_LOW; BATTERY_CRITICAL; BATTERY_WARNING].

(** Dwell met and not within cooldown, as a block finds them in a tracker. *)
Definition due_at (now : Z) (cfg : IC.t) (ty : string) (dwell_met : Q → bool)
    (ck : option string) (tr : Tr.t) : bool :=
  dwell_met (total_seconds (now -
     match ck with
     | Some k => default now (Tr.condition_starts tr !! k)
     | None => now
     end))
  && negb (within_cooldown now (IC.resend_interval_seconds cfg)
             (Tr.fired_alerts tr !! ledger_key ty cfg)).

(** The SpO2 critical item of a therapy mode. *)
Definition spo2_critical_item (ton : bool) : Item :=
  if ton then Spo2CriticalOn else Spo2CriticalOff.

(** What a block does to a condition it owns: the start is kept, removed or
    recorded, and when the condition is treated as inactive the ledger
    entries of its alert types are gone. *)
Definition tracks (now : Z) (ck : string) (tys : list string) (ev : Event)
    (tr tr' : Tr.t) : Prop :=
  Tr.condition_starts tr' !! ck =
    match ev with
    | Skip => Tr.condition_starts tr !! ck
    | Inactive => None
    | Active => Some (default now (Tr.condition_starts tr !! ck))
    end
  ∧ (ev = Inactive →
     ∀ ty lk, ty ∈ tys → String.prefix ty lk = true →
              Tr.fired_alerts tr' !! lk = None).

(** No alert of the list satisfies [mine]. *)
Definition silent (mine : Alert → bool) (a : list Alert) : Prop :=
  Forall (λ x, mine x = false) a.

(** Two alert types that part before either ends: no key starts with both. *)
Definition apart (p ty : string) : Prop :=
  ∀ lk, String.prefix ty lk = true → String.prefix p lk = false.

(** The SpO2 critical tier of the therapy mode returns an alert, as the SpO2
    evaluator finds the tracker. *)
Definition spo2_critical_emits_at (config : AlertsConfig.t) (now : Z)
    (r : OxiReading) (ton : bool) (tr : Tr.t) : bool :=
  let i := spo2_critical_item ton in
  num_lt (of_int (spo2 r)) (IC.threshold (item_cfg config i))
  && due_at now (item_cfg config i) (item_type i) (item_dwell_met config i)
       (condition_key <$> item_condition i) tr
  && IC.enabled (item_cfg config i).

(** The event of a vitals condition, as the vitals evaluators find the
    tracker. *)
Definition vitals_event (config : AlertsConfig.t) (cond : Condition) (now : Z)
    (r : OxiReading) (ton : bool) (tr : Tr.t) : Event :=
  match cond with
  | CondSpo2CriticalOn =>
      if ton
      then observe false (num_lt (of_int (spo2 r))
                            (IC.threshold (spo2_critical_on_therapy config)))
      else Skip
  | CondSpo2CriticalOff =>
      if ton then Skip
      else observe false (num_lt (of_int (spo2 r))
                            (IC.threshold (spo2_critical_off_therapy config)))
  | CondSpo2Warning =>
      observe (spo2_critical_emits_at config now r ton tr
               || Ev._should_bypass (spo2_warning config) ton)
        (num_lt (of_int (spo2 r)) (IC.threshold (spo2_warning config)))
  | CondHrHigh =>
      observe (Ev._should_bypass (hr_high config) ton)
        (num_lt (IC.threshold (hr_high config)) (of_int (heart_rate r)))
  | CondHrLow =>
      observe (Ev._should_bypass (hr_low config) ton)
        (num_lt (of_int (heart_rate r)) (IC.threshold (hr_low config)))
  | _ => Skip
  end.

(** ** Runs *)

(** The state that a cycle leaves. *)
Definition next (config : AlertsConfig.t) (c : Cycle) (self : Ev.t) : Ev.t :=
  match evaluate_cycle config c self with
  | Ok (_, self') => self'
  | Raise _ => self
  end.

(** The state before each cycle of a run. *)
Fixpoint states (config : AlertsConfig.t) (cycles : list Cycle) (self : Ev.t)
    : list Ev.t :=
  match cycles with
  | [] => []
  | c :: cycles' => self :: states config cycles' (next config c self)
  end.

(** What the cycles of a run observe of a condition, with their instants. *)
Definition observations (config : AlertsConfig.t) (cond : Condition)
    (cycles : list Cycle) (self : Ev.t) : list (Z * Event) :=
  zip_with (λ c s, (now c, condition_event config cond c s))
    cycles (states config cycles self).

(** Observations that leave the condition alone. *)
Definition quiet (obs : list (Z * Event)) : Prop :=
  Forall (λ o, o.2 = Skip) obs.

(** Observations after which nothing is tracked: none at all, or the last
    one is a false one. *)
Definition closed (obs : list (Z * Event)) : Prop :=
  quiet obs
  ∨ ∃ pre n skipped, obs = pre ++ (n, Inactive) :: skipped ∧ quiet skipped.

(** The condition has been observed true since [t] without a break: it was
    observed true at [t], the observation before that one, if any, was a false
    one, and no observation after [t] is a false one. *)
Definition continuously_true_since (obs : list (Z * Event)) (t : Z) : Prop :=
  ∃ pre post,
    obs = pre ++ (t, Active) :: post
    ∧ closed pre
    ∧ Forall (λ o, o.2 ≠ Inactive) post.

(** The start that a sequence of observations leaves tracked. *)
Definition track_step (st : option Z) (o : Z * Event) : option Z :=
  match o.2 with
  | Skip => st
  | Inactive => None
  | Active => Some (default o.1 st)
  end.

Definition track (st : option Z) (obs : list (Z * Event)) : option Z :=
  foldl track_step st obs.

(** The cycles at which an item that stays active returns its alert: the
    dwell is met, counted from [since], and the last fire, if any, is not
    within the cooldown. *)
Fixpoint fires (config : AlertsConfig.t) (i : Item) (since : Z)
    (last : option Z) (nows : list Z) : list bool :=
  match nows with
  | [] => []
  | n :: nows' =>
      let due :=
        item_dwell_met config i (total_seconds (n - since))
        && negb (within_cooldown n (IC.resend_interval_seconds (item_cfg config i))
                   last) in
      due :: fires config i since (if due then Some n else last) nows'
  end.

(** How many alerts of an item each cycle of a run returned. *)
Definition alert_counts (i : Item) (outs : list (list Alert)) : list nat :=
  (λ out, length (alerts_of i out)) <$> outs.

(** ** Example configurations and cycles

    Concrete inputs on which the theorems are instantiated. *)

Module Example.

Definition item (threshold duration_seconds resend_interval_seconds : Q)
    (severity : string) (enabled bypass_on_therapy : bool) : IC.t :=
  {| IC.threshold := Num threshold;
     IC.duration_seconds := Num duration_seconds;
     IC.resend_interval_seconds := Num resend_interval_seconds;
     IC.severity := severity;
     IC.enabled := enabled;
     IC.bypass_on_therapy := bypass_on_therapy |}.

(** Sleep hours from 22:00 to 06:00. *)
Definition night : SleepHoursConfig.t :=
  {| is_sleep_hours := λ h _, (22 <=? h) || (h <? 6) |}.

(** A configuration in the style of the defaults: thresholds in percent,
    beats per minute and, for disconnect and therapy absence, minutes. *)
Definition config : AlertsConfig.t :=
  {| spo2_critical_on_therapy := item 85 30 300 "critical" true false;
     spo2_critical_off_therapy := item 88 0 300 "critical" true false;
     spo2_warning := item 92 30 300 "warning" true true;
     hr_high := item 120 600 300 "high" true true;
     hr_low := item 50 10 300 "high" true true;
     disconnect := item 5 0 300 "high" true true;
     no_therapy_at_night_info := item 30 0 3600 "info" true false;
     no_therapy_at_night_high := item 120 0 3600 "high" true false;
     battery_warning := item 20 0 3600 "warning" true false;
     battery_critical := item 10 0 3600 "critical" true false;
     sleep_hours := night |}.

(** The same with the two heart-rate thresholds crossed and no dwell: a
    rate of 75 is over the high threshold and under the low one. *)
Definition crossed_hr : AlertsConfig.t :=
  {| spo2_critical_on_therapy := spo2_critical_on_therapy config;
     spo2_critical_off_therapy := spo2_critical_off_therapy config;
     spo2_warning := spo2_warning config;
     hr_high := item 50 0 300 "high" true true;
     hr_low := item 100 0 300 "high" true true;
     disconnect := disconnect config;
     no_therapy_at_night_info := no_therapy_at_night_info config;
     no_therapy_at_night_high := no_therapy_at_night_high config;
     battery_warning := battery_warning config;
     battery_critical := battery_critical config;
     sleep_hours := sleep_hours config |}.

(** The same with the HR high item disabled and without dwell. *)
Definition hr_high_disabled : AlertsConfig.t :=
  {| spo2_critical_on_therapy := spo2_critical_on_therapy config;
     spo2_critical_off_therapy := spo2_critical_off_therapy config;
     spo2_warning := spo2_warning config;
     hr_high := item 120 0 300 "high" false true;
     hr_low := hr_low config;
     disconnect := disconnect config;
     no_therapy_at_night_info := no_therapy_at_night_info config;
     no_therapy_at_night_high := no_therapy_at_night_high config;
     battery_warning := battery_warning config;
     battery_critical := battery_critical config;
     sleep_hours := sleep_hours config |}.

Definition reading_of (spo2 heart_rate battery_level : Z) : OxiReading :=
  {| spo2 := spo2; heart_rate := heart_rate;
     battery_level := battery_level; is_valid := true |}.

(** An instant, from seconds. *)
Definition seconds (n : Z) : Z := n * 1000000.

(** Noon and eleven at night, in seconds since midnight. *)
Definition noon : Z := 43200.
Definition eleven_pm : Z := 82800.

Definition cycle (at_seconds : Z) (reading : option OxiReading)
    (avaps_state : AVAPSState) (ble_connected : bool) : Cycle :=
  {| now := seconds at_seconds; reading := reading;
     avaps_state := avaps_state; ble_connected := ble_connected |}.

(** An evaluator that has seen a battery level and tracks what is given. *)
Definition evaluator (condition_starts fired_alerts : gmap string Z)
    (last_battery_level : option Z) : Ev.t :=
  {| Ev.tracker := {| Tr.condition_starts := condition_starts;
                      Tr.fired_alerts := fired_alerts |};
     Ev._last_battery_level := last_battery_level |}.

End Example.

(** ** The standard library's binary64

    [round_ne] is compared on the quotients of the examples with the
    division of the standard library's specification of IEEE 754 floats, at
    precision 53 and maximal exponent 1024. *)

Module Binary64.

(** The rational a finite float stands for. *)
Definition to_Q (f : SpecFloat.spec_float) : option Q :=
  match f with
  | SpecFloat.S754_zero _ => Some 0%Q
  | SpecFloat.S754_finite s m e =>
      Some ((if s then -1 else 1) * inject_Z (Z.pos m) * 2 ^ e)%Q
  | _ => None
  end.

(** [float(z)]. *)
Definition of_int (z : Z) : SpecFloat.spec_float :=
  SpecFloat.binary_normalize 53 1024 z 0 false.

(** [x / y] on two floats. *)
Definition div (x y : SpecFloat.spec_float) : SpecFloat.spec_float :=
  SpecFloat.SFdiv 53 1024 x y.

(** [a / b] on two positive ints: the exact quotient, rounded once. *)
Definition int_div (a b : positive) : SpecFloat.spec_float :=
  let '(q, e, l) := SpecFloat.SFdiv_core_binary 53 1024 (Z.pos a) 0 (Z.pos b) 0 in
  SpecFloat.binary_round_aux 53 1024 false q e l.

(** Equality of what two computations return, as rationals. *)
Definition agree (x : Q) (f : SpecFloat.spec_float) : bool :=
  match to_Q f with
  | Some y => Qeq_bool x y
  | None => false
  end.

End Binary64.

(** The doubles that the literals [0.1] and [0.17] denote. *)
Definition tenth : Q := 3602879701896397 # 36028797018963968.
Definition seventeen_hundredths : Q := 6124895493223875 # 36028797018963968.

(** The example configuration with another disconnect threshold. *)
Definition disconnect_after (minutes : Q) : AlertsConfig.t :=
  {| spo2_critical_on_therapy := spo2_critical_on_therapy Example.config;
     spo2_critical_off_therapy := spo2_critical_off_therapy Example.config;
     spo2_warning := spo2_warning Example.config;
     hr_high := hr_high Example.config;
     hr_low := hr_low Example.config;
     disconnect := Example.item minutes 0 300 "high" true true;
     no_therapy_at_night_info := no_therapy_at_night_info Example.config;
     no_therapy_at_night_high := no_therapy_at_night_high Example.config;
     battery_warning := battery_warning Example.config;
     battery_critical := battery_critical Example.config;
     sleep_hours := sleep_hours Example.config |}.

(** ** Variations of a configuration

    Used to say which fields of an item the evaluators read. *)

Definition with_bypass_on_therapy (b : bool) (cfg : IC.t) : IC.t :=
  {| IC.threshold := IC.threshold cfg;
     IC.duration_seconds := IC.duration_seconds cfg;
     IC.resend_interval_seconds := IC.resend_interval_seconds cfg;
     IC.severity := IC.severity cfg;
     IC.enabled := IC.enabled cfg;
     IC.bypass_on_therapy := b |}.

Definition with_duration_seconds (d : number) (cfg : IC.t) : IC.t :=
  {| IC.threshold := IC.threshold cfg;
     IC.duration_seconds := d;
     IC.resend_interval_seconds := IC.resend_interval_seconds cfg;
     IC.severity := IC.severity cfg;
     IC.enabled := IC.enabled cfg;
     IC.bypass_on_therapy := IC.bypass_on_therapy cfg |}.

(** The configuration with the entry of item [i] replaced by [f] of it. *)
Definition update_item (i : Item) (f : IC.t → IC.t) (config : AlertsConfig.t)
    : AlertsConfig.t :=
  let g (j : Item) (cfg : IC.t) := if decide (j = i) then f cfg else cfg in
  {| spo2_critical_on_therapy := g Spo2CriticalOn (spo2_critical_on_therapy config);
     spo2_critical_off_therapy := g Spo2CriticalOff (spo2_critical_off_therapy config);
     spo2_warning := g Spo2Warning (spo2_warning config);
     hr_high := g HrHigh (hr_high config);
     hr_low := g HrLow (hr_low config);
     disconnect := g Disconnect (disconnect config);
     no_therapy_at_night_info := g NoTherapyInfo (no_therapy_at_night_info config);
     no_therapy_at_night_high := g NoTherapyHigh (no_therapy_at_night_high config);
     battery_warning := g BatteryWarning (battery_warning config);
     battery_critical := g BatteryCritical (battery_critical config);
     sleep_hours := sleep_hours config |}.

(** ** The shape of the output *)

(** No alert, or one alert of one of the types [tys]. *)
Definition one_of (tys : list AlertType) (a : list Alert) : Prop :=
  a = [] ∨ ∃ x, a = [x] ∧ alert_type x ∈ tys.

(** ** Recorded instants *)

(** Every instant recorded in the tracker is at most [bound]. *)
Definition stamped_until (bound : Z) (tr : Tr.t) : Prop :=
  (∀ k t, Tr.condition_starts tr !! k = Some t → t ≤ bound)
  ∧ (∀ lk t, Tr.fired_alerts tr !! lk = Some t → t ≤ bound).

(** Every instant recorded in [tr'] is [now] or was recorded in [tr] under
    the same key. *)
Definition stamps (now : Z) (tr tr' : Tr.t) : Prop :=
  (∀ k t, Tr.condition_starts tr' !! k = Some t →
          t = now ∨ Tr.condition_starts tr !! k = Some t)
  ∧ (∀ lk t, Tr.fired_alerts tr' !! lk = Some t →
             t = now ∨ Tr.fired_alerts tr !! lk = Some t).

(** ** The block behind an alert *)

(** The item whose block returns the alerts counted for item [i] in a
    cycle: the two SpO2 critical items share the alert type, and the cycle
    runs the one of its therapy mode. *)
Definition item_run (i : Item) (c : Cycle) : Item :=
  match i with
  | Spo2CriticalOn | Spo2CriticalOff => spo2_critical_item (therapy_on c)
  | _ => i
  end.

(** * Properties *)

(** ** The monad and the tracker's methods *)

Section Exec.
Context {B : Type}.
Implicit Types (k : string) (now : Z) (self : Ev.t).

Lemma bind_ret {S A} (a : A) (c : A → M S B) now (s : S) :
  bind (ret a) c now s = c a now s.
Proof. reflexivity. Qed.

Lemma bind_raise {S A} (e : PyExn) (c : A → M S B) now (s : S) :
  bind (raise e) c now s = Raise e.
Proof. reflexivity. Qed.

Lemma bind_bind {S A A'} (m : M S A) (f : A → M S A') (c : A' → M S B) now (s : S) :
  bind (bind m f) c now s = bind m (λ a, bind (f a) c) now s.
Proof. unfold bind. destruct (m now s) as [[a s']|e]; reflexivity. Qed.

Lemma bind_if {S A} (b : bool) (m1 m2 : M S A) (c : A → M S B) now (s : S) :
  bind (if b then m1 else m2) c now s =
  if b then bind m1 c now s else bind m2 c now s.
Proof. destruct b; reflexivity. Qed.

Lemma bind_get {S} (c : S → M S B) now (s : S) :
  bind get c now s = c s now s.
Proof. reflexivity. Qed.

Lemma bind_put {S} (s' : S) (c : unit → M S B) now (s : S) :
  bind (put s') c now s = c tt now s'.
Proof. reflexivity. Qed.

Lemma bind_now {S} (c : Z → M S B) now (s : S) :
  bind datetime_now c now s = c now now s.
Proof. reflexivity. Qed.

Lemma bind_getattr {S A} (r : OxiReading) name (f : OxiReading → A)
    (c : A → M S B) now (s : S) :
  bind (getattr (Some r) name f) c now s = c (f r) now s.
Proof. reflexivity. Qed.

Lemma bind_reset k (c : unit → M Ev.t B) now self :
  bind (Ev.tracker_call (Tr.reset k)) c now self =
  c tt now (with_tracker (reset_to k (Ev.tracker self)) self).
Proof. reflexivity. Qed.

Lemma bind_start k (c : unit → M Ev.t B) now self :
  bind (Ev.tracker_call (Tr.start k)) c now self =
  c tt now (with_tracker (started now k (Ev.tracker self)) self).
Proof.
  unfold bind, Ev.tracker_call, Tr.start, started, bind, get. cbn.
  destruct (Tr.condition_starts (Ev.tracker self) !! k); cbn; [|reflexivity].
  destruct self; reflexivity.
Qed.

Lemma bind_duration_seconds k (c : Q → M Ev.t B) now self :
  bind (Ev.tracker_call (Tr.duration_seconds k)) c now self =
  c (duration_of now k (Ev.tracker self)) now self.
Proof.
  unfold bind, Ev.tracker_call, Tr.duration_seconds, duration_of, bind, get. cbn.
  destruct (Tr.condition_starts (Ev.tracker self) !! k); cbn;
    destruct self; reflexivity.
Qed.

Lemma bind_was_fired_recently ty sev cooldown (c : bool → M Ev.t B) now self :
  bind (Ev.tracker_call (Tr.was_fired_recently ty sev cooldown)) c now self =
  c (within_cooldown now cooldown (fired self !! (ty +:+ "_" +:+ sev))) now self.
Proof.
  unfold bind, Ev.tracker_call, Tr.was_fired_recently, Tr.fired_alerts_getitem,
    within_cooldown, fired, bind, get. cbn.
  destruct (Tr.fired_alerts (Ev.tracker self) !! (ty +:+ "_" +:+ sev)) eqn:E;
    cbn; [rewrite E; cbn|]; destruct self; reflexivity.
Qed.

Lemma bind_mark_fired ty sev (c : unit → M Ev.t B) now self :
  bind (Ev.tracker_call (Tr.mark_fired ty sev)) c now self =
  c tt now (with_tracker
              (Tr.set_fired_alerts (<[ty +:+ "_" +:+ sev := now]> (fired self))
                 (Ev.tracker self)) self).
Proof. reflexivity. Qed.

Lemma bind_new_Alert ty sev msg o1 o2 (c : Alert → M Ev.t B) now self :
  bind (new_Alert ty sev msg o1 o2) c now self =
  c {| alert_type := ty; severity := sev; message := msg; alert_spo2 := o1;
       alert_heart_rate := o2; timestamp := now |} now self.
Proof. reflexivity. Qed.
End Exec.

(** [clear_fired]: the loop deletes keys that are present, so it never
    raises, and what is left is the ledger without the keys that start with
    the alert type. *)
Lemma for_delitem (l : list string) (now : Z) (tr : Tr.t) :
  NoDup l →
  (∀ k, k ∈ l → is_Some (Tr.fired_alerts tr !! k)) →
  ∃ m, for_ l Tr.fired_alerts_delitem now tr = Ok (tt, Tr.set_fired_alerts m tr)
       ∧ ∀ k, m !! k = if decide (k ∈ l) then None else Tr.fired_alerts tr !! k.
Proof.
  revert tr. induction l as [|x l IH]; intros tr Hnd Hin.
  - exists (Tr.fired_alerts tr). split; [by destruct tr|].
    intros k. case_decide as Hk; [by apply elem_of_nil in Hk|done].
  - apply NoDup_cons in Hnd as [Hx Hnd].
    destruct (Hin x) as [v Hv]; [by left|].
    destruct (IH (Tr.set_fired_alerts (delete x (Tr.fired_alerts tr)) tr) Hnd)
      as (m & Hrun & Hm).
    { intros k Hk. cbn. rewrite lookup_delete_ne; [|by intros ->].
      apply Hin. by right. }
    exists m. split.
    + cbn [for_]. unfold bind at 1, Tr.fired_alerts_delitem, bind, get.
      rewrite Hv. cbn. exact Hrun.
    + intros k. rewrite Hm. cbn.
      destruct (decide (k = x)) as [->|Hne].
      * rewrite lookup_delete_eq.
        case_decide; case_decide as H2; try done.
        exfalso. apply H2. by left.
      * rewrite lookup_delete_ne by done.
        case_decide as H1; case_decide as H2; try done.
        -- exfalso. apply H2. by right.
        -- apply elem_of_cons in H2 as [->|]; done.
Qed.

Lemma clear_fired_closed (ty : string) (now : Z) (tr : Tr.t) :
  Tr.clear_fired ty now tr = Ok (tt, cleared ty tr).
Proof.
  unfold Tr.clear_fired. rewrite bind_get. cbv beta zeta.
  set (l := filter _ _).
  change (for_ l Tr.fired_alerts_delitem now tr = Ok (tt, cleared ty tr)).
  destruct (for_delitem l now tr) as (m & -> & Hm).
  - apply NoDup_filter, NoDup_fst_map_to_list.
  - intros k [_ Hk]%list_elem_of_filter.
    apply list_elem_of_fmap in Hk as ([k' v] & -> & Hk).
    apply elem_of_map_to_list in Hk. by eexists.
  - do 2 f_equal. unfold cleared. f_equal. apply map_eq. intros k.
    rewrite Hm. subst l.
    destruct (filter _ (Tr.fired_alerts tr) !! k) as [v|] eqn:E.
    + apply map_lookup_filter_Some in E as [E1 E2]. cbn in E2.
      rewrite decide_False; [done|].
      intros [Hp _]%list_elem_of_filter. congruence.
    + apply map_lookup_filter_None in E.
      case_decide as Hk; [done|].
      destruct E as [E|E]; [done|].
      destruct (Tr.fired_alerts tr !! k) as [v|] eqn:Ek; [|done].
      exfalso. apply Hk. apply list_elem_of_filter. split.
      * specialize (E v eq_refl). cbn in E. by destruct (String.prefix ty k).
      * apply list_elem_of_fmap. exists (k, v). split; [done|].
        by apply elem_of_map_to_list.
Qed.

Lemma bind_clear_fired {B} ty (c : unit → M Ev.t B) now self :
  bind (Ev.tracker_call (Tr.clear_fired ty)) c now self =
  c tt now (with_tracker (cleared ty (Ev.tracker self)) self).
Proof.
  unfold bind at 1, Ev.tracker_call. by rewrite clear_fired_closed.
Qed.

Lemma bind_fire_unless_recent {B} alerts cfg ty aty msg o1 o2
    (c : list Alert → M Ev.t B) now self :
  bind (Ev.fire_unless_recent alerts cfg ty aty msg o1 o2) c now self =
  c (alerts ++ (fire_closed now cfg ty aty msg o1 o2 (Ev.tracker self)).1) now
    (with_tracker (fire_closed now cfg ty aty msg o1 o2 (Ev.tracker self)).2 self).
Proof.
  unfold Ev.fire_unless_recent, fire_closed, ledger_key.
  rewrite bind_bind, bind_was_fired_recently. unfold fired.
  destruct (within_cooldown _ _ _); cbn [negb fst snd].
  - rewrite bind_ret, app_nil_r. by destruct self.
  - destruct (IC.enabled cfg); cbn [fst snd].
    + by rewrite !bind_bind, bind_new_Alert, bind_bind, bind_mark_fired, bind_ret.
    + by rewrite bind_bind, bind_mark_fired, bind_ret, app_nil_r.
Qed.

(** ** The methods against their closed forms

    The lemmas are in continuation form: a method followed by the rest of
    the computation is the rest run on the closed form's result. *)

Ltac exec_simpl :=
  cbv beta zeta; unfold with_tracker, tier_closed, observe, reached;
  cbn [Ev.tracker Ev._last_battery_level fst snd app negb andb orb not_].

Ltac exec_step :=
  first
    [ rewrite bind_bind | rewrite bind_ret | rewrite bind_getattr
    | rewrite bind_get | rewrite bind_put | rewrite bind_now
    | rewrite bind_reset | rewrite bind_clear_fired | rewrite bind_start
    | rewrite bind_duration_seconds | rewrite bind_fire_unless_recent
    | rewrite bind_if ];
  exec_simpl.

Ltac bool_atom b :=
  lazymatch b with
  | negb ?b' => bool_atom b'
  | andb ?b' _ => bool_atom b'
  | orb ?b' _ => bool_atom b'
  | _ => b
  end.

Ltac exec_case :=
  first
    [ match goal with
      | |- context [let '(_, _) := ?p in _] =>
          lazymatch p with
          | context [if _ then _ else _] => fail
          | context [let '(_, _) := _ in _] => fail
          | _ => destruct p eqn:?
          end
      end
    | match goal with
      | |- context [if ?b then _ else _] =>
          lazymatch b with
          | context [if _ then _ else _] => fail
          | context [let '(_, _) := _ in _] => fail
          | _ => let a := bool_atom b in destruct a eqn:?
          end
      end ];
  exec_simpl.

Ltac exec := exec_simpl; repeat (repeat exec_step; try exec_case).

Section ClosedForms.
Context {B : Type}.
Variable config : AlertsConfig.t.
Implicit Types (c : list Alert → M Ev.t B) (now : Z) (self : Ev.t).

Lemma _evaluate_hr_closed r therapy_on c now self :
  bind (Ev._evaluate_hr config (Some r) therapy_on) c now self =
  let '(a, tr) := hr_closed config now r therapy_on (Ev.tracker self) in
  c a now (with_tracker tr self).
Proof.
  destruct self as [tr lb].
  unfold Ev._evaluate_hr, hr_closed.
  exec.
  all: rewrite ?app_nil_r; reflexivity.
Qed.

Lemma _evaluate_spo2_closed r therapy_on c now self :
  bind (Ev._evaluate_spo2 config (Some r) therapy_on) c now self =
  let '(a, tr) := spo2_closed config now r therapy_on (Ev.tracker self) in
  c a now (with_tracker tr self).
Proof.
  destruct self as [tr lb].
  unfold Ev._evaluate_spo2, spo2_closed.
  destruct therapy_on; exec.
  all: rewrite ?app_nil_r; reflexivity.
Qed.

Lemma _evaluate_disconnect_closed ble_connected therapy_on c now self :
  bind (Ev._evaluate_disconnect config ble_connected therapy_on) c now self =
  let '(a, tr) :=
    disconnect_closed config now ble_connected therapy_on (Ev.tracker self) in
  c a now (with_tracker tr self).
Proof.
  destruct self as [tr lb].
  unfold Ev._evaluate_disconnect, disconnect_closed.
  exec.
  all: rewrite ?app_nil_r; reflexivity.
Qed.

Lemma _evaluate_no_therapy_at_night_closed avaps_state c now self :
  bind (Ev._evaluate_no_therapy_at_night config avaps_state) c now self =
  let '(a, tr) := no_therapy_closed config now avaps_state (Ev.tracker self) in
  c a now (with_tracker tr self).
Proof.
  destruct self as [tr lb].
  unfold Ev._evaluate_no_therapy_at_night, no_therapy_closed, in_sleep_hours.
  exec.
  all: rewrite ?app_nil_r; reflexivity.
Qed.

Lemma _evaluate_battery_closed r therapy_on c now self :
  bind (Ev._evaluate_battery config (Some r) therapy_on) c now self =
  let '(a, self') := battery_closed config now r therapy_on self in
  c a now self'.
Proof.
  destruct self as [tr lb].
  unfold Ev._evaluate_battery, battery_closed, Ev.set_last_battery_level.
  exec.
  all: rewrite ?app_nil_r; reflexivity.
Qed.
End ClosedForms.

(** ** [evaluate] *)

Ltac closed_norm :=
  cbv beta; unfold with_tracker;
  cbn [Ev.tracker Ev._last_battery_level app].

Ltac closed_step :=
  first
    [ first [ rewrite bind_bind | rewrite bind_ret ]; closed_norm
    | first
        [ rewrite _evaluate_disconnect_closed | rewrite _evaluate_spo2_closed
        | rewrite _evaluate_hr_closed | rewrite _evaluate_battery_closed
        | rewrite _evaluate_no_therapy_at_night_closed ];
      closed_norm;
      match goal with
      | |- context [let '(_, _) := ?p in _] =>
          lazymatch p with
          | context [let '(_, _) := _ in _] => fail
          | _ => destruct p; closed_norm
          end
      end ].

Lemma evaluate_cycle_closed config c self :
  evaluate_cycle config c self = Ok (evaluate_closed config c self).
Proof.
  unfold evaluate_cycle, Ev.evaluate, evaluate_closed, vitals_closed,
    Ev.vitals_guard.
  cbv zeta. closed_step. rewrite bind_if.
  destruct (reading c) as [r|]; [destruct (ble_connected c && is_valid r)|];
    rewrite ?andb_false_r; repeat closed_step;
    rewrite <- ?app_assoc, ?app_nil_r; reflexivity.
Qed.
(** ** Rounding to binary64

    What the proofs use of [round_ne]: it is within half a unit in the last
    place of its argument, and it does not cross an integer under [2^53]. *)

Section Rounding.
Local Open Scope Q_scope.

Lemma pow2_pos (e : Z) : 0 < 2 ^ e.
Proof. by apply Qpower_0_lt. Qed.

Lemma pow2_plus (a b : Z) : 2 ^ (a + b) == 2 ^ a * 2 ^ b.
Proof. by apply Qpower_plus. Qed.

Lemma pow2_Z (n : Z) : (0 <= n)%Z → inject_Z (2 ^ n) == 2 ^ n.
Proof. intros Hn. by rewrite Zpower_Qpower. Qed.

Lemma pow2_le (a b : Z) : (a <= b)%Z → 2 ^ a <= 2 ^ b.
Proof. intros H. by apply Qpower_le_compat_l. Qed.

Lemma mag_spec (q : Q) : 0 < q → 2 ^ (mag q - 1) <= q ∧ q < 2 ^ mag q.
Proof.
  intros Hq. destruct q as [a b]. unfold mag. cbn [Qnum Qden].
  assert (0 < a)%Z as Ha by (unfold Qlt in Hq; cbn in Hq; lia).
  set (la := Z.log2 a). set (lb := Z.log2 (Z.pos b)).
  destruct (Z.log2_spec a Ha) as [A1 A2]. fold la in A1, A2.
  destruct (Z.log2_spec (Z.pos b) (Pos2Z.is_pos b)) as [B1 B2]. fold lb in B1, B2.
  assert (0 <= la)%Z as Hla by apply Z.log2_nonneg.
  assert (0 <= lb)%Z as Hlb by apply Z.log2_nonneg.
  set (A := inject_Z a). set (B := inject_Z (Z.pos b)).
  assert (a # b == A / B) as Hab by apply Qmake_Qdiv.
  assert (0 < B) as HB by (unfold B, Qlt; cbn; lia).
  assert (2 ^ la <= A) as HA1.
  { rewrite <- pow2_Z by done. unfold A. by rewrite <- Zle_Qle. }
  assert (A < 2 ^ (la + 1)) as HA2.
  { rewrite <- pow2_Z by lia. unfold A. rewrite <- Zlt_Qlt. lia. }
  assert (2 ^ lb <= B) as HB1.
  { rewrite <- pow2_Z by done. unfold B. by rewrite <- Zle_Qle. }
  assert (B < 2 ^ (lb + 1)) as HB2.
  { rewrite <- pow2_Z by lia. unfold B. rewrite <- Zlt_Qlt. lia. }
  set (d := (la - lb)%Z).
  assert (A == (a # b) * B) as HAq by (rewrite Hab; field; lra).
  assert (2 ^ (d - 1) < a # b) as L.
  { assert (2 ^ la == 2 ^ (d - 1) * 2 ^ (lb + 1)) as E
      by (rewrite <- pow2_plus; apply Qpower_comp; [done|unfold d; lia]).
    pose proof (pow2_pos (d - 1)). pose proof (pow2_pos lb).
    pose proof (pow2_pos (lb + 1)). nra. }
  assert (a # b < 2 ^ (d + 1)) as U.
  { assert (2 ^ (la + 1) == 2 ^ (d + 1) * 2 ^ lb) as E
      by (rewrite <- pow2_plus; apply Qpower_comp; [done|unfold d; lia]).
    pose proof (pow2_pos (d + 1)). pose proof (pow2_pos lb). nra. }
  destruct (Qle_bool (2 ^ d) (a # b)) eqn:C.
  - apply Qle_bool_iff in C. split; [|exact U].
    assert (2 ^ (d + 1 - 1) == 2 ^ d) as -> by (apply Qpower_comp; [done|lia]).
    exact C.
  - split; [by apply Qlt_le_weak|].
    destruct (Qlt_le_dec (a # b) (2 ^ d)) as [|H]; [done|].
    apply Qle_bool_iff in H. congruence.
Qed.

Lemma mag_le (q : Q) (m : Z) : 0 < q → q < 2 ^ m → (mag q <= m)%Z.
Proof.
  intros Hq Hm. destruct (mag_spec q Hq) as [L _].
  assert (2 ^ (mag q - 1) < 2 ^ m) as H by lra.
  apply Qpower_lt_compat_l_inv in H; [lia|lra].
Qed.

Lemma mag_gt (q : Q) (m : Z) : 0 < q → 2 ^ m <= q → (m < mag q)%Z.
Proof.
  intros Hq Hm. destruct (mag_spec q Hq) as [_ U].
  assert (2 ^ m < 2 ^ mag q) as H by lra.
  apply Qpower_lt_compat_l_inv in H; [lia|lra].
Qed.

Lemma rne_floor (s : Q) : (Qfloor s <= rne s <= Qfloor s + 1)%Z.
Proof.
  unfold rne. destruct (_ ?= _); [destruct (Z.even _)| |]; lia.
Qed.

Lemma rne_err (s : Q) : - (1 # 2) <= inject_Z (rne s) - s <= 1 # 2.
Proof.
  unfold rne. pose proof (Qfloor_le s) as L. pose proof (Qlt_floor s) as U.
  rewrite inject_Z_plus in U. change (inject_Z 1) with 1 in U.
  destruct ((s - inject_Z (Qfloor s)) ?= (1 # 2)) eqn:C.
  - apply Qeq_alt in C.
    destruct (Z.even _); rewrite ?inject_Z_plus; change (inject_Z 1) with 1; lra.
  - apply Qlt_alt in C. lra.
  - apply Qgt_alt in C. rewrite inject_Z_plus. change (inject_Z 1) with 1. lra.
Qed.

Lemma rne_ge (j : Z) (s : Q) : inject_Z j <= s → (j <= rne s)%Z.
Proof.
  intros H. pose proof (rne_floor s). apply Qfloor_resp_le in H.
  rewrite Qfloor_Z in H. lia.
Qed.

Lemma rne_le (j : Z) (s : Q) : s <= inject_Z j → (rne s <= j)%Z.
Proof.
  intros H. pose proof (rne_floor s) as [_ F].
  destruct (Qlt_le_dec s (inject_Z j)) as [Hlt|Hge].
  - assert (Qfloor s < j)%Z; [|lia].
    apply Z.lt_nge. intros Hj. rewrite Zle_Qle in Hj.
    pose proof (Qfloor_le s). lra.
  - assert (s == inject_Z j) as E by lra.
    assert (Qfloor s = j) as Hf by (rewrite (Qfloor_comp _ _ E); apply Qfloor_Z).
    unfold rne. rewrite Hf.
    assert (((s - inject_Z j) ?= (1 # 2)) = Lt) as ->.
    { apply (proj1 (Qlt_alt _ _)). lra. }
    lia.
Qed.

Lemma round_pos_err (q : Q) :
  0 < q →
  - (2 ^ fexp (mag q) * (1 # 2)) <= round_pos q - q <= 2 ^ fexp (mag q) * (1 # 2).
Proof.
  intros Hq. unfold round_pos. cbv zeta.
  set (P := 2 ^ fexp (mag q)).
  assert (0 < P) as HP by apply pow2_pos.
  pose proof (rne_err (q / P)) as Hr.
  assert (q == q / P * P) as Hs by (field; lra).
  set (r := inject_Z (rne (q / P))) in *. set (s := q / P) in *. nra.
Qed.

Lemma round_pos_nonneg (q : Q) : 0 < q → 0 <= round_pos q.
Proof.
  intros Hq. unfold round_pos. cbv zeta.
  set (P := 2 ^ fexp (mag q)).
  assert (0 < P) as HP by apply pow2_pos.
  assert (0 <= rne (q / P))%Z as Hr.
  { apply (rne_ge 0). change (inject_Z 0) with 0. apply Qle_shift_div_l; lra. }
  rewrite Zle_Qle in Hr. change (inject_Z 0) with 0 in Hr. nra.
Qed.

(** An integer under [2^53], as a multiple of a unit in the last place
    [2^e] with [e <= 0]. *)
Lemma int_scaled (j e : Z) :
  (e <= 0)%Z → inject_Z j == inject_Z (j * 2 ^ (- e)) * 2 ^ e.
Proof.
  intros He. rewrite inject_Z_mult, pow2_Z by lia.
  rewrite <- Qmult_assoc, <- pow2_plus.
  replace (- e + e)%Z with 0%Z by lia. change (2 ^ 0) with 1. lra.
Qed.

Lemma round_pos_ge (j : Z) (q : Q) :
  (0 <= j < 2 ^ 53)%Z → 0 < q → inject_Z j <= q → inject_Z j <= round_pos q.
Proof.
  intros Hj Hq Hjq. unfold round_pos. cbv zeta.
  set (e := fexp (mag q)). set (P := 2 ^ e).
  assert (0 < P) as HP by apply pow2_pos.
  destruct (Z_le_gt_dec e 0) as [He|He].
  - pose proof (int_scaled j e He) as Hs. fold P in Hs.
    set (J := (j * 2 ^ (- e))%Z) in *.
    assert (J <= rne (q / P))%Z as Hr.
    { apply rne_ge. apply Qle_shift_div_l; [done|]. lra. }
    rewrite Zle_Qle in Hr. nra.
  - assert (e = mag q - 53)%Z as Hm by (unfold e, fexp in *; lia).
    destruct (mag_spec q Hq) as [L _].
    assert (2 ^ (mag q - 1) == 2 ^ 52 * P) as E
      by (unfold P; rewrite <- pow2_plus; apply Qpower_comp; [done|lia]).
    assert (2 ^ 52 <= rne (q / P))%Z as Hr.
    { apply rne_ge. apply Qle_shift_div_l; [done|].
      rewrite pow2_Z by lia. lra. }
    rewrite Zle_Qle in Hr. rewrite pow2_Z in Hr by lia.
    assert (2 <= P) as HP2.
    { assert (2 == 2 ^ 1) as -> by done. apply pow2_le. lia. }
    assert (inject_Z j < 2 ^ 53) as Hj53.
    { rewrite <- pow2_Z by lia. rewrite <- Zlt_Qlt. lia. }
    assert (2 ^ 53 == 2 ^ 52 * 2) as E53 by (by vm_compute).
    pose proof (pow2_pos 52). nra.
Qed.

Lemma round_pos_le (j : Z) (q : Q) :
  (j < 2 ^ 53)%Z → 0 < q → q <= inject_Z j → round_pos q <= inject_Z j.
Proof.
  intros Hj Hq Hjq. unfold round_pos. cbv zeta.
  set (e := fexp (mag q)). set (P := 2 ^ e).
  assert (0 < P) as HP by apply pow2_pos.
  assert (e <= 0)%Z as He.
  { assert (mag q <= 53)%Z; [|unfold e, fexp; lia].
    apply mag_le; [done|]. rewrite <- pow2_Z by lia.
    assert (inject_Z j < inject_Z (2 ^ 53)) by (rewrite <- Zlt_Qlt; lia). lra. }
  pose proof (int_scaled j e He) as Hs. fold P in Hs.
  set (J := (j * 2 ^ (- e))%Z) in *.
  assert (rne (q / P) <= J)%Z as Hr.
  { apply rne_le. apply Qle_shift_div_r; [done|]. lra. }
  rewrite Zle_Qle in Hr. nra.
Qed.

Lemma round_ne_cases (q : Q) :
  (q == 0 ∧ round_ne q = 0)
  ∨ (0 < q ∧ round_ne q = round_pos q)
  ∨ (q < 0 ∧ round_ne q = - round_pos (- q)).
Proof.
  unfold round_ne. destruct (q ?= 0) eqn:C.
  - left. by apply Qeq_alt in C.
  - right. right. by apply Qlt_alt in C.
  - right. left. by apply Qgt_alt in C.
Qed.

Lemma round_ne_ge (j : Z) (q : Q) :
  (- 2 ^ 53 < j < 2 ^ 53)%Z → inject_Z j <= q → inject_Z j <= round_ne q.
Proof.
  intros Hj Hjq.
  destruct (round_ne_cases q) as [[Hq ->]|[[Hq ->]|[Hq ->]]].
  - lra.
  - destruct (Z_le_gt_dec 0 j) as [H0|H0].
    + apply round_pos_ge; [lia|done|done].
    + pose proof (round_pos_nonneg q Hq).
      assert (inject_Z j < 0) by (change 0 with (inject_Z 0); rewrite <- Zlt_Qlt; lia).
      lra.
  - assert (round_pos (- q) <= inject_Z (- j)); [|rewrite inject_Z_opp in *; lra].
    apply round_pos_le; [lia|lra|]. rewrite inject_Z_opp. lra.
Qed.

Lemma round_ne_err (k : Z) (q : Q) :
  (-1021 <= k)%Z → - 2 ^ k < q → q < 2 ^ k →
  - 2 ^ (k - 54) <= round_ne q - q <= 2 ^ (k - 54).
Proof.
  intros Hk Hl Hu.
  assert (2 ^ (k - 53) == 2 * 2 ^ (k - 54)) as E.
  { assert (2 == 2 ^ 1) as Ht by done. rewrite Ht at 2.
    rewrite <- pow2_plus. apply Qpower_comp; [done|lia]. }
  pose proof (pow2_pos (k - 54)) as Hp.
  assert (∀ p, 0 < p → p < 2 ^ k → 2 ^ fexp (mag p) <= 2 ^ (k - 53)) as Hexp.
  { intros p Hp0 Hpk. apply pow2_le. pose proof (mag_le p k Hp0 Hpk).
    unfold fexp. lia. }
  destruct (round_ne_cases q) as [[Hq ->]|[[Hq ->]|[Hq ->]]].
  - lra.
  - pose proof (round_pos_err q Hq). pose proof (Hexp q Hq Hu). lra.
  - assert (0 < - q) as Hq' by lra.
    pose proof (round_pos_err (- q) Hq'). pose proof (Hexp (- q) Hq' ltac:(lra)). lra.
Qed.

(** *** Whole seconds and whole minutes

    For a dwell or a cooldown that is a whole number, and instants less
    than [2^31] seconds apart, the tests of the evaluators on rounded floats
    decide what the exact quotients would. *)

Lemma total_seconds_bounds (delta : Z) :
  (- (2 ^ 31 * 1000000) < delta < 2 ^ 31 * 1000000)%Z →
  let q := inject_Z delta / 1000000 in
  - 2 ^ 31 < q ∧ q < 2 ^ 31
  ∧ - (1 # 8388608) <= total_seconds delta - q <= 1 # 8388608.
Proof.
  intros Hd q.
  assert (- inject_Z (2 ^ 31 * 1000000) < inject_Z delta
          ∧ inject_Z delta < inject_Z (2 ^ 31 * 1000000)) as [H1 H2].
  { rewrite <- inject_Z_opp, <- !Zlt_Qlt. lia. }
  assert (inject_Z (2 ^ 31 * 1000000) == 2 ^ 31 * 1000000) as E by (by vm_compute).
  assert (inject_Z delta == q * 1000000) as Eq by (unfold q; field).
  assert (2 ^ 31 == 2147483648) as E31 by (by vm_compute).
  assert (- 2 ^ 31 < q ∧ q < 2 ^ 31) as [L U] by (split; lra).
  split; [done|]. split; [done|].
  pose proof (round_ne_err 31 q ltac:(lia) L U) as Herr.
  assert (2 ^ (31 - 54) == 1 # 8388608) as E23 by (by vm_compute).
  change (total_seconds delta) with (round_ne q). lra.
Qed.

Lemma seconds_reached (n delta : Z) :
  (0 <= n)%Z → (- (2 ^ 31 * 1000000) < delta < 2 ^ 31 * 1000000)%Z →
  Qle_bool (inject_Z n) (total_seconds delta) = true ↔ (n * 1000000 <= delta)%Z.
Proof.
  intros Hn Hd. rewrite Qle_bool_iff.
  destruct (total_seconds_bounds delta Hd) as (L & U & Herr).
  set (q := inject_Z delta / 1000000) in *.
  assert (inject_Z delta == q * 1000000) as Eq by (unfold q; field).
  assert (2 ^ 31 == 2147483648) as E31 by (by vm_compute).
  split.
  - intros H. apply Z.le_ngt. intros Hlt.
    assert (delta <= n * 1000000 + -1)%Z as Hz by lia.
    rewrite Zle_Qle, inject_Z_plus, inject_Z_mult in Hz.
    change (inject_Z 1000000) with 1000000 in Hz.
    change (inject_Z (-1)) with (-1) in Hz. lra.
  - intros H. rewrite Zle_Qle, inject_Z_mult in H.
    change (inject_Z 1000000) with 1000000 in H.
    assert (inject_Z n <= q) as Hq by lra.
    change (total_seconds delta) with (round_ne q). apply round_ne_ge; [|done].
    assert (inject_Z n < inject_Z (2 ^ 31)) as Hlt.
    { assert (inject_Z (2 ^ 31) == 2147483648) by (by vm_compute). lra. }
    rewrite <- Zlt_Qlt in Hlt. lia.
Qed.

Lemma minutes_reached (n delta : Z) :
  (0 <= n)%Z → (- (2 ^ 31 * 1000000) < delta < 2 ^ 31 * 1000000)%Z →
  Qle_bool (inject_Z n) (truediv (total_seconds delta) 60) = true
  ↔ (60 * n * 1000000 <= delta)%Z.
Proof.
  intros Hn Hd. rewrite Qle_bool_iff.
  destruct (total_seconds_bounds delta Hd) as (L & U & Herr).
  set (q := inject_Z delta / 1000000) in *. set (y := total_seconds delta) in *.
  assert (inject_Z delta == q * 1000000) as Eq by (unfold q; field).
  assert (2 ^ 31 == 2147483648) as E31 by (by vm_compute).
  assert (2 ^ 26 == 67108864) as E26 by (by vm_compute).
  assert (2 ^ (26 - 54) == 1 # 268435456) as E28 by (by vm_compute).
  assert (y / inject_Z 60 == y * (1 # 60)) as Ey by (by field).
  pose proof (round_ne_err 26 (y / inject_Z 60) ltac:(lia) ltac:(lra) ltac:(lra))
    as Herr2.
  unfold truediv. split.
  - intros H. apply Z.le_ngt. intros Hlt.
    assert (delta <= 60 * n * 1000000 + -1)%Z as Hz by lia.
    rewrite Zle_Qle, inject_Z_plus, !inject_Z_mult in Hz.
    change (inject_Z 1000000) with 1000000 in Hz.
    change (inject_Z 60) with 60 in Hz.
    change (inject_Z (-1)) with (-1) in Hz. lra.
  - intros H. rewrite Zle_Qle, !inject_Z_mult in H.
    change (inject_Z 1000000) with 1000000 in H. change (inject_Z 60) with 60 in H.
    assert (inject_Z (60 * n) <= q) as Hq.
    { rewrite inject_Z_mult. change (inject_Z 60) with 60. lra. }
    assert (inject_Z (60 * n) < inject_Z (2 ^ 31)) as Hlt.
    { assert (inject_Z (2 ^ 31) == 2147483648) by (by vm_compute). lra. }
    rewrite <- Zlt_Qlt in Hlt.
    assert (inject_Z (60 * n) <= y) as Hy.
    { change y with (round_ne q). apply round_ne_ge; [lia|done]. }
    rewrite inject_Z_mult in Hy. change (inject_Z 60) with 60 in Hy.
    apply round_ne_ge; [lia|]. lra.
Qed.

(** Elapsed seconds are not negative when the clock has not gone back. *)
Lemma total_seconds_nonneg (delta : Z) : (0 <= delta)%Z → 0 <= total_seconds delta.
Proof.
  intros Hd. unfold total_seconds, truediv.
  change 0 with (inject_Z 0). apply round_ne_ge; [lia|].
  change (inject_Z 0) with 0. change (inject_Z 1000000) with 1000000.
  apply Qle_shift_div_l; [reflexivity|].
  rewrite Qmult_0_l. change 0 with (inject_Z 0). rewrite <- Zle_Qle. exact Hd.
Qed.

End Rounding.


(** ** The rounding on examples *)

Example tenth_is_rounded : Qeq_bool tenth (round_ne (1 # 10)) = true.
Proof. vm_compute; reflexivity. Qed.

Example seventeen_hundredths_is_rounded :
  Qeq_bool seventeen_hundredths (round_ne (17 # 100)) = true.
Proof. vm_compute; reflexivity. Qed.

(** [round_ne] and the library's division return the same floats. *)
Example truediv_agrees_with_binary64 :
  Binary64.agree (truediv 102 10)
    (Binary64.div (Binary64.of_int 102) (Binary64.of_int 10)) = true
  ∧ Binary64.agree (truediv (truediv 102 10) 60)
      (Binary64.div (Binary64.div (Binary64.of_int 102) (Binary64.of_int 10))
         (Binary64.of_int 60)) = true
  ∧ Binary64.agree (truediv 6 60)
      (Binary64.div (Binary64.of_int 6) (Binary64.of_int 60)) = true
  ∧ Binary64.agree (truediv 1 3)
      (Binary64.div (Binary64.of_int 1) (Binary64.of_int 3)) = true
  ∧ Binary64.agree (truediv (-7) 60)
      (Binary64.div (Binary64.of_int (-7)) (Binary64.of_int 60)) = true
  ∧ Binary64.agree (truediv (truediv 1 3) 60)
      (Binary64.div (Binary64.div (Binary64.of_int 1) (Binary64.of_int 3))
         (Binary64.of_int 60)) = true.
Proof. vm_compute. by repeat split. Qed.

Example total_seconds_agrees_with_binary64 :
  Binary64.agree (total_seconds 10200000) (Binary64.int_div 10200000 1000000) = true
  ∧ Binary64.agree (total_seconds 20000000000999999)
      (Binary64.int_div 20000000000999999 1000000) = true
  ∧ Binary64.agree (total_seconds 1) (Binary64.int_div 1 1000000) = true
  ∧ Binary64.agree (total_seconds 86399999999) (Binary64.int_div 86399999999 1000000)
    = true.
Proof. vm_compute. by repeat split. Qed.

(** A difference of 20000000000.999999 seconds rounds up to the next whole
    second, and a message built from it says so. *)
Example total_seconds_rounds :
  int (total_seconds 20000000000999999) = 20000000001.
Proof. vm_compute; reflexivity. Qed.

(** One microsecond is not a whole number of binary fractions of a second. *)
Example total_seconds_inexact : Qeq_bool (total_seconds 1) (1 # 1000000) = false.
Proof. vm_compute; reflexivity. Qed.

(** ** Frames *)

Lemma prefix_append (p s : string) : String.prefix p (p +:+ s) = true.
Proof.
  induction p as [|a p IH]; simpl; [by destruct s|].
  destruct (Ascii.ascii_dec a a); [exact IH|done].
Qed.

Lemma prefix_ledger_key ty cfg : String.prefix ty (ledger_key ty cfg) = true.
Proof. apply prefix_append. Qed.

Lemma cleared_lookup ty tr lk :
  Tr.fired_alerts (cleared ty tr) !! lk =
  if String.prefix ty lk then None else Tr.fired_alerts tr !! lk.
Proof.
  unfold cleared. cbn.
  destruct (String.prefix ty lk) eqn:E.
  - apply map_lookup_filter_None. right. intros v _. cbn. congruence.
  - destruct (Tr.fired_alerts tr !! lk) as [v|] eqn:Ev.
    + by apply map_lookup_filter_Some.
    + apply map_lookup_filter_None. by left.
Qed.

Lemma started_lookup now k tr k' :
  Tr.condition_starts (started now k tr) !! k' =
  if decide (k = k') then Some (default now (Tr.condition_starts tr !! k))
  else Tr.condition_starts tr !! k'.
Proof.
  unfold started. destruct (Tr.condition_starts tr !! k) eqn:E; cbn.
  - case_decide; [by subst|done].
  - case_decide; [subst; by rewrite lookup_insert_eq|by rewrite lookup_insert_ne].
Qed.

Lemma started_fired now k tr :
  Tr.fired_alerts (started now k tr) = Tr.fired_alerts tr.
Proof. unfold started. by destruct (_ !! _). Qed.

Lemma duration_of_started now k tr :
  duration_of now k (started now k tr) =
  total_seconds (now - default now (Tr.condition_starts tr !! k)).
Proof.
  unfold duration_of. rewrite started_lookup, decide_True by done. done.
Qed.

Lemma touches_nil P tr : touches [] [] P tr [] tr.
Proof. split; [|split]; [by intros..|constructor]. Qed.

Lemma touches_weaken ks ps (P : Alert → Prop) ks' ps' (P' : Alert → Prop) tr a tr' :
  ks ⊆ ks' → ps ⊆ ps' → (∀ x, P x → P' x) →
  touches ks ps P tr a tr' → touches ks' ps' P' tr a tr'.
Proof.
  intros Hk Hp Ht (H1 & H2 & H3). split; [|split].
  - intros k Hk'. apply H1. intros ?. apply Hk'. by apply Hk.
  - intros lk Hlk. apply H2. rewrite Forall_forall in *.
    intros p ?. apply Hlk. by apply Hp.
  - eapply Forall_impl; [exact H3|]. done.
Qed.

Lemma touches_trans ks ps P tr a tr1 b tr2 :
  touches ks ps P tr a tr1 → touches ks ps P tr1 b tr2 →
  touches ks ps P tr (a ++ b) tr2.
Proof.
  intros (H1 & H2 & H3) (H1' & H2' & H3'). split; [|split].
  - intros k Hk. by rewrite H1', H1.
  - intros lk Hlk. by rewrite H2', H2.
  - by apply Forall_app.
Qed.

Lemma reset_to_touches P k tr : touches [k] [] P tr [] (reset_to k tr).
Proof.
  split; [|split].
  - intros k' Hk'. cbn. apply lookup_delete_ne. intros ->. apply Hk'. by left.
  - by intros.
  - constructor.
Qed.

Lemma cleared_touches P ty tr : touches [] [ty] P tr [] (cleared ty tr).
Proof.
  split; [|split].
  - by intros.
  - intros lk Hlk.
    apply Forall_cons in Hlk as [Hlk _]. by rewrite cleared_lookup, Hlk.
  - constructor.
Qed.

Lemma started_touches P now k tr : touches [k] [] P tr [] (started now k tr).
Proof.
  split; [|split].
  - intros k' Hk'. rewrite started_lookup, decide_False; [done|].
    intros ->. apply Hk'. by left.
  - intros lk _. by rewrite started_fired.
  - constructor.
Qed.

Lemma fire_closed_touches now cfg ty aty msg o1 o2 tr a tr' :
  fire_closed now cfg ty aty msg o1 o2 tr = (a, tr') →
  touches [] [ty] (of_message aty msg) tr a tr'.
Proof.
  unfold fire_closed. intros E.
  assert (∀ lk, Forall (λ p, String.prefix p lk = false) [ty] →
               lk ≠ ledger_key ty cfg) as Hne.
  { intros lk Hlk ->. apply Forall_cons in Hlk as [Hlk _].
    by rewrite prefix_ledger_key in Hlk. }
  destruct (within_cooldown _ _ _); [|destruct (IC.enabled cfg)];
    injection E as <- <-; (split; [by intros|split]).
  all: try (intros lk Hlk; cbn; try done;
            apply lookup_insert_ne; intros Heq; by apply (Hne lk)).
  all: repeat constructor.
Qed.

Lemma tier_closed_touches now cfg ck ty aty dwell msg o1 o2 ev tr a tr' :
  tier_closed now cfg ck ty aty dwell msg o1 o2 ev tr = (a, tr') →
  touches [ck] [ty] (of_types [aty]) tr a tr'.
Proof.
  unfold tier_closed. intros E. destruct ev.
  - injection E as <- <-. eapply touches_weaken, touches_nil; set_solver.
  - injection E as <- <-. change (@nil Alert) with (@nil Alert ++ []).
    eapply touches_trans.
    + eapply touches_weaken, reset_to_touches; set_solver.
    + eapply touches_weaken, cleared_touches; set_solver.
  - destruct (dwell _).
    + change a with ([] ++ a). eapply touches_trans.
      * eapply touches_weaken, started_touches; set_solver.
      * eapply touches_weaken, fire_closed_touches; [..|exact E];
          [set_solver..|].
        intros x [Hx _]. unfold of_types. rewrite Hx. by left.
    + injection E as <- <-.
      eapply touches_weaken, started_touches; set_solver.
Qed.

(** ** The block of an item *)

Lemma filter_none {A} (P : A → Prop) `{∀ x, Decision (P x)} (l : list A) :
  Forall (λ x, ¬ P x) l → filter P l = [].
Proof.
  induction 1 as [|x l Hx _ IH]; [done|]. by rewrite filter_cons_False.
Qed.

Section Decides.
Variables (now : Z) (cfg : IC.t) (ty : string) (dwell_met : Q → bool)
          (ck : option string) (mine : Alert → bool).

Let since (tr : Tr.t) : Z :=
  match ck with
  | Some k => default now (Tr.condition_starts tr !! k)
  | None => now
  end.

Lemma fire_closed_decides aty msg o1 o2 tr a tr' :
  fire_closed now cfg ty aty msg o1 o2 tr = (a, tr') →
  (∀ x, of_message aty msg x → mine x = true) →
  dwell_met (total_seconds (now - since tr)) = true →
  (∀ k, ck = Some k → Tr.condition_starts tr !! k = Some (since tr)) →
  decides now cfg ty dwell_met ck mine tr a tr'.
Proof.
  unfold fire_closed, decides. fold (since tr). intros E Hmine -> Hrec.
  cbn [andb].
  destruct (within_cooldown _ _ _); [|destruct (IC.enabled cfg) eqn:Hen];
    injection E as <- <-; cbn [negb andb].
  - split; [|split; [|split]]; [done|done|done|constructor].
  - split; [|split; [|split]]; [apply lookup_insert_eq|done|..].
    all: rewrite filter_cons_True by (apply Hmine; by split); cbn.
    + done.
    + by repeat constructor.
  - split; [|split; [|split]];
      [apply lookup_insert_eq|done|done|constructor].
Qed.

Lemma idle_decides tr :
  dwell_met (total_seconds (now - since tr)) = false →
  (∀ k, ck = Some k → Tr.condition_starts tr !! k = Some (since tr)) →
  decides now cfg ty dwell_met ck mine tr [] tr.
Proof.
  unfold decides. fold (since tr). intros -> Hrec.
  split; [|split; [|split]]; [done|done|done|constructor].
Qed.

Lemma decides_before ks ps (P : Alert → Prop) tr0 a0 tr a tr' :
  touches ks ps P tr0 a0 tr →
  (∀ k, ck = Some k → k ∉ ks) →
  Forall (λ p, String.prefix p (ledger_key ty cfg) = false) ps →
  (∀ x, P x → mine x = false) →
  decides now cfg ty dwell_met ck mine tr a tr' →
  decides now cfg ty dwell_met ck mine tr0 (a0 ++ a) tr'.
Proof.
  intros (H1 & H2 & H3) Hk Hp HP. unfold decides.
  rewrite (H2 _ Hp).
  replace (match ck with Some k => default now (Tr.condition_starts tr !! k)
                       | None => now end) with (since tr0).
  2:{ unfold since. destruct ck as [k|]; [|done]. by rewrite H1 by by apply Hk. }
  rewrite filter_app.
  replace (filter (λ x, mine x = true) a0) with (@nil Alert); [done|].
  symmetry. apply filter_none. rewrite Forall_forall in *.
  intros x Hx. rewrite (HP x (H3 x Hx)). done.
Qed.

Lemma decides_after ks ps (P : Alert → Prop) tr a tr1 b tr2 :
  decides now cfg ty dwell_met ck mine tr a tr1 →
  touches ks ps P tr1 b tr2 →
  (∀ k, ck = Some k → k ∉ ks) →
  Forall (λ p, String.prefix p (ledger_key ty cfg) = false) ps →
  (∀ x, P x → mine x = false) →
  decides now cfg ty dwell_met ck mine tr (a ++ b) tr2.
Proof.
  unfold decides. fold (since tr).
  intros (D1 & D2 & D3 & D4) (H1 & H2 & H3) Hk Hp HP.
  rewrite (H2 _ Hp), filter_app.
  replace (filter (λ x, mine x = true) b) with (@nil Alert).
  2:{ symmetry. apply filter_none. rewrite Forall_forall in *.
      intros x Hx. rewrite (HP x (H3 x Hx)). done. }
  rewrite app_nil_r. split; [|split; [|split]]; try done.
  intros k ->. rewrite H1 by by apply Hk. by apply D2.
Qed.
End Decides.

Lemma decides_started now cfg ty dwell_met k mine tr a tr' :
  decides now cfg ty dwell_met (Some k) mine (started now k tr) a tr' →
  decides now cfg ty dwell_met (Some k) mine tr a tr'.
Proof.
  unfold decides. rewrite started_fired, started_lookup, decide_True by done.
  done.
Qed.

Lemma started_recorded now k tr :
  Tr.condition_starts (started now k tr) !! k =
  Some (default now (Tr.condition_starts (started now k tr) !! k)).
Proof. by rewrite started_lookup, decide_True. Qed.

Lemma tier_closed_decides now cfg ck ty aty dwell msg o1 o2 mine tr a tr' :
  tier_closed now cfg ck ty aty dwell msg o1 o2 Active tr = (a, tr') →
  (∀ d x, of_message aty (msg d) x → mine x = true) →
  decides now cfg ty dwell (Some ck) mine tr a tr'.
Proof.
  cbn [tier_closed]. cbv zeta. intros E Hmine. apply decides_started.
  rewrite duration_of_started in E.
  destruct (dwell _) eqn:Hd.
  - eapply fire_closed_decides; [exact E|apply Hmine|..].
    + by rewrite started_lookup, decide_True.
    + intros ? [= <-]. apply started_recorded.
  - injection E as <- <-. apply idle_decides.
    + by rewrite started_lookup, decide_True.
    + intros ? [= <-]. apply started_recorded.
Qed.

Lemma fire_closed_nil now cfg ty aty msg o1 o2 tr a tr' :
  fire_closed now cfg ty aty msg o1 o2 tr = (a, tr') →
  not_ a = within_cooldown now (IC.resend_interval_seconds cfg)
             (Tr.fired_alerts tr !! ledger_key ty cfg)
           || negb (IC.enabled cfg).
Proof.
  unfold fire_closed. intros E.
  destruct (within_cooldown _ _ _); [|destruct (IC.enabled cfg)];
    by injection E as <- <-.
Qed.

(** ** What each evaluator touches *)

Ltac touches_tier E :=
  eapply touches_weaken; [| |
    | first [ eapply tier_closed_touches, E | eapply fire_closed_touches, E ] ];
  [ set_solver | set_solver
  | first [ intros ? [Hx _]; unfold of_types; rewrite Hx; set_solver
          | unfold of_types; set_solver ] ].

Lemma disconnect_closed_touches config now conn ton tr a tr' :
  disconnect_closed config now conn ton tr = (a, tr') →
  touches ["disconnect"] ["disconnect"] (of_types [DISCONNECT]) tr a tr'.
Proof. apply tier_closed_touches. Qed.

Lemma spo2_closed_touches config now r ton tr a tr' :
  spo2_closed config now r ton tr = (a, tr') →
  touches ["spo2_critical_on"; "spo2_critical_off"; "spo2_warning"]
    ["spo2_critical_on"; "spo2_critical_off"; "spo2_warning"]
    (of_types [SPO2_CRITICAL; SPO2_WARNING]) tr a tr'.
Proof.
  unfold spo2_closed. cbv zeta.
  destruct (tier_closed _ _ _ _ SPO2_CRITICAL _ _ _ _ _ _) as [a1 tr1] eqn:E1.
  destruct (tier_closed _ _ _ _ SPO2_WARNING _ _ _ _ _ _) as [a2 tr2] eqn:E2.
  intros [= <- <-]. eapply touches_trans.
  - destruct ton; touches_tier E1.
  - touches_tier E2.
Qed.

Lemma hr_closed_touches config now r ton tr a tr' :
  hr_closed config now r ton tr = (a, tr') →
  touches ["hr_high"; "hr_low"] ["hr_high"; "hr_low"]
    (of_types [HR_HIGH; HR_LOW]) tr a tr'.
Proof.
  unfold hr_closed. cbv zeta.
  destruct (tier_closed _ _ _ _ HR_HIGH _ _ _ _ _ _) as [a1 tr1] eqn:E1.
  destruct (tier_closed _ _ _ _ HR_LOW _ _ _ _ _ _) as [a2 tr2] eqn:E2.
  intros [= <- <-]. eapply touches_trans.
  - touches_tier E1.
  - touches_tier E2.
Qed.

Lemma battery_closed_touches config now r ton self a self' :
  battery_closed config now r ton self = (a, self') →
  touches [] ["battery_critical"; "battery_warning"]
    (of_types [BATTERY_CRITICAL; BATTERY_WARNING])
    (Ev.tracker self) a (Ev.tracker self').
Proof.
  unfold battery_closed. cbv zeta.
  case_bool_decide.
  { intros [= <- <-]. eapply touches_weaken, touches_nil; set_solver. }
  destruct (_ && _).
  - destruct (fire_closed _ _ _ _ _ _ _ _) as [a1 tr1] eqn:E1.
    intros [= <- <-]. cbn. touches_tier E1.
  - destruct (_ && _).
    + destruct (fire_closed _ _ _ _ _ _ _ _) as [a1 tr1] eqn:E1.
      intros [= <- <-]. cbn. touches_tier E1.
    + intros [= <- <-]. eapply touches_weaken, touches_nil; set_solver.
Qed.

Lemma no_therapy_closed_touches config now st tr a tr' :
  no_therapy_closed config now st tr = (a, tr') →
  touches ["no_therapy"] ["no_therapy_info"; "no_therapy_high"]
    (of_types [NO_THERAPY_AT_NIGHT]) tr a tr'.
Proof.
  unfold no_therapy_closed. cbv zeta.
  destruct (_ && _).
  - set (tr1 := started now "no_therapy" tr).
    assert (touches ["no_therapy"] ["no_therapy_info"; "no_therapy_high"]
              (of_types [NO_THERAPY_AT_NIGHT]) tr [] tr1) as H0.
    { eapply touches_weaken, started_touches; set_solver. }
    destruct (reached _ _).
    + destruct (fire_closed _ _ "no_therapy_high" _ _ _ _ _) as [a1 tr2] eqn:E1.
      assert (touches ["no_therapy"] ["no_therapy_info"; "no_therapy_high"]
                (of_types [NO_THERAPY_AT_NIGHT]) tr a1 tr2) as H1.
      { change a1 with ([] ++ a1). eapply touches_trans; [exact H0|].
        touches_tier E1. }
      destruct (_ && _).
      * destruct (fire_closed _ _ "no_therapy_info" _ _ _ _ _) as [a2 tr3] eqn:E2.
        intros [= <- <-]. eapply touches_trans; [exact H1|]. touches_tier E2.
      * intros [= <- <-]. by rewrite app_nil_r.
    + cbn [not_ andb]. destruct (reached _ _).
      * destruct (fire_closed _ _ "no_therapy_info" _ _ _ _ _) as [a2 tr3] eqn:E2.
        intros [= <- <-]. cbn [app]. change a2 with ([] ++ a2).
        eapply touches_trans; [exact H0|]. touches_tier E2.
      * by intros [= <- <-].
  - intros [= <- <-].
    change (@nil Alert) with (@nil Alert ++ ([] ++ [])).
    eapply touches_trans; [|eapply touches_trans].
    + eapply touches_weaken, reset_to_touches; set_solver.
    + eapply touches_weaken, (cleared_touches _ "no_therapy_info"); set_solver.
    + eapply touches_weaken, (cleared_touches _ "no_therapy_high"); set_solver.
Qed.

Lemma vitals_closed_vitals config c self :
  vitals_closed config c self =
  match vitals c with
  | Some r =>
      let '(a1, tr1) := spo2_closed config (now c) r (therapy_on c) (Ev.tracker self) in
      let '(a2, tr2) := hr_closed config (now c) r (therapy_on c) tr1 in
      let '(a3, self3) :=
        battery_closed config (now c) r (therapy_on c) (with_tracker tr2 self) in
      ((a1 ++ a2) ++ a3, self3)
  | None => ([], self)
  end.
Proof.
  unfold vitals_closed, vitals.
  destruct (reading c) as [r|]; [|done]. by destruct (_ && _).
Qed.

Lemma vitals_closed_touches config c self a self' :
  vitals_closed config c self = (a, self') →
  touches vitals_keys vitals_prefixes (of_types vitals_types)
    (Ev.tracker self) a (Ev.tracker self').
Proof.
  rewrite vitals_closed_vitals. destruct (vitals c) as [r|].
  - destruct (spo2_closed _ _ _ _ _) as [a1 tr1] eqn:E1.
    destruct (hr_closed _ _ _ _ _) as [a2 tr2] eqn:E2.
    destruct (battery_closed _ _ _ _ _) as [a3 self3] eqn:E3.
    intros [= <- <-].
    apply spo2_closed_touches in E1. apply hr_closed_touches in E2.
    apply battery_closed_touches in E3. cbn in E3.
    eapply touches_trans; [eapply touches_trans|].
    + eapply touches_weaken, E1; unfold of_types; set_solver.
    + eapply touches_weaken, E2; unfold of_types; set_solver.
    + eapply touches_weaken, E3; unfold of_types; set_solver.
  - intros [= <- <-]. eapply touches_weaken, touches_nil; set_solver.
Qed.

Lemma vitals_closed_battery_level config c self a self' :
  vitals_closed config c self = (a, self') → vitals c = None → self' = self.
Proof. rewrite vitals_closed_vitals. intros E Hv. rewrite Hv in E. by injection E. Qed.

(** ** The evaluators on their own items *)

Ltac solve_mine :=
  let Ht := fresh in let Hm := fresh in
  intros; match goal with H : of_message _ _ _ |- _ => destruct H as [Ht Hm] end;
  unfold is_alert_of; rewrite Ht, ?Hm; reflexivity.

Ltac solve_not_mine :=
  let x := fresh in let Hx := fresh in let Heq := fresh in
  intros x Hx; unfold is_alert_of;
  first
    [ apply andb_false_iff; left; apply bool_decide_eq_false; intros Heq;
      unfold of_types in Hx; rewrite Heq in Hx; cbn in Hx; set_solver
    | destruct Hx as [Heq Hx]; rewrite Heq, ?Hx; reflexivity ].

Ltac solve_keys :=
  let k := fresh in let H := fresh in
  intros k H; first [discriminate H | injection H as <-; set_solver].

Ltac solve_prefixes := repeat constructor.

Lemma decides_due_at now cfg ty dwell ck mine tr a tr' :
  decides now cfg ty dwell ck mine tr a tr' →
  Tr.fired_alerts tr' !! ledger_key ty cfg =
    (if due_at now cfg ty dwell ck tr then Some now
     else Tr.fired_alerts tr !! ledger_key ty cfg)
  ∧ length (filter (λ x, mine x = true) a) =
    (if due_at now cfg ty dwell ck tr && IC.enabled cfg then 1 else 0)%nat.
Proof. intros (H1 & _ & H3 & _). by split. Qed.

Lemma tier_closed_not_ now cfg ck ty aty dwell msg o1 o2 ev tr a tr' :
  tier_closed now cfg ck ty aty dwell msg o1 o2 ev tr = (a, tr') →
  not_ a = negb (bool_decide (ev = Active)
                 && due_at now cfg ty dwell (Some ck) tr && IC.enabled cfg).
Proof.
  unfold tier_closed, due_at. intros E. destruct ev; try by injection E as <- <-.
  rewrite duration_of_started in E. cbn [bool_decide decide_rel andb].
  rewrite bool_decide_eq_true_2 by done. cbn [andb].
  destruct (dwell _); [|by injection E as <- <-].
  apply fire_closed_nil in E. rewrite started_fired in E. rewrite E.
  cbn [andb]. by destruct (within_cooldown _ _ _), (IC.enabled cfg).
Qed.

Section Own.
Variable config : AlertsConfig.t.
Implicit Types (tr : Tr.t) (a : list Alert).

Local Abbreviation decides_item now i :=
  (decides now (item_cfg config i) (item_type i) (item_dwell_met config i)
     (condition_key <$> item_condition i) (is_alert_of i)).

Lemma disconnect_decides now ton tr a tr' :
  disconnect_closed config now false ton tr = (a, tr') →
  Ev._should_bypass (disconnect config) ton = false →
  decides_item now Disconnect tr a tr'.
Proof.
  unfold disconnect_closed. intros E Hb. rewrite Hb in E. cbn [negb] in E.
  eapply tier_closed_decides; [exact E|solve_mine].
Qed.

Lemma hr_high_decides now r ton tr a tr' :
  hr_closed config now r ton tr = (a, tr') →
  Ev._should_bypass (hr_high config) ton = false →
  num_lt (IC.threshold (hr_high config)) (of_int (heart_rate r)) = true →
  decides_item now HrHigh tr a tr'.
Proof.
  unfold hr_closed. cbv zeta. intros E Hb Hc. rewrite Hb, Hc in E.
  cbn [observe] in E.
  destruct (tier_closed _ _ _ _ HR_HIGH _ _ _ _ _ _) as [a1 tr1] eqn:E1.
  destruct (tier_closed _ _ _ _ HR_LOW _ _ _ _ _ _) as [a2 tr2] eqn:E2.
  injection E as <- <-.
  eapply decides_after;
    [eapply tier_closed_decides; [exact E1|solve_mine]
    |eapply tier_closed_touches, E2
    |solve_keys|solve_prefixes|solve_not_mine].
Qed.

Lemma hr_low_decides now r ton tr a tr' :
  hr_closed config now r ton tr = (a, tr') →
  Ev._should_bypass (hr_low config) ton = false →
  num_lt (of_int (heart_rate r)) (IC.threshold (hr_low config)) = true →
  decides_item now HrLow tr a tr'.
Proof.
  unfold hr_closed. cbv zeta. intros E Hb Hc. rewrite Hb, Hc in E.
  cbn [observe] in E.
  destruct (tier_closed _ _ _ _ HR_HIGH _ _ _ _ _ _) as [a1 tr1] eqn:E1.
  destruct (tier_closed _ _ _ _ HR_LOW _ _ _ _ _ _) as [a2 tr2] eqn:E2.
  injection E as <- <-.
  eapply decides_before;
    [eapply tier_closed_touches, E1
    |solve_keys|solve_prefixes|solve_not_mine
    |eapply tier_closed_decides; [exact E2|solve_mine]].
Qed.

Lemma spo2_critical_on_decides now r tr a tr' :
  spo2_closed config now r true tr = (a, tr') →
  num_lt (of_int (spo2 r)) (IC.threshold (spo2_critical_on_therapy config)) = true →
  decides_item now Spo2CriticalOn tr a tr'.
Proof.
  unfold spo2_closed. cbv zeta. intros E Hc. rewrite Hc in E.
  cbn [observe] in E.
  destruct (tier_closed _ _ _ _ SPO2_CRITICAL _ _ _ _ _ _) as [a1 tr1] eqn:E1.
  destruct (tier_closed _ _ _ _ SPO2_WARNING _ _ _ _ _ _) as [a2 tr2] eqn:E2.
  injection E as <- <-.
  eapply decides_after;
    [eapply tier_closed_decides; [exact E1|solve_mine]
    |eapply tier_closed_touches, E2
    |solve_keys|solve_prefixes|solve_not_mine].
Qed.

Lemma spo2_critical_off_decides now r tr a tr' :
  spo2_closed config now r false tr = (a, tr') →
  num_lt (of_int (spo2 r)) (IC.threshold (spo2_critical_off_therapy config)) = true →
  decides_item now Spo2CriticalOff tr a tr'.
Proof.
  unfold spo2_closed. cbv zeta. intros E Hc. rewrite Hc in E.
  cbn [observe] in E.
  destruct (tier_closed _ _ _ _ SPO2_CRITICAL _ _ _ _ _ _) as [a1 tr1] eqn:E1.
  destruct (tier_closed _ _ _ _ SPO2_WARNING _ _ _ _ _ _) as [a2 tr2] eqn:E2.
  injection E as <- <-.
  eapply decides_after;
    [eapply tier_closed_decides; [exact E1|solve_mine]
    |eapply tier_closed_touches, E2
    |solve_keys|solve_prefixes|solve_not_mine].
Qed.

Lemma spo2_warning_decides now r ton tr a tr' :
  spo2_closed config now r ton tr = (a, tr') →
  (let i := spo2_critical_item ton in
   num_lt (of_int (spo2 r)) (IC.threshold (item_cfg config i))
   && due_at now (item_cfg config i) (item_type i) (item_dwell_met config i)
        (condition_key <$> item_condition i) tr
   && IC.enabled (item_cfg config i)) = false →
  Ev._should_bypass (spo2_warning config) ton = false →
  num_lt (of_int (spo2 r)) (IC.threshold (spo2_warning config)) = true →
  decides_item now Spo2Warning tr a tr'.
Proof.
  unfold spo2_closed. cbv zeta. intros E Hcrit Hb Hc. rewrite Hb, Hc in E.
  destruct (tier_closed _ _ _ _ SPO2_CRITICAL _ _ _ _ _ _) as [a1 tr1] eqn:E1.
  assert (not_ a1 = true) as Hnil.
  { rewrite (tier_closed_not_ _ _ _ _ _ _ _ _ _ _ _ _ _ E1).
    apply negb_true_iff.
    destruct ton; cbn [spo2_critical_item item_cfg item_type item_condition
                        fmap option_fmap option_map condition_key] in Hcrit;
      unfold observe; destruct (num_lt _ _); cbn [andb] in Hcrit |- *;
      first [exact Hcrit | reflexivity]. }
  rewrite Hnil in E. cbn [negb orb observe] in E.
  destruct (tier_closed _ _ _ _ SPO2_WARNING _ _ _ _ _ _) as [a2 tr2] eqn:E2.
  injection E as <- <-.
  eapply decides_before;
    [eapply tier_closed_touches, E1
    |destruct ton; solve_keys|destruct ton; solve_prefixes|solve_not_mine
    |eapply tier_closed_decides; [exact E2|solve_mine]].
Qed.

Lemma battery_critical_decides now r ton self a self' :
  battery_closed config now r ton self = (a, self') →
  bool_decide (Ev._last_battery_level self = Some (battery_level r)) = false →
  negb (Ev._should_bypass (battery_critical config) ton)
  && num_le (of_int (battery_level r)) (IC.threshold (battery_critical config))
  = true →
  decides_item now BatteryCritical (Ev.tracker self) a (Ev.tracker self').
Proof.
  unfold battery_closed. cbv zeta. intros E Hl Hc. rewrite Hl, Hc in E.
  destruct (fire_closed _ _ _ _ _ _ _ _) as [a1 tr1] eqn:E1.
  injection E as <- <-. cbn [Ev.tracker].
  eapply fire_closed_decides; [exact E1|solve_mine|done|done].
Qed.

Lemma battery_warning_decides now r ton self a self' :
  battery_closed config now r ton self = (a, self') →
  bool_decide (Ev._last_battery_level self = Some (battery_level r)) = false →
  negb (Ev._should_bypass (battery_critical config) ton)
  && num_le (of_int (battery_level r)) (IC.threshold (battery_critical config))
  = false →
  negb (Ev._should_bypass (battery_warning config) ton)
  && num_le (of_int (battery_level r)) (IC.threshold (battery_warning config))
  = true →
  decides_item now BatteryWarning (Ev.tracker self) a (Ev.tracker self').
Proof.
  unfold battery_closed. cbv zeta. intros E Hl Hc Hw. rewrite Hl, Hc, Hw in E.
  destruct (fire_closed _ _ _ _ _ _ _ _) as [a1 tr1] eqn:E1.
  injection E as <- <-. cbn [Ev.tracker].
  eapply fire_closed_decides; [exact E1|solve_mine|done|done].
Qed.

Lemma battery_closed_unchanged now r ton self :
  Ev._last_battery_level self = Some (battery_level r) →
  battery_closed config now r ton self = ([], self).
Proof. unfold battery_closed. intros H. by rewrite bool_decide_eq_true_2. Qed.

Lemma no_therapy_high_decides now st tr a tr' :
  no_therapy_closed config now st tr = (a, tr') →
  in_sleep_hours config now && bool_decide (st = OFF) = true →
  decides_item now NoTherapyHigh tr a tr'.
Proof.
  unfold no_therapy_closed. cbv zeta. intros E Hon. rewrite Hon in E.
  rewrite duration_of_started in E.
  apply decides_started. cbn [fmap option_fmap option_map item_condition condition_key].
  set (tr1 := started now "no_therapy" tr) in *.
  assert (default now (Tr.condition_starts tr1 !! "no_therapy")
          = default now (Tr.condition_starts tr !! "no_therapy")) as Hs.
  { unfold tr1. by rewrite started_lookup, decide_True. }
  assert (∀ k, Some "no_therapy" = Some k →
               Tr.condition_starts tr1 !! k =
               Some (default now (Tr.condition_starts tr1 !! "no_therapy"))) as Hrec.
  { intros ? [= <-]. apply started_recorded. }
  destruct (reached _ _) eqn:Hd.
  - destruct (fire_closed _ _ "no_therapy_high" _ _ _ _ _) as [a1 tr2] eqn:E1.
    assert (decides now (no_therapy_at_night_high config) "no_therapy_high"
              (item_dwell_met config NoTherapyHigh) (Some "no_therapy")
              (is_alert_of NoTherapyHigh) tr1 a1 tr2) as D.
    { eapply fire_closed_decides; [exact E1|solve_mine| |exact Hrec].
      cbn [item_dwell_met item_cfg]. by rewrite Hs. }
    destruct (_ && _).
    + destruct (fire_closed _ _ "no_therapy_info" _ _ _ _ _) as [a2 tr3] eqn:E2.
      injection E as <- <-.
      eapply decides_after;
        [exact D|eapply fire_closed_touches, E2
        |solve_keys|solve_prefixes|solve_not_mine].
    + injection E as <- <-. by rewrite app_nil_r.
  - assert (decides now (no_therapy_at_night_high config) "no_therapy_high"
              (item_dwell_met config NoTherapyHigh) (Some "no_therapy")
              (is_alert_of NoTherapyHigh) tr1 [] tr1) as D.
    { eapply idle_decides; [|exact Hrec].
      cbn [item_dwell_met item_cfg]. by rewrite Hs. }
    cbn [not_ andb] in E.
    destruct (reached (IC.threshold (no_therapy_at_night_info config)) _).
    + destruct (fire_closed _ _ "no_therapy_info" _ _ _ _ _) as [a2 tr3] eqn:E2.
      injection E as <- <-. change a2 with ([] ++ a2).
      eapply decides_after;
        [exact D|eapply fire_closed_touches, E2
        |solve_keys|solve_prefixes|solve_not_mine].
    + by injection E as <- <-.
Qed.

Lemma no_therapy_info_decides now st tr a tr' :
  no_therapy_closed config now st tr = (a, tr') →
  in_sleep_hours config now && bool_decide (st = OFF) = true →
  due_at now (no_therapy_at_night_high config) "no_therapy_high"
    (item_dwell_met config NoTherapyHigh) (Some "no_therapy") tr
  && IC.enabled (no_therapy_at_night_high config) = false →
  decides_item now NoTherapyInfo tr a tr'.
Proof.
  unfold no_therapy_closed. cbv zeta. intros E Hon Hhigh. rewrite Hon in E.
  rewrite duration_of_started in E.
  apply decides_started. cbn [fmap option_fmap option_map item_condition condition_key].
  set (tr1 := started now "no_therapy" tr) in *.
  assert (default now (Tr.condition_starts tr1 !! "no_therapy")
          = default now (Tr.condition_starts tr !! "no_therapy")) as Hs.
  { unfold tr1. by rewrite started_lookup, decide_True. }
  assert (∀ tr2 k, Tr.condition_starts tr2 = Tr.condition_starts tr1 →
               Some "no_therapy" = Some k →
               Tr.condition_starts tr2 !! k =
               Some (default now (Tr.condition_starts tr2 !! "no_therapy"))) as Hrec.
  { intros ? ? -> [= <-]. apply started_recorded. }
  (* the high tier returns no alert and leaves the start alone *)
  destruct (if reached _ _ then fire_closed _ _ "no_therapy_high" _ _ _ _ _
            else _) as [a1 tr2] eqn:E1.
  assert (touches [] ["no_therapy_high"]
            (of_message NO_THERAPY_AT_NIGHT
               (Message.no_therapy_high
                  (truediv
                     (total_seconds
                        (now - default now (Tr.condition_starts tr !! "no_therapy")))
                     60)))
            tr1 a1 tr2 ∧ not_ a1 = true
          ∧ Tr.condition_starts tr2 = Tr.condition_starts tr1) as (T1 & Hnil & Hcs).
  { unfold due_at in Hhigh. cbn [item_dwell_met item_cfg] in Hhigh.
    destruct (reached _ _) eqn:Hd.
    - split; [eapply fire_closed_touches, E1|].
      split; [|unfold fire_closed in E1;
               destruct (within_cooldown _ _ _); by injection E1 as <- <-].
      rewrite (fire_closed_nil _ _ _ _ _ _ _ _ _ _ E1).
      unfold tr1. rewrite started_fired. cbn [andb] in Hhigh.
      destruct (within_cooldown _ _ _); [done|]. cbn in Hhigh |- *.
      by rewrite Hhigh.
    - injection E1 as <- <-.
      split; [eapply touches_weaken, touches_nil; set_solver|done]. }
  rewrite Hnil in E. cbn [andb] in E.
  destruct (reached (IC.threshold (no_therapy_at_night_info config)) _) eqn:Hd.
  - destruct (fire_closed _ _ "no_therapy_info" _ _ _ _ _) as [a2 tr3] eqn:E2.
    injection E as <- <-.
    eapply decides_before;
      [exact T1|solve_keys|solve_prefixes|solve_not_mine|].
    eapply fire_closed_decides; [exact E2|solve_mine| |intros k; by apply Hrec].
    cbn [item_dwell_met item_cfg]. by rewrite Hcs, Hs.
  - injection E as <- <-.
    eapply decides_before;
      [exact T1|solve_keys|solve_prefixes|solve_not_mine|].
    eapply idle_decides; [|intros k; by apply Hrec].
    cbn [item_dwell_met item_cfg]. by rewrite Hcs, Hs.
Qed.
End Own.

(** ** A cycle on an item that is active *)

Lemma observe_Active b c : observe b c = Active → b = false ∧ c = true.
Proof. unfold observe. by destruct b, c. Qed.

Lemma item_due_due_at config i now self :
  item_due config i now self =
  due_at now (item_cfg config i) (item_type i) (item_dwell_met config i)
    (condition_key <$> item_condition i) (Ev.tracker self).
Proof. unfold item_due, due_at, item_since. by destruct (item_condition i). Qed.

Lemma due_at_frame ks ps (P : Alert → Prop) tr a tr' now cfg ty dwell ck :
  touches ks ps P tr a tr' →
  (∀ k, ck = Some k → k ∉ ks) →
  Forall (λ p, String.prefix p (ledger_key ty cfg) = false) ps →
  due_at now cfg ty dwell ck tr' = due_at now cfg ty dwell ck tr.
Proof.
  intros (H1 & H2 & _) Hk Hp. unfold due_at. rewrite (H2 _ Hp).
  destruct ck as [k|]; [|done]. by rewrite H1 by by apply Hk.
Qed.

Section Cycle.
Variable config : AlertsConfig.t.

Local Abbreviation decides_item now i :=
  (decides now (item_cfg config i) (item_type i) (item_dwell_met config i)
     (condition_key <$> item_condition i) (is_alert_of i)).

Ltac frame_before T :=
  eapply decides_before; [exact T|solve_keys|solve_prefixes|solve_not_mine|].
Ltac frame_after T :=
  eapply decides_after; [|exact T|solve_keys|solve_prefixes|solve_not_mine].

Lemma vitals_closed_decides i c self a self' :
  vitals_closed config c self = (a, self') →
  item_condition i ≠ Some CondDisconnect →
  item_condition i ≠ Some CondNoTherapy →
  item_active config i c self = true →
  decides_item (now c) i (Ev.tracker self) a (Ev.tracker self').
Proof.
  rewrite vitals_closed_vitals. intros E Hd Hn Hact.
  destruct i; try done; cbn [item_active condition_event] in Hact;
    unfold spo2_critical_emits in Hact;
    destruct (vitals c) as [r|]; try done;
    destruct (spo2_closed _ _ _ _ _) as [a1 tr1] eqn:E1;
    destruct (hr_closed _ _ _ _ _) as [a2 tr2] eqn:E2;
    destruct (battery_closed _ _ _ _ _) as [a3 self3] eqn:E3;
    injection E as <- <-;
    pose proof (spo2_closed_touches _ _ _ _ _ _ _ E1) as T1;
    pose proof (hr_closed_touches _ _ _ _ _ _ _ E2) as T2;
    pose proof (battery_closed_touches _ _ _ _ _ _ _ E3) as T3;
    cbn [Ev.tracker with_tracker] in T3.
  - (* SpO2 critical, on therapy *)
    destruct (therapy_on c); [|done].
    apply bool_decide_eq_true, observe_Active in Hact as [_ Hc].
    frame_after T3. frame_after T2. by eapply spo2_critical_on_decides.
  - (* SpO2 critical, off therapy *)
    destruct (therapy_on c); [done|].
    apply bool_decide_eq_true, observe_Active in Hact as [_ Hc].
    frame_after T3. frame_after T2. by eapply spo2_critical_off_decides.
  - (* SpO2 warning *)
    apply bool_decide_eq_true, observe_Active in Hact as [Hb Hc].
    apply orb_false_iff in Hb as [Hcrit Hb].
    frame_after T3. frame_after T2.
    eapply spo2_warning_decides; [exact E1| |exact Hb|exact Hc].
    cbv zeta. unfold spo2_critical_item. rewrite <- item_due_due_at.
    exact Hcrit.
  - (* HR high *)
    apply bool_decide_eq_true, observe_Active in Hact as [Hb Hc].
    frame_after T3. frame_before T1. by eapply hr_high_decides.
  - (* HR low *)
    apply bool_decide_eq_true, observe_Active in Hact as [Hb Hc].
    frame_after T3. frame_before T1. by eapply hr_low_decides.
  - (* battery critical *)
    apply andb_true_iff in Hact as [Hl Hc]. apply negb_true_iff in Hl.
    rewrite <- app_assoc. frame_before T1. frame_before T2.
    by eapply (battery_critical_decides _ _ _ _ (with_tracker tr2 self)).
  - (* battery warning *)
    apply andb_true_iff in Hact as [Hact Hw2].
    apply andb_true_iff in Hact as [Hact Hw1].
    apply andb_true_iff in Hact as [Hl Hc].
    apply negb_true_iff in Hl, Hc.
    rewrite <- app_assoc. frame_before T1. frame_before T2.
    eapply (battery_warning_decides _ _ _ _ (with_tracker tr2 self));
      [exact E3|exact Hl|exact Hc|by rewrite Hw1, Hw2].
Qed.

Lemma item_active_agree i c self s2 :
  Ev._last_battery_level s2 = Ev._last_battery_level self →
  (∀ j, j = Spo2CriticalOn ∨ j = Spo2CriticalOff ∨ j = NoTherapyHigh →
        item_due config j (now c) s2 = item_due config j (now c) self) →
  item_active config i c s2 = item_active config i c self.
Proof.
  intros Hl Hdue.
  assert (spo2_critical_emits config c s2 = spo2_critical_emits config c self)
    as Hem.
  { unfold spo2_critical_emits. destruct (vitals c); [|done].
    destruct (therapy_on c); rewrite Hdue; auto. }
  destruct i; cbn [item_active condition_event]; rewrite ?Hl, ?Hem, ?Hdue;
    auto.
Qed.

Lemma evaluate_closed_decides i c self out self' :
  evaluate_closed config c self = (out, self') →
  item_active config i c self = true →
  decides_item (now c) i (Ev.tracker self) out (Ev.tracker self').
Proof.
  unfold evaluate_closed. cbv zeta. fold (therapy_on c). intros E Hact.
  destruct (disconnect_closed _ _ _ _ _) as [a0 tr0] eqn:E0.
  destruct (vitals_closed _ _ _) as [a1 self1] eqn:E1.
  destruct (no_therapy_closed _ _ _ _) as [a2 tr2] eqn:E2.
  injection E as <- <-. cbn [Ev.tracker with_tracker].
  pose proof (disconnect_closed_touches _ _ _ _ _ _ _ E0) as T0.
  pose proof (vitals_closed_touches _ _ _ _ _ E1) as T1.
  pose proof (no_therapy_closed_touches _ _ _ _ _ _ E2) as T2.
  cbn [Ev.tracker with_tracker] in T1.
  unfold vitals_keys, vitals_prefixes, vitals_types in T1.
  assert (item_active config i c (with_tracker tr0 self) = true) as Hact1.
  { rewrite <- Hact. apply item_active_agree; [done|].
    intros j Hj. rewrite !item_due_due_at. cbn [Ev.tracker with_tracker].
    eapply due_at_frame; [exact T0|..];
      destruct Hj as [->|[->| ->]]; first [solve_keys|solve_prefixes]. }
  assert (∀ j, item_condition j ≠ Some CondDisconnect →
               item_condition j ≠ Some CondNoTherapy →
               item_active config j c (with_tracker tr0 self) = true →
               decides_item (now c) j tr0 a1 (Ev.tracker self1)) as V.
  { intros j ? ? ?. by eapply (vitals_closed_decides j c (with_tracker tr0 self)). }
  destruct i.
  1-5, 9-10: by (frame_after T2; frame_before T0; apply V).
  - (* disconnect *)
    cbn [item_active condition_event] in Hact.
    apply bool_decide_eq_true in Hact.
    destruct (Ev._should_bypass _ _) eqn:Hb; [done|].
    destruct (ble_connected c); [done|].
    frame_after T2. frame_after T1. by eapply disconnect_decides.
  - (* therapy absence, high *)
    rewrite <- app_assoc. cbn [item_active condition_event] in Hact.
    apply bool_decide_eq_true in Hact.
    destruct (_ && _) eqn:Hon; [|done].
    frame_before T0. frame_before T1. by eapply no_therapy_high_decides.
  - (* therapy absence, info *)
    rewrite <- app_assoc. cbn [item_active condition_event] in Hact.
    apply andb_true_iff in Hact as [Hact Hhigh].
    apply bool_decide_eq_true in Hact. apply negb_true_iff in Hhigh.
    destruct (_ && _) eqn:Hon; [|done].
    frame_before T0. frame_before T1.
    eapply no_therapy_info_decides; [exact E2|exact Hon|].
    assert (due_at (now c) (item_cfg config NoTherapyHigh)
              (item_type NoTherapyHigh) (item_dwell_met config NoTherapyHigh)
              (condition_key <$> item_condition NoTherapyHigh)
              (Ev.tracker self1)
            = item_due config NoTherapyHigh (now c) self) as Hdue.
    { rewrite item_due_due_at.
      etransitivity;
        (eapply due_at_frame; [eassumption|solve_keys|solve_prefixes]). }
    cbn [item_cfg item_type item_condition fmap option_fmap option_map
         condition_key] in Hdue.
    rewrite Hdue. exact Hhigh.
Qed.
End Cycle.

(** ** Conditions through a cycle *)

Lemma prefix_inv (p s : string) :
  String.prefix p s = true → ∃ rest, s = p +:+ rest.
Proof.
  revert s. induction p as [|a p IH]; intros s H; [by exists s|].
  destruct s as [|b s]; [done|]. simpl in H.
  destruct (Ascii.ascii_dec a b) as [->|]; [|done].
  destruct (IH s H) as [rest ->]. by exists rest.
Qed.

Ltac solve_apart :=
  let lk := fresh in let H := fresh in let rest := fresh in
  intros lk H; apply prefix_inv in H as [rest ->]; reflexivity.

Lemma tracks_before ks ps (P : Alert → Prop) now ck tys ev tr0 a0 tr tr' :
  touches ks ps P tr0 a0 tr → ck ∉ ks →
  tracks now ck tys ev tr tr' → tracks now ck tys ev tr0 tr'.
Proof.
  intros (H1 & _ & _) Hk [T1 T2]. split; [|done]. by rewrite <- H1.
Qed.

Lemma tracks_after ks ps (P : Alert → Prop) now ck tys ev tr tr1 b tr2 :
  tracks now ck tys ev tr tr1 → touches ks ps P tr1 b tr2 → ck ∉ ks →
  Forall (λ ty, Forall (λ p, apart p ty) ps) tys →
  tracks now ck tys ev tr tr2.
Proof.
  intros [T1 T2] (H1 & H2 & _) Hk Hap. split; [by rewrite H1|].
  intros Hev ty lk Hty Hlk. rewrite H2; [by eapply T2|].
  rewrite Forall_forall in Hap. specialize (Hap ty Hty).
  eapply Forall_impl; [exact Hap|]. intros p Hp. by apply Hp.
Qed.

Lemma tier_closed_tracks now cfg ck ty aty dwell msg o1 o2 ev tr a tr' :
  tier_closed now cfg ck ty aty dwell msg o1 o2 ev tr = (a, tr') →
  tracks now ck [ty] ev tr tr'.
Proof.
  unfold tier_closed. intros E. destruct ev.
  - injection E as <- <-. by split.
  - injection E as <- <-. split.
    + cbn. apply lookup_delete_eq.
    + intros _ ty' lk Hty Hlk. apply list_elem_of_singleton in Hty as ->.
      by rewrite cleared_lookup, Hlk.
  - split; [|done].
    assert (Tr.condition_starts tr' = Tr.condition_starts (started now ck tr))
      as ->.
    { destruct (dwell _); [|by injection E as <- <-].
      unfold fire_closed in E.
      destruct (within_cooldown _ _ _); by simplify_eq. }
    by rewrite started_lookup, decide_True.
Qed.

Lemma tier_closed_silent now cfg ck ty aty dwell msg o1 o2 ev tr a tr' :
  tier_closed now cfg ck ty aty dwell msg o1 o2 ev tr = (a, tr') →
  ev ≠ Active → a = [].
Proof.
  unfold tier_closed. intros E Hev.
  destruct ev; [by injection E as <- <-..|done].
Qed.

Lemma touches_silent ks ps (P : Alert → Prop) mine tr a tr' :
  touches ks ps P tr a tr' → (∀ x, P x → mine x = false) → silent mine a.
Proof. intros (_ & _ & H) HP. eapply Forall_impl; [exact H|done]. Qed.

Lemma silent_alerts_of i out : silent (is_alert_of i) out → alerts_of i out = [].
Proof.
  intros H. apply filter_none. eapply Forall_impl; [exact H|].
  intros x ->. done.
Qed.

Lemma touches_tracks_skip ks ps (P : Alert → Prop) now ck tys tr a tr' :
  touches ks ps P tr a tr' → ck ∉ ks → tracks now ck tys Skip tr tr'.
Proof. intros (H1 & _ & _) Hk. split; [by apply H1|done]. Qed.

Lemma touches_starts ks ps (P : Alert → Prop) tr a tr' k :
  touches ks ps P tr a tr' → k ∉ ks →
  Tr.condition_starts tr' !! k = Tr.condition_starts tr !! k.
Proof. intros (H1 & _ & _) Hk. by apply H1. Qed.

Lemma tracks_skip_trans now ck tys tr tr1 tr2 :
  tracks now ck tys Skip tr tr1 → tracks now ck tys Skip tr1 tr2 →
  tracks now ck tys Skip tr tr2.
Proof. intros [H1 _] [H2 _]. split; [by rewrite H2, H1|done]. Qed.

Ltac solve_notin := set_solver.
Ltac solve_aparts := repeat (constructor; try solve_apart).
Ltac tracks_before T := eapply tracks_before; [exact T|solve_notin|].
Ltac tracks_after T :=
  eapply tracks_after; [|exact T|solve_notin|solve_aparts].

Section CycleConditions.
Variable config : AlertsConfig.t.

Lemma spo2_warning_event now r ton tr a1 tr1 :
  tier_closed now (item_cfg config (spo2_critical_item ton))
    (item_type (spo2_critical_item ton)) (item_type (spo2_critical_item ton))
    SPO2_CRITICAL
    (reached (IC.duration_seconds (item_cfg config (spo2_critical_item ton))))
    (λ duration, Message.spo2_critical (spo2 r) duration
                   (if ton then "on therapy" else "off therapy"))
    (Some (spo2 r)) (Some (heart_rate r))
    (observe false
       (num_lt (of_int (spo2 r))
          (IC.threshold (item_cfg config (spo2_critical_item ton))))) tr
  = (a1, tr1) →
  not_ a1 = negb (spo2_critical_emits_at config now r ton tr).
Proof.
  intros E. rewrite (tier_closed_not_ _ _ _ _ _ _ _ _ _ _ _ _ _ E).
  unfold spo2_critical_emits_at. cbv zeta. f_equal.
  destruct ton; cbn [spo2_critical_item item_cfg item_type item_condition
                      fmap option_fmap option_map condition_key];
    unfold observe; by destruct (num_lt _ _).
Qed.

Lemma spo2_closed_stages now r ton tr a tr' :
  spo2_closed config now r ton tr = (a, tr') →
  ∃ a1 tr1 a2,
    a = a1 ++ a2
    ∧ tier_closed now (item_cfg config (spo2_critical_item ton))
        (item_type (spo2_critical_item ton)) (item_type (spo2_critical_item ton))
        SPO2_CRITICAL
        (reached (IC.duration_seconds (item_cfg config (spo2_critical_item ton))))
        (λ duration, Message.spo2_critical (spo2 r) duration
                       (if ton then "on therapy" else "off therapy"))
        (Some (spo2 r)) (Some (heart_rate r))
        (observe false
           (num_lt (of_int (spo2 r))
              (IC.threshold (item_cfg config (spo2_critical_item ton))))) tr
      = (a1, tr1)
    ∧ tier_closed now (spo2_warning config) "spo2_warning" "spo2_warning"
        SPO2_WARNING (reached (IC.duration_seconds (spo2_warning config)))
        (Message.spo2_warning (spo2 r)) (Some (spo2 r)) (Some (heart_rate r))
        (observe (spo2_critical_emits_at config now r ton tr
                  || Ev._should_bypass (spo2_warning config) ton)
           (num_lt (of_int (spo2 r)) (IC.threshold (spo2_warning config)))) tr1
      = (a2, tr').
Proof.
  unfold spo2_closed. cbv zeta. intros E.
  destruct (tier_closed _ _ _ _ SPO2_CRITICAL _ _ _ _ _ _) as [a1 tr1] eqn:E1.
  destruct (tier_closed _ _ _ _ SPO2_WARNING _ _ _ _ _ _) as [a2 tr2] eqn:E2.
  injection E as <- <-. exists a1, tr1, a2. split; [done|].
  assert (tier_closed now (item_cfg config (spo2_critical_item ton))
        (item_type (spo2_critical_item ton)) (item_type (spo2_critical_item ton))
        SPO2_CRITICAL
        (reached (IC.duration_seconds (item_cfg config (spo2_critical_item ton))))
        (λ duration, Message.spo2_critical (spo2 r) duration
                       (if ton then "on therapy" else "off therapy"))
        (Some (spo2 r)) (Some (heart_rate r))
        (observe false
           (num_lt (of_int (spo2 r))
              (IC.threshold (item_cfg config (spo2_critical_item ton))))) tr
      = (a1, tr1)) as E1'.
  { by destruct ton. }
  split; [exact E1'|].
  rewrite <- (negb_involutive (spo2_critical_emits_at _ _ _ _ _)).
  by rewrite <- (spo2_warning_event _ _ _ _ _ _ E1').
Qed.

Lemma spo2_closed_tracks cond now r ton tr a tr' :
  spo2_closed config now r ton tr = (a, tr') →
  cond = CondSpo2CriticalOn ∨ cond = CondSpo2CriticalOff ∨ cond = CondSpo2Warning →
  tracks now (condition_key cond) (condition_types cond)
    (vitals_event config cond now r ton tr) tr tr'.
Proof.
  intros E Hcond. apply spo2_closed_stages in E as (a1 & tr1 & a2 & -> & E1 & E2).
  pose proof (tier_closed_touches _ _ _ _ _ _ _ _ _ _ _ _ _ E1) as T1.
  pose proof (tier_closed_touches _ _ _ _ _ _ _ _ _ _ _ _ _ E2) as T2.
  pose proof (tier_closed_tracks _ _ _ _ _ _ _ _ _ _ _ _ _ E1) as K1.
  pose proof (tier_closed_tracks _ _ _ _ _ _ _ _ _ _ _ _ _ E2) as K2.
  destruct Hcond as [->|[->| ->]]; cbn [vitals_event condition_key condition_types].
  - destruct ton; cbn [spo2_critical_item item_type item_cfg] in *.
    + tracks_after T2. exact K1.
    + eapply tracks_skip_trans; eapply touches_tracks_skip;
        [exact T1|solve_notin|exact T2|solve_notin].
  - destruct ton; cbn [spo2_critical_item item_type item_cfg] in *.
    + eapply tracks_skip_trans; eapply touches_tracks_skip;
        [exact T1|solve_notin|exact T2|solve_notin].
    + tracks_after T2. exact K1.
  - destruct ton; cbn [spo2_critical_item item_type item_cfg] in *;
      tracks_before T1; exact K2.
Qed.

Lemma hr_closed_tracks cond now r ton tr a tr' :
  hr_closed config now r ton tr = (a, tr') →
  cond = CondHrHigh ∨ cond = CondHrLow →
  tracks now (condition_key cond) (condition_types cond)
    (vitals_event config cond now r ton tr) tr tr'.
Proof.
  unfold hr_closed. cbv zeta. intros E Hcond.
  destruct (tier_closed _ _ _ _ HR_HIGH _ _ _ _ _ _) as [a1 tr1] eqn:E1.
  destruct (tier_closed _ _ _ _ HR_LOW _ _ _ _ _ _) as [a2 tr2] eqn:E2.
  injection E as <- <-.
  pose proof (tier_closed_touches _ _ _ _ _ _ _ _ _ _ _ _ _ E1) as T1.
  pose proof (tier_closed_touches _ _ _ _ _ _ _ _ _ _ _ _ _ E2) as T2.
  pose proof (tier_closed_tracks _ _ _ _ _ _ _ _ _ _ _ _ _ E1) as K1.
  pose proof (tier_closed_tracks _ _ _ _ _ _ _ _ _ _ _ _ _ E2) as K2.
  destruct Hcond as [->| ->]; cbn [vitals_event condition_key condition_types].
  - tracks_after T2. exact K1.
  - tracks_before T1. exact K2.
Qed.

Lemma no_therapy_closed_tracks now st tr a tr' :
  no_therapy_closed config now st tr = (a, tr') →
  tracks now "no_therapy" ["no_therapy_info"; "no_therapy_high"]
    (if in_sleep_hours config now && bool_decide (st = OFF)
     then Active else Inactive) tr tr'.
Proof.
  unfold no_therapy_closed. cbv zeta. intros E.
  destruct (_ && _).
  - split; [|done].
    assert (Tr.condition_starts tr'
            = Tr.condition_starts (started now "no_therapy" tr)) as ->;
      [|by rewrite started_lookup, decide_True].
    destruct (if reached _ _ then fire_closed _ _ "no_therapy_high" _ _ _ _ _
              else _) as [a1 tr2] eqn:E1.
    destruct (if _ && _ then fire_closed _ _ "no_therapy_info" _ _ _ _ _
              else _) as [a2 tr3] eqn:E2.
    injection E as <- <-.
    assert (Tr.condition_starts tr2
            = Tr.condition_starts (started now "no_therapy" tr)) as <-.
    { destruct (reached _ _); [|by injection E1 as <- <-].
      unfold fire_closed in E1.
      destruct (within_cooldown _ _ _); by injection E1 as <- <-. }
    destruct (_ && _); [|by injection E2 as <- <-].
    unfold fire_closed in E2.
    destruct (within_cooldown _ _ _); by injection E2 as <- <-.
  - injection E as <- <-. split; [apply lookup_delete_eq|].
    intros _ ty lk Hty Hlk. rewrite !cleared_lookup.
    apply elem_of_cons in Hty as [->|Hty].
    + rewrite Hlk. by case_match.
    + apply list_elem_of_singleton in Hty as ->. by rewrite Hlk.
Qed.

Lemma vitals_closed_tracks cond c self a self' :
  vitals_closed config c self = (a, self') →
  cond ≠ CondDisconnect → cond ≠ CondNoTherapy →
  tracks (now c) (condition_key cond) (condition_types cond)
    (match vitals c with
     | Some r => vitals_event config cond (now c) r (therapy_on c) (Ev.tracker self)
     | None => Skip
     end) (Ev.tracker self) (Ev.tracker self').
Proof.
  rewrite vitals_closed_vitals. intros E Hd Hn.
  destruct (vitals c) as [r|]; [|by injection E as <- <-].
  destruct (spo2_closed _ _ _ _ _) as [a1 tr1] eqn:E1.
  destruct (hr_closed _ _ _ _ _) as [a2 tr2] eqn:E2.
  destruct (battery_closed _ _ _ _ _) as [a3 self3] eqn:E3.
  injection E as <- <-.
  pose proof (spo2_closed_touches _ _ _ _ _ _ _ E1) as T1.
  pose proof (hr_closed_touches _ _ _ _ _ _ _ E2) as T2.
  pose proof (battery_closed_touches _ _ _ _ _ _ _ E3) as T3.
  cbn [Ev.tracker with_tracker] in T3.
  destruct cond; try done.
  1-3: tracks_after T3; tracks_after T2;
       eapply (spo2_closed_tracks _ _ _ _ _ _ _ E1); auto.
  - tracks_after T3. tracks_before T1.
    exact (hr_closed_tracks CondHrHigh _ _ _ _ _ _ E2 (or_introl eq_refl)).
  - tracks_after T3. tracks_before T1.
    exact (hr_closed_tracks CondHrLow _ _ _ _ _ _ E2 (or_intror eq_refl)).
Qed.

Lemma spo2_critical_emits_emits_at c self r :
  vitals c = Some r →
  spo2_critical_emits config c self =
  spo2_critical_emits_at config (now c) r (therapy_on c) (Ev.tracker self).
Proof.
  intros Hv. unfold spo2_critical_emits, spo2_critical_emits_at.
  rewrite Hv. cbv zeta. unfold spo2_critical_item.
  by rewrite item_due_due_at.
Qed.

Lemma spo2_critical_emits_at_frame ks ps (P : Alert → Prop) tr a tr' now r ton :
  touches ks ps P tr a tr' →
  "spo2_critical_on" ∉ ks → "spo2_critical_off" ∉ ks →
  Forall (λ p, apart p "spo2_critical_on" ∧ apart p "spo2_critical_off") ps →
  spo2_critical_emits_at config now r ton tr'
  = spo2_critical_emits_at config now r ton tr.
Proof.
  intros T H1 H2 Hp. unfold spo2_critical_emits_at. cbv zeta.
  f_equal. f_equal. eapply due_at_frame; [exact T|..].
  - destruct ton; intros k [= <-]; done.
  - eapply Forall_impl; [exact Hp|]. intros p [Ha Hb].
    destruct ton; [apply Ha|apply Hb]; apply prefix_ledger_key.
Qed.

Lemma condition_event_vitals cond c self :
  cond ≠ CondDisconnect → cond ≠ CondNoTherapy →
  condition_event config cond c self =
  match vitals c with
  | Some r => vitals_event config cond (now c) r (therapy_on c) (Ev.tracker self)
  | None => Skip
  end.
Proof.
  intros Hd Hn. destruct cond; try done; cbn [condition_event vitals_event];
    destruct (vitals c) as [r|] eqn:Hv; try done.
  by rewrite (spo2_critical_emits_emits_at _ _ r).
Qed.

Lemma evaluate_closed_tracks cond c self out self' :
  evaluate_closed config c self = (out, self') →
  tracks (now c) (condition_key cond) (condition_types cond)
    (condition_event config cond c self) (Ev.tracker self) (Ev.tracker self').
Proof.
  unfold evaluate_closed. cbv zeta. fold (therapy_on c). intros E.
  destruct (disconnect_closed _ _ _ _ _) as [a0 tr0] eqn:E0.
  destruct (vitals_closed _ _ _) as [a1 self1] eqn:E1.
  destruct (no_therapy_closed _ _ _ _) as [a2 tr2] eqn:E2.
  injection E as <- <-. cbn [Ev.tracker with_tracker].
  pose proof (disconnect_closed_touches _ _ _ _ _ _ _ E0) as T0.
  pose proof (vitals_closed_touches _ _ _ _ _ E1) as T1.
  pose proof (no_therapy_closed_touches _ _ _ _ _ _ E2) as T2.
  cbn [Ev.tracker with_tracker] in T1.
  unfold vitals_keys, vitals_prefixes, vitals_types in T1.
  destruct (decide (cond = CondDisconnect)) as [->|Hd];
    [|destruct (decide (cond = CondNoTherapy)) as [->|Hn]].
  - tracks_after T2. tracks_after T1.
    exact (tier_closed_tracks _ _ _ _ _ _ _ _ _ _ _ _ _ E0).
  - tracks_before T0. tracks_before T1.
    exact (no_therapy_closed_tracks _ _ _ _ _ E2).
  - rewrite condition_event_vitals by done.
    pose proof (vitals_closed_tracks cond _ _ _ _ E1 Hd Hn) as K.
    cbn [Ev.tracker with_tracker] in K.
    assert (match vitals c with
            | Some r => vitals_event config cond (now c) r (therapy_on c) tr0
            | None => Skip
            end
            = match vitals c with
              | Some r => vitals_event config cond (now c) r (therapy_on c)
                            (Ev.tracker self)
              | None => Skip
              end) as Hev.
    { destruct (vitals c) as [r|]; [|done].
      destruct cond; try done. cbn [vitals_event].
      rewrite (spo2_critical_emits_at_frame _ _ _ _ _ _ _ _ _ T0); [done|..].
      - set_solver.
      - set_solver.
      - repeat constructor; solve_apart. }
    rewrite Hev in K.
    destruct cond; try done; (tracks_after T2; tracks_before T0; exact K).
Qed.
End CycleConditions.

(** ** Items that a cycle leaves silent *)

Lemma silent_app mine a b : silent mine a → silent mine b → silent mine (a ++ b).
Proof. apply Forall_app_2. Qed.

Lemma silent_nil mine : silent mine [].
Proof. constructor. Qed.

Lemma fire_closed_silent now cfg ty aty msg o1 o2 tr a tr' mine :
  fire_closed now cfg ty aty msg o1 o2 tr = (a, tr') →
  (∀ x, of_message aty msg x → mine x = false) → silent mine a.
Proof.
  intros E. apply touches_silent with [] [ty] tr tr'.
  by eapply fire_closed_touches.
Qed.

Section Silent.
Variable config : AlertsConfig.t.

Ltac silent_by T := eapply touches_silent; [exact T|solve_not_mine].

Lemma vitals_closed_silent i c self a self' :
  vitals_closed config c self = (a, self') →
  item_active config i c self = false →
  i = Spo2Warning ∨ i = HrHigh ∨ i = HrLow ∨ i = BatteryCritical
  ∨ i = BatteryWarning →
  silent (is_alert_of i) a.
Proof.
  rewrite vitals_closed_vitals. intros E Hact Hi.
  destruct (vitals c) as [r|] eqn:Hv; [|injection E as <- <-; constructor].
  destruct (spo2_closed _ _ _ _ _) as [a1 tr1] eqn:E1.
  destruct (hr_closed _ _ _ _ _) as [a2 tr2] eqn:E2.
  destruct (battery_closed _ _ _ _ _) as [a3 self3] eqn:E3.
  injection E as <- <-.
  pose proof (spo2_closed_touches _ _ _ _ _ _ _ E1) as T1.
  pose proof (hr_closed_touches _ _ _ _ _ _ _ E2) as T2.
  pose proof (battery_closed_touches _ _ _ _ _ _ _ E3) as T3.
  destruct Hi as [->|[->|[->|[->| ->]]]];
    cbn [item_active] in Hact; rewrite ?Hv in Hact.
  - (* SpO2 warning *)
    apply bool_decide_eq_false in Hact.
    rewrite condition_event_vitals, Hv in Hact by done.
    cbn [vitals_event] in Hact.
    apply silent_app; [apply silent_app|]; [|silent_by T2|silent_by T3].
    apply spo2_closed_stages in E1 as (b1 & tr1' & b2 & -> & F1 & F2).
    apply silent_app.
    + eapply touches_silent; [eapply tier_closed_touches, F1|solve_not_mine].
    + rewrite (tier_closed_silent _ _ _ _ _ _ _ _ _ _ _ _ _ F2 Hact).
      constructor.
  - (* HR high *)
    apply bool_decide_eq_false in Hact.
    rewrite condition_event_vitals, Hv in Hact by done.
    cbn [vitals_event] in Hact.
    apply silent_app; [apply silent_app|]; [silent_by T1| |silent_by T3].
    unfold hr_closed in E2. cbv zeta in E2.
    destruct (tier_closed _ _ _ _ HR_HIGH _ _ _ _ _ _) as [b1 tr1'] eqn:F1.
    destruct (tier_closed _ _ _ _ HR_LOW _ _ _ _ _ _) as [b2 tr2'] eqn:F2.
    injection E2 as <- <-. apply silent_app.
    + rewrite (tier_closed_silent _ _ _ _ _ _ _ _ _ _ _ _ _ F1 Hact).
      constructor.
    + eapply touches_silent; [eapply tier_closed_touches, F2|solve_not_mine].
  - (* HR low *)
    apply bool_decide_eq_false in Hact.
    rewrite condition_event_vitals, Hv in Hact by done.
    cbn [vitals_event] in Hact.
    apply silent_app; [apply silent_app|]; [silent_by T1| |silent_by T3].
    unfold hr_closed in E2. cbv zeta in E2.
    destruct (tier_closed _ _ _ _ HR_HIGH _ _ _ _ _ _) as [b1 tr1'] eqn:F1.
    destruct (tier_closed _ _ _ _ HR_LOW _ _ _ _ _ _) as [b2 tr2'] eqn:F2.
    injection E2 as <- <-. apply silent_app.
    + eapply touches_silent; [eapply tier_closed_touches, F1|solve_not_mine].
    + rewrite (tier_closed_silent _ _ _ _ _ _ _ _ _ _ _ _ _ F2 Hact).
      constructor.
  - (* battery critical *)
    apply silent_app; [apply silent_app|]; [silent_by T1|silent_by T2|].
    unfold battery_closed in E3. cbv zeta in E3.
    cbn [Ev._last_battery_level with_tracker Ev.tracker] in E3.
    unfold battery_critical_applies in Hact.
    destruct (bool_decide _); [injection E3 as <- <-; constructor|].
    cbn [negb andb] in Hact. rewrite Hact in E3.
    destruct (_ && _).
    + destruct (fire_closed _ _ _ _ _ _ _ _) as [b tr'] eqn:F.
      injection E3 as <- <-. eapply fire_closed_silent; [exact F|].
      solve_not_mine.
    + injection E3 as <- <-. constructor.
  - (* battery warning *)
    apply silent_app; [apply silent_app|]; [silent_by T1|silent_by T2|].
    unfold battery_closed in E3. cbv zeta in E3.
    cbn [Ev._last_battery_level with_tracker Ev.tracker] in E3.
    unfold battery_critical_applies in Hact.
    destruct (bool_decide _); [injection E3 as <- <-; constructor|].
    cbn [negb andb] in Hact.
    destruct (negb (Ev._should_bypass (battery_critical config) _) && _).
    + destruct (fire_closed _ _ _ _ _ _ _ _) as [b tr'] eqn:F.
      injection E3 as <- <-. eapply fire_closed_silent; [exact F|].
      solve_not_mine.
    + cbn [negb andb] in Hact. rewrite Hact in E3.
      injection E3 as <- <-. constructor.
Qed.

Lemma no_therapy_closed_off now st tr :
  in_sleep_hours config now && bool_decide (st = OFF) = false →
  no_therapy_closed config now st tr =
  ([], cleared "no_therapy_high"
         (cleared "no_therapy_info" (reset_to "no_therapy" tr))).
Proof. unfold no_therapy_closed. by intros ->. Qed.

Lemma no_therapy_closed_silent_info now st tr a tr' :
  no_therapy_closed config now st tr = (a, tr') →
  due_at now (no_therapy_at_night_high config) "no_therapy_high"
    (item_dwell_met config NoTherapyHigh) (Some "no_therapy") tr
  && IC.enabled (no_therapy_at_night_high config) = true →
  silent (is_alert_of NoTherapyInfo) a.
Proof.
  unfold no_therapy_closed. cbv zeta. intros E Hhigh.
  destruct (_ && _); [|injection E as <- <-; constructor].
  rewrite duration_of_started in E.
  unfold due_at in Hhigh. cbn [item_dwell_met item_cfg] in Hhigh.
  apply andb_true_iff in Hhigh as [Hhigh Hen].
  apply andb_true_iff in Hhigh as [Hd Hcool].
  rewrite Hd in E.
  destruct (fire_closed _ _ "no_therapy_high" _ _ _ _ _) as [a1 tr2] eqn:E1.
  pose proof (fire_closed_nil _ _ _ _ _ _ _ _ _ _ E1) as Hnil.
  rewrite started_fired, Hen in Hnil. apply negb_true_iff in Hcool.
  rewrite Hcool in Hnil. cbn in Hnil. rewrite Hnil in E. cbn [andb] in E.
  injection E as <- <-. rewrite app_nil_r.
  eapply fire_closed_silent; [exact E1|solve_not_mine].
Qed.

Lemma evaluate_closed_silent i c self out self' :
  evaluate_closed config c self = (out, self') →
  item_active config i c self = false →
  i ≠ Spo2CriticalOn → i ≠ Spo2CriticalOff →
  silent (is_alert_of i) out.
Proof.
  unfold evaluate_closed. cbv zeta. fold (therapy_on c). intros E Hact H1 H2.
  destruct (disconnect_closed _ _ _ _ _) as [a0 tr0] eqn:E0.
  destruct (vitals_closed _ _ _) as [a1 self1] eqn:E1.
  destruct (no_therapy_closed _ _ _ _) as [a2 tr2] eqn:E2.
  injection E as <- <-.
  pose proof (disconnect_closed_touches _ _ _ _ _ _ _ E0) as T0.
  pose proof (vitals_closed_touches _ _ _ _ _ E1) as T1.
  pose proof (no_therapy_closed_touches _ _ _ _ _ _ E2) as T2.
  cbn [Ev.tracker with_tracker] in T1.
  unfold vitals_keys, vitals_prefixes, vitals_types in T1.
  assert (item_active config i c (with_tracker tr0 self) = false) as Hact1.
  { rewrite <- Hact. apply item_active_agree; [done|].
    intros j Hj. rewrite !item_due_due_at. cbn [Ev.tracker with_tracker].
    eapply due_at_frame; [exact T0|..];
      destruct Hj as [->|[->| ->]]; first [solve_keys|solve_prefixes]. }
  assert (i = Spo2Warning ∨ i = HrHigh ∨ i = HrLow ∨ i = BatteryCritical
          ∨ i = BatteryWarning →
          silent (is_alert_of i) ((a0 ++ a1) ++ a2)) as V.
  { intros Hi. apply silent_app; [apply silent_app|].
    - destruct Hi as [->|[->|[->|[->| ->]]]]; silent_by T0.
    - by eapply vitals_closed_silent.
    - destruct Hi as [->|[->|[->|[->| ->]]]]; silent_by T2. }
  destruct i; try done; try by (apply V; auto 10).
  - (* disconnect *)
    cbn [item_active condition_event] in Hact.
    apply bool_decide_eq_false in Hact.
    apply silent_app; [apply silent_app|]; [|silent_by T1|silent_by T2].
    rewrite (tier_closed_silent _ _ _ _ _ _ _ _ _ _ _ _ _ E0); [constructor|].
    exact Hact.
  - (* therapy absence, high *)
    cbn [item_active condition_event] in Hact.
    apply bool_decide_eq_false in Hact.
    apply silent_app; [apply silent_app|]; [silent_by T0|silent_by T1|].
    destruct (in_sleep_hours config (now c) && _) eqn:Hon; [done|].
    rewrite no_therapy_closed_off in E2 by done.
    injection E2 as <- <-. constructor.
  - (* therapy absence, info *)
    cbn [item_active condition_event] in Hact.
    apply silent_app; [apply silent_app|]; [silent_by T0|silent_by T1|].
    destruct (in_sleep_hours config (now c) && _) eqn:Hon.
    + rewrite bool_decide_eq_true_2 in Hact by done. cbn [andb] in Hact.
      apply negb_false_iff in Hact.
      eapply no_therapy_closed_silent_info; [exact E2|].
      assert (due_at (now c) (item_cfg config NoTherapyHigh)
                (item_type NoTherapyHigh) (item_dwell_met config NoTherapyHigh)
                (condition_key <$> item_condition NoTherapyHigh)
                (Ev.tracker self1)
              = item_due config NoTherapyHigh (now c) self) as Hdue.
      { rewrite item_due_due_at.
        etransitivity;
          (eapply due_at_frame; [eassumption|solve_keys|solve_prefixes]). }
      cbn [item_cfg item_type item_condition fmap option_fmap option_map
           condition_key] in Hdue.
      rewrite Hdue. exact Hact.
    + rewrite no_therapy_closed_off in E2 by done.
      injection E2 as <- <-. constructor.
Qed.
End Silent.

(** * The claims *)

Lemma run_bind_ret {S A} (m : M S A) now (s : S) : m now s = bind m ret now s.
Proof. unfold bind, ret. by destruct (m now s) as [[a s']|e]. Qed.

(** An active item through one call of [evaluate]. *)
Lemma evaluate_cycle_active config i c self :
  item_active config i c self = true →
  ∃ out self',
    evaluate_cycle config c self = Ok (out, self')
    ∧ fired self' !! item_ledger config i =
        (if item_due config i (now c) self then Some (now c)
         else fired self !! item_ledger config i)
    ∧ (∀ cond, item_condition i = Some cond →
               starts self' !! condition_key cond = Some (item_since i (now c) self))
    ∧ length (alerts_of i out) =
        (if item_due config i (now c) self && IC.enabled (item_cfg config i)
         then 1 else 0)%nat
    ∧ Forall (λ a, severity a = Ev._get_severity (item_cfg config i))
        (alerts_of i out).
Proof.
  intros Hact. rewrite evaluate_cycle_closed.
  destruct (evaluate_closed config c self) as [out self'] eqn:E.
  exists out, self'. split; [done|].
  destruct (evaluate_closed_decides _ _ _ _ _ _ E Hact) as (D1 & D2 & D3 & D4).
  rewrite item_due_due_at. unfold item_ledger, fired, starts, alerts_of, item_since.
  split; [exact D1|]. split; [|by split].
  intros cond Hc. rewrite Hc in D2 |- *. by apply D2.
Qed.

(** C9. When the battery level of the reading is the level seen before,
    [_evaluate_battery] returns the empty list and leaves the evaluator as
    it was: the tracker's two dictionaries and the last-seen level. *)
Theorem battery_unchanged_is_noop config r therapy_on now self :
  Ev._last_battery_level self = Some (battery_level r) →
  Ev._evaluate_battery config (Some r) therapy_on now self = Ok ([], self).
Proof.
  intros H. rewrite run_bind_ret, _evaluate_battery_closed.
  by rewrite battery_closed_unchanged.
Qed.

Lemma battery_unchanged_is_noop_witness :
  Ev._evaluate_battery Example.config (Some (Example.reading_of 97 70 15)) false
    (Example.seconds 60)
    (Example.evaluator ∅ (<["battery_warning_warning" := 0]> ∅) (Some 15))
  = Ok ([], Example.evaluator ∅ (<["battery_warning_warning" := 0]> ∅) (Some 15)).
Proof. apply battery_unchanged_is_noop. reflexivity. Defined.

(** C10. [evaluate] returns a list for every reading (also [None] and an
    invalid one), every therapy state and either connectivity: it never
    raises.  When the reading is [None] or invalid, or the oximeter is not
    connected, the call is the disconnect evaluator followed by the
    therapy-absence evaluator: the SpO2, heart-rate and battery evaluators,
    each of which raises on an absent reading, are not run. *)
Theorem evaluate_total config (rd : option OxiReading) (st : AVAPSState)
    (connected : bool) (instant : Z) self :
  (∃ out self',
     Ev.evaluate config rd st connected instant self = Ok (out, self'))
  ∧ (rd = None ∨ (∃ r, rd = Some r ∧ is_valid r = false) ∨ connected = false →
     Ev.evaluate config rd st connected instant self =
     (disconnect_alerts <-
        Ev._evaluate_disconnect config connected (bool_decide (st = ON)) ;;
      no_therapy_alerts <- Ev._evaluate_no_therapy_at_night config st ;;
      ret (disconnect_alerts ++ no_therapy_alerts)) instant self)
  ∧ (∀ therapy_on,
       Ev._evaluate_spo2 config None therapy_on instant self
       = Raise (AttributeError "spo2")
       ∧ Ev._evaluate_hr config None therapy_on instant self
         = Raise (AttributeError "heart_rate")
       ∧ Ev._evaluate_battery config None therapy_on instant self
         = Raise (AttributeError "battery_level")).
Proof.
  split; [|split].
  - pose proof (evaluate_cycle_closed config
                  (Build_Cycle instant rd st connected) self) as H.
    unfold evaluate_cycle in H.
    cbn [now reading avaps_state ble_connected] in H.
    destruct (evaluate_closed _ _ _) as [out self']. by exists out, self'.
  - intros Hguard.
    assert (Ev.vitals_guard rd connected = false) as Hg.
    { unfold Ev.vitals_guard.
      destruct Hguard as [->|[(r & -> & ->)| ->]]; [|by rewrite andb_false_r|done].
      by rewrite andb_false_r. }
    unfold Ev.evaluate. rewrite Hg. reflexivity.
  - done.
Qed.

Lemma evaluate_total_witness :
  Ev.evaluate Example.config None UNKNOWN false (Example.seconds Example.noon)
    Ev.new =
  (disconnect_alerts <-
     Ev._evaluate_disconnect Example.config false (bool_decide (UNKNOWN = ON)) ;;
   no_therapy_alerts <- Ev._evaluate_no_therapy_at_night Example.config UNKNOWN ;;
   ret (disconnect_alerts ++ no_therapy_alerts))
    (Example.seconds Example.noon) Ev.new.
Proof.
  apply (evaluate_total Example.config None UNKNOWN false
           (Example.seconds Example.noon) Ev.new).
  by left.
Defined.

(** The SpO2 evaluator returns alerts of one tier only. *)
Lemma spo2_closed_exclusive config now r ton tr a tr' :
  spo2_closed config now r ton tr = (a, tr') →
  ¬ (∃ x y, x ∈ a ∧ y ∈ a ∧ alert_type x = SPO2_CRITICAL
            ∧ alert_type y = SPO2_WARNING).
Proof.
  intros E (x & y & Hx & Hy & Tx & Ty).
  apply spo2_closed_stages in E as (a1 & tr1 & a2 & -> & E1 & E2).
  pose proof (tier_closed_touches _ _ _ _ _ _ _ _ _ _ _ _ _ E1) as (_ & _ & T1).
  pose proof (tier_closed_touches _ _ _ _ _ _ _ _ _ _ _ _ _ E2) as (_ & _ & T2).
  rewrite Forall_forall in T1, T2. unfold of_types in T1, T2.
  apply elem_of_app in Hx as [Hx|Hx];
    [|apply T2 in Hx; rewrite Tx in Hx; set_solver].
  apply elem_of_app in Hy as [Hy|Hy];
    [apply T1 in Hy; rewrite Ty in Hy; set_solver|].
  (* a critical alert and a warning alert: the warning tier ran although the
     critical one had returned an alert *)
  pose proof (spo2_warning_event _ _ _ _ _ _ _ E1) as Hnil.
  destruct a1 as [|x1 a1]; [by apply elem_of_nil in Hx|].
  cbn [not_] in Hnil. symmetry in Hnil. apply negb_false_iff in Hnil.
  rewrite Hnil in E2. cbn [orb observe] in E2.
  injection E2 as <- <-. by apply elem_of_nil in Hy.
Qed.

(** C7. The list that one call of [evaluate] returns never holds both an
    SpO2 critical alert and an SpO2 warning alert; and there are a
    configuration, a state and a cycle for which it holds both an HR high and
    an HR low alert. *)
Theorem spo2_tiers_exclusive_hr_tiers_not :
  (∀ config c self,
     ∃ out self',
       evaluate_cycle config c self = Ok (out, self')
       ∧ ¬ (∃ x y, x ∈ out ∧ y ∈ out ∧ alert_type x = SPO2_CRITICAL
                   ∧ alert_type y = SPO2_WARNING))
  ∧ (∃ config c self out self',
       evaluate_cycle config c self = Ok (out, self')
       ∧ ∃ x y, x ∈ out ∧ y ∈ out ∧ alert_type x = HR_HIGH
                ∧ alert_type y = HR_LOW).
Proof.
  split.
  - intros config c self. rewrite evaluate_cycle_closed.
    destruct (evaluate_closed config c self) as [out self'] eqn:E.
    exists out, self'. split; [done|].
    intros (x & y & Hx & Hy & Tx & Ty).
    unfold evaluate_closed in E. cbv zeta in E. fold (therapy_on c) in E.
    destruct (disconnect_closed _ _ _ _ _) as [a0 tr0] eqn:E0.
    destruct (vitals_closed _ _ _) as [a1 self1] eqn:E1.
    destruct (no_therapy_closed _ _ _ _) as [a2 tr2] eqn:E2.
    injection E as <- <-.
    pose proof (disconnect_closed_touches _ _ _ _ _ _ _ E0) as (_ & _ & T0).
    pose proof (no_therapy_closed_touches _ _ _ _ _ _ E2) as (_ & _ & T2).
    rewrite vitals_closed_vitals in E1.
    destruct (vitals c) as [r|].
    2:{ injection E1 as <- <-. rewrite app_nil_r in Hx.
        rewrite Forall_forall in T0, T2. unfold of_types in T0, T2.
        apply elem_of_app in Hx as [Hx|Hx];
          [apply T0 in Hx|apply T2 in Hx]; rewrite Tx in Hx; set_solver. }
    destruct (spo2_closed _ _ _ _ _) as [b1 tr1] eqn:F1.
    destruct (hr_closed _ _ _ _ _) as [b2 tr2'] eqn:F2.
    destruct (battery_closed _ _ _ _ _) as [b3 self3] eqn:F3.
    injection E1 as <- <-.
    pose proof (hr_closed_touches _ _ _ _ _ _ _ F2) as (_ & _ & U2).
    pose proof (battery_closed_touches _ _ _ _ _ _ _ F3) as (_ & _ & U3).
    rewrite Forall_forall in T0, T2, U2, U3. unfold of_types in T0, T2, U2, U3.
    assert (∀ z ty, z ∈ (a0 ++ (b1 ++ b2) ++ b3) ++ a2 → alert_type z = ty →
                    ty = SPO2_CRITICAL ∨ ty = SPO2_WARNING → z ∈ b1) as Hin.
    { intros z ty Hz Hty Hor. rewrite !elem_of_app in Hz.
      destruct Hz as [[Hz|[[Hz|Hz]|Hz]]|Hz]; [|done|..].
      - apply T0 in Hz. rewrite Hty in Hz. destruct Hor as [-> | ->]; set_solver.
      - apply U2 in Hz. rewrite Hty in Hz. destruct Hor as [-> | ->]; set_solver.
      - apply U3 in Hz. rewrite Hty in Hz. destruct Hor as [-> | ->]; set_solver.
      - apply T2 in Hz. rewrite Hty in Hz. destruct Hor as [-> | ->]; set_solver. }
    apply (spo2_closed_exclusive _ _ _ _ _ _ _ F1).
    exists x, y. split; [by eapply Hin; eauto|]. split; [by eapply Hin; eauto|done].
  - exists Example.crossed_hr,
      (Example.cycle Example.noon (Some (Example.reading_of 97 75 80)) OFF true),
      Ev.new.
    destruct (evaluate_cycle Example.crossed_hr _ Ev.new) as [[out self']|e] eqn:E;
      [|by vm_compute in E].
    exists out, self'. split; [done|].
    vm_compute in E. injection E as <- _.
    eexists _, _. split; [by left|]. split; [right; by left|]. by split.
Qed.

(** C8. An item whose block is reached with the dwell met and outside the
    cooldown records the instant in the cooldown ledger whether it is enabled
    or not; disabled, it adds no alert to the list that [evaluate] returns,
    and enabled it adds one. *)
Theorem disabled_item_shadow_fires config i c self :
  item_active config i c self = true →
  item_due config i (now c) self = true →
  ∃ out self',
    evaluate_cycle config c self = Ok (out, self')
    ∧ fired self' !! item_ledger config i = Some (now c)
    ∧ (IC.enabled (item_cfg config i) = false → alerts_of i out = [])
    ∧ (IC.enabled (item_cfg config i) = true → length (alerts_of i out) = 1%nat).
Proof.
  intros Hact Hdue.
  destruct (evaluate_cycle_active config i c self Hact)
    as (out & self' & E & Hf & _ & Hlen & _).
  exists out, self'. rewrite Hdue in Hf, Hlen. cbn [andb] in Hlen.
  split; [done|]. split; [done|].
  split; intros Hen; rewrite Hen in Hlen; [|done].
  by apply nil_length_inv.
Qed.

Lemma disabled_item_shadow_fires_witness :
  ∃ out self',
    evaluate_cycle Example.hr_high_disabled
      (Example.cycle Example.noon (Some (Example.reading_of 97 130 80)) OFF true)
      Ev.new = Ok (out, self')
    ∧ fired self' !! item_ledger Example.hr_high_disabled HrHigh
      = Some (Example.seconds Example.noon)
    ∧ (IC.enabled (item_cfg Example.hr_high_disabled HrHigh) = false →
       alerts_of HrHigh out = [])
    ∧ (IC.enabled (item_cfg Example.hr_high_disabled HrHigh) = true →
       length (alerts_of HrHigh out) = 1%nat).
Proof.
  apply (disabled_item_shadow_fires Example.hr_high_disabled HrHigh
           (Example.cycle Example.noon (Some (Example.reading_of 97 130 80))
              OFF true) Ev.new);
    reflexivity.
Defined.

Lemma item_due_iff config i now self :
  item_due config i now self = true ↔
  item_dwell_met config i (total_seconds (now - item_since i now self)) = true
  ∧ ∀ f, fired self !! item_ledger config i = Some f →
         num_lt (Num (total_seconds (now - f)))
           (IC.resend_interval_seconds (item_cfg config i)) = false.
Proof.
  unfold item_due, within_cooldown. rewrite andb_true_iff, negb_true_iff.
  destruct (fired self !! item_ledger config i) as [f|].
  - split; intros [H1 H2]; (split; [done|]); [by intros ? [= <-]|by apply H2].
  - split; intros [H1 _]; by split.
Qed.

(** C6. The disconnect evaluator compares minutes: with the oximeter
    disconnected since [t0], an alert is returned exactly when
    [threshold <= duration_seconds / 60], the seconds elapsed since [t0]
    divided by 60 as floats, and the last fire, if any, is not less than
    [resend_interval_seconds] seconds old.  The heart-rate evaluator compares
    seconds: its alert is returned exactly when
    [duration_seconds <= elapsed seconds], under the same cooldown test.
    The third part ties the float tests to the clock: for a whole number [n]
    and two instants [delta] microseconds apart (less than [2^31] seconds),
    the minutes test holds exactly when [delta] is at least [60 * n] seconds
    and the seconds tests exactly when it is at least [n] seconds.  So the
    same number as a disconnect threshold asks for 60 times the wait it asks
    for as a heart-rate dwell. *)
Theorem disconnect_dwell_in_minutes config :
  (∀ c self t0,
     item_active config Disconnect c self = true →
     IC.enabled (disconnect config) = true →
     starts self !! "disconnect" = Some t0 →
     ∃ out self',
       evaluate_cycle config c self = Ok (out, self')
       ∧ (alerts_of Disconnect out ≠ [] ↔
          num_le (IC.threshold (disconnect config))
            (Num (truediv (total_seconds (now c - t0)) 60)) = true
          ∧ ∀ f, fired self !! item_ledger config Disconnect = Some f →
                 num_lt (Num (total_seconds (now c - f)))
                   (IC.resend_interval_seconds (disconnect config)) = false))
  ∧ (∀ c self t0,
     item_active config HrHigh c self = true →
     IC.enabled (hr_high config) = true →
     starts self !! "hr_high" = Some t0 →
     ∃ out self',
       evaluate_cycle config c self = Ok (out, self')
       ∧ (alerts_of HrHigh out ≠ [] ↔
          num_le (IC.duration_seconds (hr_high config))
            (Num (total_seconds (now c - t0))) = true
          ∧ ∀ f, fired self !! item_ledger config HrHigh = Some f →
                 num_lt (Num (total_seconds (now c - f)))
                   (IC.resend_interval_seconds (hr_high config)) = false))
  ∧ (∀ n delta : Z,
     0 ≤ n → - (2 ^ 31 * 1000000) < delta < 2 ^ 31 * 1000000 →
     (num_le (of_int n) (Num (truediv (total_seconds delta) 60)) = true
      ↔ 60 * n * 1000000 ≤ delta)
     ∧ (num_le (of_int n) (Num (total_seconds delta)) = true
        ↔ n * 1000000 ≤ delta)
     ∧ (num_lt (Num (total_seconds delta)) (of_int n) = false
        ↔ n * 1000000 ≤ delta)).
Proof.
  assert (∀ i cond c self t0,
            item_condition i = Some cond →
            item_active config i c self = true →
            IC.enabled (item_cfg config i) = true →
            starts self !! condition_key cond = Some t0 →
            ∃ out self',
              evaluate_cycle config c self = Ok (out, self')
              ∧ (alerts_of i out ≠ [] ↔
                 item_dwell_met config i (total_seconds (now c - t0)) = true
                 ∧ ∀ f, fired self !! item_ledger config i = Some f →
                        num_lt (Num (total_seconds (now c - f)))
                          (IC.resend_interval_seconds (item_cfg config i)) = false))
    as Hitem.
  { intros i cond c self t0 Hcond Hact Hen Ht0.
    destruct (evaluate_cycle_active config _ c self Hact)
      as (out & self' & E & _ & _ & Hlen & _).
    exists out, self'. split; [done|].
    rewrite Hen, andb_true_r in Hlen.
    pose proof (item_due_iff config i (now c) self) as Hiff.
    unfold item_since in Hiff. rewrite Hcond, Ht0 in Hiff. cbn [default] in Hiff.
    rewrite <- Hiff.
    destruct (item_due _ _ _ _); destruct (alerts_of _ out); cbn in Hlen;
      try done. }
  split; [|split].
  - intros c self t0 Hact Hen Ht0.
    exact (Hitem Disconnect CondDisconnect c self t0 eq_refl Hact Hen Ht0).
  - intros c self t0 Hact Hen Ht0.
    exact (Hitem HrHigh CondHrHigh c self t0 eq_refl Hact Hen Ht0).
  - intros n delta Hn Hd. unfold of_int, num_le, num_lt.
    rewrite negb_false_iff.
    split; [by apply minutes_reached|]. split; by apply seconds_reached.
Qed.

(** C4, as the code has it.  In sleep hours the therapy-absence evaluator
    starts or keeps the "no_therapy" timer only when the therapy state is
    OFF; for ON and for UNKNOWN alike, and outside sleep hours, it returns
    nothing, removes the timer and clears the cooldown entries of both
    tiers. *)
Theorem no_therapy_timer_only_when_off config (st : AVAPSState) (instant : Z) self :
  ∃ out self',
    Ev._evaluate_no_therapy_at_night config st instant self = Ok (out, self')
    ∧ if in_sleep_hours config instant && bool_decide (st = OFF)
      then starts self' !! "no_therapy"
           = Some (default instant (starts self !! "no_therapy"))
      else out = []
           ∧ starts self' !! "no_therapy" = None
           ∧ ∀ lk, String.prefix "no_therapy_info" lk = true
                   ∨ String.prefix "no_therapy_high" lk = true →
                   fired self' !! lk = None.
Proof.
  rewrite run_bind_ret, _evaluate_no_therapy_at_night_closed.
  destruct (no_therapy_closed config instant st (Ev.tracker self))
    as [out tr'] eqn:E.
  exists out, (with_tracker tr' self). split; [done|].
  destruct (no_therapy_closed_tracks _ _ _ _ _ _ E) as [K1 K2].
  unfold starts, fired. cbn [Ev.tracker with_tracker].
  destruct (_ && _) eqn:Hon; [exact K1|].
  rewrite no_therapy_closed_off in E by done. injection E as <- _.
  split; [done|]. split; [exact K1|].
  intros lk [Hlk|Hlk]; eapply (K2 eq_refl); [| exact Hlk| |exact Hlk]; set_solver.
Qed.

(** C4 fails as stated: at eleven at night, with the timer running and the
    therapy state UNKNOWN, the evaluator removes the timer. *)
Lemma unknown_therapy_resets_timer :
  in_sleep_hours Example.config (Example.seconds Example.eleven_pm) = true
  ∧ ∃ self',
      Ev._evaluate_no_therapy_at_night Example.config UNKNOWN
        (Example.seconds Example.eleven_pm)
        (Example.evaluator (<["no_therapy" := Example.seconds 79200]> ∅) ∅ None)
      = Ok ([], self')
      ∧ starts self' !! "no_therapy" = None.
Proof. split; [reflexivity|]. eexists. split; [vm_compute; reflexivity|reflexivity]. Qed.

(** C5, as the code has it.  Once the battery level has changed, the
    warning tier is evaluated exactly when the critical tier is bypassed or
    the level is over the critical threshold.  When the critical tier takes
    the cycle (not bypassed, level at or under its threshold), the evaluator
    returns after it whether it fired, was within cooldown or is disabled:
    no warning alert is returned and the warning entry of the ledger is left
    alone. *)
Theorem battery_warning_only_without_critical config r therapy_on (instant : Z) self :
  Ev._last_battery_level self ≠ Some (battery_level r) →
  ∃ out self',
    Ev._evaluate_battery config (Some r) therapy_on instant self = Ok (out, self')
    ∧ Ev._last_battery_level self' = Some (battery_level r)
    ∧ let critical :=
        negb (Ev._should_bypass (battery_critical config) therapy_on)
        && num_le (of_int (battery_level r)) (IC.threshold (battery_critical config)) in
      let warning :=
        negb (Ev._should_bypass (battery_warning config) therapy_on)
        && num_le (of_int (battery_level r)) (IC.threshold (battery_warning config)) in
      let entry := item_ledger config BatteryWarning in
      let recent :=
        within_cooldown instant (IC.resend_interval_seconds (battery_warning config))
          (fired self !! entry) in
      if critical then
        alerts_of BatteryWarning out = []
        ∧ fired self' !! entry = fired self !! entry
      else if warning then
        fired self' !! entry = (if recent then fired self !! entry else Some instant)
        ∧ length (alerts_of BatteryWarning out) =
          (if negb recent && IC.enabled (battery_warning config) then 1 else 0)%nat
      else out = [] ∧ fired self' = fired self.
Proof.
  intros Hl. rewrite run_bind_ret, _evaluate_battery_closed.
  destruct (battery_closed config instant r therapy_on self) as [out self'] eqn:E.
  exists out, self'. split; [done|]. cbv zeta.
  assert (bool_decide (Ev._last_battery_level self = Some (battery_level r)) = false)
    as Hb by by apply bool_decide_eq_false.
  destruct (negb (Ev._should_bypass (battery_critical _) _) && _) eqn:Hc.
  - unfold battery_closed in E. cbv zeta in E. rewrite Hb, Hc in E.
    destruct (fire_closed _ _ _ _ _ _ _ _) as [a tr'] eqn:F.
    injection E as <- <-. split; [done|].
    pose proof (fire_closed_touches _ _ _ _ _ _ _ _ _ _ F) as T.
    split.
    + apply silent_alerts_of. eapply touches_silent; [exact T|solve_not_mine].
    + destruct T as (_ & T & _). apply T. solve_prefixes.
  - destruct (negb (Ev._should_bypass (battery_warning _) _) && _) eqn:Hw.
    + pose proof (battery_warning_decides _ _ _ _ _ _ _ E Hb Hc Hw)
        as (D1 & _ & D3 & _).
      cbn [item_dwell_met andb] in D1, D3.
      unfold battery_closed in E. cbv zeta in E. rewrite Hb, Hc, Hw in E.
      destruct (fire_closed _ _ _ _ _ _ _ _) as [a tr'] eqn:F.
      injection E as <- <-. split; [done|].
      unfold fired, item_ledger, alerts_of. cbn [Ev.tracker] in *.
      split; [rewrite D1|rewrite D3]; by destruct (within_cooldown _ _ _).
    + unfold battery_closed in E. cbv zeta in E. rewrite Hb, Hc, Hw in E.
      by injection E as <- <-.
Qed.

Lemma battery_warning_only_without_critical_witness :
  ∃ out self',
    Ev._evaluate_battery Example.config (Some (Example.reading_of 97 70 15)) false
      (Example.seconds 60) Ev.new = Ok (out, self')
    ∧ Ev._last_battery_level self' = Some 15
    ∧ fired self' !! "battery_warning_warning" = Some (Example.seconds 60)
    ∧ length (alerts_of BatteryWarning out) = 1%nat.
Proof.
  destruct (battery_warning_only_without_critical Example.config
              (Example.reading_of 97 70 15) false (Example.seconds 60) Ev.new)
    as (out & self' & E & Hl & Hw); [done|].
  exists out, self'. split; [exact E|]. split; [exact Hl|]. exact Hw.
Defined.

(** C5 fails as stated: the level drops from 6 to 5 while the critical
    item is within its cooldown.  The critical tier returns no alert, yet the
    warning tier (enabled, not bypassed, never fired, level under its
    threshold) is not evaluated: nothing is returned and the ledger has no
    warning entry. *)
Lemma critical_cooldown_skips_warning :
  within_cooldown (Example.seconds 60)
    (IC.resend_interval_seconds (battery_critical Example.config))
    (Some (Example.seconds 0)) = true
  ∧ num_le (of_int 5) (IC.threshold (battery_warning Example.config)) = true
  ∧ ∃ self',
      Ev._evaluate_battery Example.config (Some (Example.reading_of 97 70 5)) false
        (Example.seconds 60)
        (Example.evaluator ∅
           (<["battery_critical_critical" := Example.seconds 0]> ∅) (Some 6))
      = Ok ([], self')
      ∧ fired self' !! "battery_warning_warning" = None.
Proof.
  split; [reflexivity|]. split; [reflexivity|].
  eexists. split; [vm_compute; reflexivity|reflexivity].
Qed.

(** X20. What a bypass does.  The items whose evaluator consults
    [bypass_on_therapy] are SpO2 warning, HR high, HR low, disconnect and the
    two battery items.  With the flag set and therapy ON, [evaluate] returns
    no alert of the item; and for disconnect, whose evaluator resets before
    it returns, the condition start is removed and the ledger entries of the
    alert type are cleared on every such call. *)
Theorem bypass_on_therapy_silences config i c self :
  avaps_state c = ON →
  IC.bypass_on_therapy (item_cfg config i) = true →
  i ∈ [Spo2Warning; HrHigh; HrLow; Disconnect; BatteryCritical; BatteryWarning] →
  ∃ out self',
    evaluate_cycle config c self = Ok (out, self')
    ∧ alerts_of i out = []
    ∧ (i = Disconnect →
       starts self' !! "disconnect" = None
       ∧ ∀ lk, String.prefix "disconnect" lk = true → fired self' !! lk = None).
Proof.
  intros Hon Hby Hi. rewrite evaluate_cycle_closed.
  destruct (evaluate_closed config c self) as [out self'] eqn:E.
  exists out, self'. split; [done|].
  assert (therapy_on c = true) as Hton
    by (unfold therapy_on; by apply bool_decide_eq_true).
  assert (Ev._should_bypass (item_cfg config i) (therapy_on c) = true) as Hsb
    by (unfold Ev._should_bypass; by rewrite Hton, Hby).
  split.
  - apply silent_alerts_of. eapply evaluate_closed_silent; [exact E| |..].
    + repeat (apply elem_of_cons in Hi as [->|Hi]);
        [..|by apply elem_of_nil in Hi];
        cbn [item_cfg] in Hsb;
        cbn [item_active condition_event]; unfold battery_critical_applies;
        rewrite ?Hsb; try (destruct (vitals c); [|done]);
        rewrite ?Hsb, ?orb_true_r; cbn [observe negb andb];
        rewrite ?andb_false_r; done.
    + intros ->. set_solver.
    + intros ->. set_solver.
  - intros ->. cbn [item_cfg] in Hsb.
    destruct (evaluate_closed_tracks config CondDisconnect _ _ _ _ E) as [K1 K2].
    cbn [condition_event condition_key condition_types] in K1, K2.
    rewrite Hsb in K1, K2. split; [exact K1|].
    intros lk Hlk. eapply (K2 eq_refl); [|exact Hlk]. by left.
Qed.

Lemma bypass_on_therapy_silences_witness :
  ∃ out self',
    evaluate_cycle Example.config
      (Example.cycle Example.noon (Some (Example.reading_of 97 130 80)) ON false)
      (Example.evaluator (<["disconnect" := 0]> ∅)
         (<["disconnect_high" := 0]> ∅) None)
    = Ok (out, self')
    ∧ alerts_of Disconnect out = []
    ∧ (Disconnect = Disconnect →
       starts self' !! "disconnect" = None
       ∧ ∀ lk, String.prefix "disconnect" lk = true → fired self' !! lk = None).
Proof.
  apply (bypass_on_therapy_silences Example.config Disconnect
           (Example.cycle Example.noon (Some (Example.reading_of 97 130 80)) ON false));
    [reflexivity|reflexivity|].
  right. right. right. left.
Defined.

(** C2: the claim at a bypassed heart-rate tier.  [_evaluate_disconnect]
    resets its key and clears its ledger entries when it is bypassed;
    [_evaluate_hr] only skips the block.  A high heart rate is first seen at
    noon with therapy OFF; an hour later therapy is ON and the tier, whose
    [bypass_on_therapy] is set, is bypassed, yet the start recorded at noon
    is still tracked after the call; one second after that therapy is OFF
    again and the alert is returned at once, its dwell of 600 seconds
    counted from noon: the message says 3601 seconds. *)
Lemma bypassed_heart_rate_keeps_timer :
  let c1 := Example.cycle Example.noon (Some (Example.reading_of 97 130 80)) OFF true in
  let c2 := Example.cycle (Example.noon + 3600)
              (Some (Example.reading_of 97 130 80)) ON true in
  let c3 := Example.cycle (Example.noon + 3601)
              (Some (Example.reading_of 97 130 80)) OFF true in
  IC.bypass_on_therapy (hr_high Example.config) = true
  ∧ ∃ s1 s2 out s3,
      evaluate_cycle Example.config c1 Ev.new = Ok ([], s1)
      ∧ evaluate_cycle Example.config c2 s1 = Ok ([], s2)
      ∧ starts s2 !! "hr_high" = Some (Example.seconds Example.noon)
      ∧ evaluate_cycle Example.config c3 s2 = Ok (out, s3)
      ∧ map alert_type out = [HR_HIGH]
      ∧ map message out = ["Heart rate high at 130 BPM for 3601s"].
Proof.
  cbv zeta. split; [reflexivity|].
  eexists _, _, _, _.
  split; [vm_compute; reflexivity|].
  split; [vm_compute; reflexivity|].
  split; [reflexivity|].
  split; [vm_compute; reflexivity|].
  split; [reflexivity|vm_compute; reflexivity].
Qed.

(** C3: the claim at a false observation made under a bypass.  A high
    heart rate is seen at noon with therapy OFF and the key is recorded.  An
    hour later the rate is 70, not over the threshold of 120, but therapy is
    ON and the tier is bypassed: [_evaluate_hr] skips the block with its
    [else] branch, so the key keeps the instant of noon, where
    [_evaluate_disconnect] would have reset.  One second later, therapy OFF
    and the rate at 130, the alert is returned at once with a dwell of 3601
    seconds, although the rate has been high for one cycle only. *)
Lemma bypassed_false_observation_keeps_key :
  let c1 := Example.cycle Example.noon (Some (Example.reading_of 97 130 80)) OFF true in
  let c2 := Example.cycle (Example.noon + 3600)
              (Some (Example.reading_of 97 70 80)) ON true in
  let c3 := Example.cycle (Example.noon + 3601)
              (Some (Example.reading_of 97 130 80)) OFF true in
  num_lt (IC.threshold (hr_high Example.config)) (of_int 70) = false
  ∧ IC.bypass_on_therapy (hr_high Example.config) = true
  ∧ ∃ s1 s2 out s3,
      evaluate_cycle Example.config c1 Ev.new = Ok ([], s1)
      ∧ starts s1 !! "hr_high" = Some (Example.seconds Example.noon)
      ∧ evaluate_cycle Example.config c2 s1 = Ok ([], s2)
      ∧ starts s2 !! "hr_high" = Some (Example.seconds Example.noon)
      ∧ evaluate_cycle Example.config c3 s2 = Ok (out, s3)
      ∧ map alert_type out = [HR_HIGH]
      ∧ map message out = ["Heart rate high at 130 BPM for 3601s"].
Proof.
  cbv zeta. split; [reflexivity|]. split; [reflexivity|].
  eexists _, _, _, _.
  split; [vm_compute; reflexivity|].
  split; [reflexivity|].
  split; [vm_compute; reflexivity|].
  split; [reflexivity|].
  split; [vm_compute; reflexivity|].
  split; [reflexivity|vm_compute; reflexivity].
Qed.

(** ** Conditions along a run *)

Lemma next_closed config c self :
  next config c self = (evaluate_closed config c self).2.
Proof.
  unfold next. rewrite evaluate_cycle_closed.
  by destruct (evaluate_closed config c self).
Qed.

Lemma run_total config cycles self :
  ∃ outs self', run config cycles self = Ok (outs, self')
                ∧ length outs = length cycles.
Proof.
  revert self. induction cycles as [|c cycles IH]; intros self.
  - by exists [], self.
  - cbn [run]. rewrite evaluate_cycle_closed.
    destruct (evaluate_closed config c self) as [out self1].
    destruct (IH self1) as (outs & self' & -> & Hlen).
    exists (out :: outs), self'. split; [done|]. cbn. by rewrite Hlen.
Qed.

Lemma run_cons config c cycles self outs self' :
  run config (c :: cycles) self = Ok (outs, self') →
  ∃ out outs',
    outs = out :: outs'
    ∧ evaluate_cycle config c self = Ok (out, next config c self)
    ∧ run config cycles (next config c self) = Ok (outs', self').
Proof.
  cbn [run]. unfold next.
  destruct (evaluate_cycle config c self) as [[out self1]|e]; [|done].
  destruct (run config cycles self1) as [[outs' self2]|e]; [|done].
  intros [= <- <-]. by exists out, outs'.
Qed.

Lemma track_app st obs1 obs2 :
  track st (obs1 ++ obs2) = track (track st obs1) obs2.
Proof. apply foldl_app. Qed.

Lemma track_quiet st obs : quiet obs → track st obs = st.
Proof.
  unfold quiet. revert st. induction obs as [|[n e] obs IH]; intros st H; [done|].
  apply Forall_cons in H as [He H]. cbn in He. subst e. cbn. by apply IH.
Qed.

Lemma track_no_false t obs :
  Forall (λ o, o.2 ≠ Inactive) obs → track (Some t) obs = Some t.
Proof.
  revert t. induction obs as [|[n e] obs IH]; intros t H; [done|].
  apply Forall_cons in H as [He H]. cbn in He.
  cbn. destruct e; [by apply IH|done|by apply IH].
Qed.

Lemma track_closed obs : track None obs = None ↔ closed obs.
Proof.
  split.
  - induction obs as [|[n e] obs IH] using rev_ind; intros H.
    + left. constructor.
    + rewrite track_app in H. cbn in H. unfold track_step in H. cbn in H.
      destruct e.
      * destruct (IH H) as [Hq|(pre & m & sk & -> & Hq)].
        -- left. apply Forall_app. split; [done|]. by repeat constructor.
        -- right. exists pre, m, (sk ++ [(n, Skip)]).
           split; [by rewrite <- app_assoc|].
           apply Forall_app. split; [done|]. by repeat constructor.
      * right. exists obs, n, []. split; [done|constructor].
      * done.
  - intros [Hq|(pre & n & sk & -> & Hq)].
    + by apply track_quiet.
    + rewrite track_app. cbn. by apply track_quiet.
Qed.

Lemma track_since obs t :
  track None obs = Some t ↔ continuously_true_since obs t.
Proof.
  split.
  - induction obs as [|[n e] obs IH] using rev_ind; intros H; [done|].
    rewrite track_app in H. cbn in H. unfold track_step in H. cbn in H.
    destruct e.
    + destruct (IH H) as (pre & post & -> & Hc & Hp).
      exists pre, (post ++ [(n, Skip)]). split; [by rewrite <- app_assoc|].
      split; [done|]. apply Forall_app. split; [done|]. by repeat constructor.
    + done.
    + destruct (track None obs) as [t'|] eqn:Ht.
      * cbn in H. injection H as ->.
        destruct (IH eq_refl) as (pre & post & -> & Hc & Hp).
        exists pre, (post ++ [(n, Active)]). split; [by rewrite <- app_assoc|].
        split; [done|]. apply Forall_app. split; [done|]. by repeat constructor.
      * cbn in H. injection H as ->.
        exists obs, []. split; [done|]. split; [by apply track_closed|constructor].
  - intros (pre & post & -> & Hc & Hp).
    rewrite track_app. apply track_closed in Hc. rewrite Hc. cbn.
    by apply track_no_false.
Qed.

Lemma run_track config cond cycles self outs self' :
  run config cycles self = Ok (outs, self') →
  starts self' !! condition_key cond =
  track (starts self !! condition_key cond) (observations config cond cycles self).
Proof.
  revert self outs. induction cycles as [|c cycles IH]; intros self outs H.
  - by injection H as <- <-.
  - apply run_cons in H as (out & outs' & -> & E & H).
    unfold observations. cbn [states zip_with]. fold (observations config cond cycles
      (next config c self)).
    cbn [track foldl]. fold (track (track_step (starts self !! condition_key cond)
      (now c, condition_event config cond c self))
      (observations config cond cycles (next config c self))).
    rewrite (IH _ _ H). f_equal.
    rewrite evaluate_cycle_closed in E. injection E as E.
    destruct (evaluate_closed_tracks config cond c self out (next config c self))
      as [K _].
    { rewrite next_closed. rewrite next_closed in E.
      by destruct (evaluate_closed config c self). }
    unfold starts, track_step. cbn [fst snd]. rewrite K.
    by destruct (condition_event config cond c self).
Qed.

(** X21. The condition starts along a run, in terms of what each cycle observes
    of the condition ([condition_event]: true, false, or not evaluated).
    After a run that starts with the key absent, the key is present with a
    timestamp exactly when that instant is the first of a stretch of true
    observations that reaches the end of the run with no false observation
    in it; a cycle that observes the condition false removes the key and
    clears the ledger entries of its alert types; and a true observation
    that finds the key absent records the instant of the cycle, so the dwell
    starts again from zero.  A cycle that does not evaluate the block (a
    bypassed tier, an absent reading, the other therapy mode) leaves the
    key as it is. *)
Theorem condition_start_invariant config cond :
  (∀ cycles self,
     starts self !! condition_key cond = None →
     ∃ outs self',
       run config cycles self = Ok (outs, self')
       ∧ ∀ t, starts self' !! condition_key cond = Some t ↔
              continuously_true_since (observations config cond cycles self) t)
  ∧ (∀ c self,
       condition_event config cond c self = Inactive →
       ∃ out self',
         evaluate_cycle config c self = Ok (out, self')
         ∧ starts self' !! condition_key cond = None
         ∧ ∀ ty lk, ty ∈ condition_types cond → String.prefix ty lk = true →
                    fired self' !! lk = None)
  ∧ (∀ c self,
       starts self !! condition_key cond = None →
       condition_event config cond c self = Active →
       ∃ out self',
         evaluate_cycle config c self = Ok (out, self')
         ∧ starts self' !! condition_key cond = Some (now c)
         ∧ duration_of (now c) (condition_key cond) (Ev.tracker self') == 0).
Proof.
  split; [|split].
  - intros cycles self Hnone.
    destruct (run_total config cycles self) as (outs & self' & E & _).
    exists outs, self'. split; [done|]. intros t.
    rewrite (run_track _ cond _ _ _ _ E), Hnone. apply track_since.
  - intros c self Hev. rewrite evaluate_cycle_closed.
    destruct (evaluate_closed config c self) as [out self'] eqn:E.
    exists out, self'. split; [done|].
    destruct (evaluate_closed_tracks config cond _ _ _ _ E) as [K1 K2].
    rewrite Hev in K1. split; [exact K1|]. by apply K2.
  - intros c self Hnone Hev. rewrite evaluate_cycle_closed.
    destruct (evaluate_closed config c self) as [out self'] eqn:E.
    exists out, self'. split; [done|].
    destruct (evaluate_closed_tracks config cond _ _ _ _ E) as [K1 _].
    unfold starts in Hnone. rewrite Hev, Hnone in K1. cbn [default] in K1.
    split; [exact K1|]. unfold duration_of. rewrite K1.
    unfold total_seconds. rewrite Z.sub_diag. reflexivity.
Qed.

(** ** An item that stays active along a run *)

Section Fires.
Variables (config : AlertsConfig.t) (i : Item) (since : Z).

Let met (n : Z) : bool := item_dwell_met config i (total_seconds (n - since)).
Let recent (n : Z) (last : option Z) : bool :=
  within_cooldown n (IC.resend_interval_seconds (item_cfg config i)) last.

Lemma fires_length last nows : length (fires config i since last nows) = length nows.
Proof.
  revert last. induction nows as [|n nows IH]; intros last; [done|].
  cbn. by rewrite IH.
Qed.

Lemma fires_met last nows k n :
  nows !! k = Some n → fires config i since last nows !! k = Some true →
  met n = true.
Proof.
  revert last k. induction nows as [|n0 nows IH]; intros last k Hn Hf; [done|].
  destruct k as [|k]; cbn in Hn, Hf.
  - injection Hn as ->. injection Hf as Hf. by apply andb_true_iff in Hf as [? _].
  - by eapply IH.
Qed.

Lemma fires_first last nows k n b :
  nows !! k = Some n → fires config i since last nows !! k = Some b →
  (∀ m, (m < k)%nat → fires config i since last nows !! m = Some false) →
  b = met n && negb (recent n last).
Proof.
  revert last k. induction nows as [|n0 nows IH]; intros last k Hn Hf Hm; [done|].
  destruct k as [|k]; cbn in Hn, Hf.
  - injection Hn as ->. by injection Hf as <-.
  - assert (met n0 && negb (recent n0 last) = false) as H0.
    { specialize (Hm 0%nat ltac:(lia)). cbn in Hm. by injection Hm. }
    unfold met, recent in H0. rewrite H0 in Hf.
    eapply IH; [exact Hn|exact Hf|].
    intros m Hlt. specialize (Hm (S m) ltac:(lia)). cbn in Hm.
    by rewrite H0 in Hm.
Qed.

Lemma fires_after last nows j nj :
  nows !! j = Some nj → fires config i since last nows !! j = Some true →
  drop (S j) (fires config i since last nows)
  = fires config i since (Some nj) (drop (S j) nows).
Proof.
  revert last j. induction nows as [|n0 nows IH]; intros last j Hn Hf; [done|].
  destruct j as [|j]; cbn in Hn, Hf.
  - injection Hn as ->. injection Hf as Hf. cbn. rewrite Hf. by rewrite !drop_0.
  - cbn [fires]. cbn [drop]. by apply IH.
Qed.

(** After a fire at cycle [j] and none since, cycle [k] fires exactly
    when the dwell is met and the fire at [j] is no longer recent. *)
Lemma fires_next last nows j k nj nk b :
  (j < k)%nat →
  nows !! j = Some nj → nows !! k = Some nk →
  fires config i since last nows !! j = Some true →
  fires config i since last nows !! k = Some b →
  (∀ m, (j < m < k)%nat → fires config i since last nows !! m = Some false) →
  b = met nk && negb (recent nk (Some nj)).
Proof.
  intros Hjk Hnj Hnk Hfj Hfk Hm.
  pose proof (fires_after _ _ _ _ Hnj Hfj) as Hdrop.
  apply (fires_first (Some nj) (drop (S j) nows) (k - S j)).
  - rewrite lookup_drop. rewrite <- Hnk. f_equal. lia.
  - rewrite <- Hdrop, lookup_drop. rewrite <- Hfk. f_equal. lia.
  - intros m Hlt. rewrite <- Hdrop, lookup_drop. apply Hm. lia.
Qed.
End Fires.

Lemma item_since_started i cond t n self :
  item_condition i = Some cond →
  starts self !! condition_key cond = Some t →
  item_since i n self = t.
Proof. unfold item_since. by intros -> ->. Qed.

(** A run of cycles in which the item stays active, from a state that
    tracks its condition since [since]. *)
Lemma run_fires_started config i cond since cycles self :
  item_condition i = Some cond →
  IC.enabled (item_cfg config i) = true →
  starts self !! condition_key cond = Some since →
  (∀ j c s, cycles !! j = Some c → states config cycles self !! j = Some s →
            item_active config i c s = true) →
  ∃ outs self',
    run config cycles self = Ok (outs, self')
    ∧ alert_counts i outs
      = (λ b : bool, if b then 1%nat else 0%nat)
          <$> fires config i since (fired self !! item_ledger config i)
                (now <$> cycles)
    ∧ Forall (λ out, Forall (λ a, severity a = Ev._get_severity (item_cfg config i))
                       (alerts_of i out)) outs.
Proof.
  intros Hcond Hen. revert self.
  induction cycles as [|c cycles IH]; intros self Hst Hact.
  - exists [], self. by repeat split.
  - destruct (evaluate_cycle_active config i c self) as
      (out & self1 & E & Hf & Hs & Hlen & Hsev).
    { by apply (Hact 0%nat). }
    assert (next config c self = self1) as Hnext by (unfold next; by rewrite E).
    destruct (IH self1) as (outs & self' & R & Hc & Hall).
    { rewrite (Hs _ Hcond). f_equal. by eapply item_since_started. }
    { intros j c' s Hc' Hs'. apply (Hact (S j)); [done|].
      cbn [states]. by rewrite Hnext. }
    exists (out :: outs), self'. split; [cbn [run]; by rewrite E, R|].
    split; [|by constructor].
    unfold alert_counts in *. cbn [fmap list_fmap fires]. rewrite Hc, Hlen, Hf.
    rewrite Hen, andb_true_r.
    unfold item_due. rewrite (item_since_started _ _ _ _ _ Hcond Hst).
    by destruct (_ && _).
Qed.

(** The same from a state in which the condition is not tracked: the first
    cycle of the run starts the timer. *)
Lemma run_fires config i cond c0 cycles self :
  item_condition i = Some cond →
  IC.enabled (item_cfg config i) = true →
  starts self !! condition_key cond = None →
  (∀ j c s, (c0 :: cycles) !! j = Some c →
            states config (c0 :: cycles) self !! j = Some s →
            item_active config i c s = true) →
  ∃ outs self',
    run config (c0 :: cycles) self = Ok (outs, self')
    ∧ alert_counts i outs
      = (λ b : bool, if b then 1%nat else 0%nat)
          <$> fires config i (now c0) (fired self !! item_ledger config i)
                (now <$> c0 :: cycles)
    ∧ Forall (λ out, Forall (λ a, severity a = Ev._get_severity (item_cfg config i))
                       (alerts_of i out)) outs.
Proof.
  intros Hcond Hen Hst Hact.
  destruct (evaluate_cycle_active config i c0 self) as
    (out & self1 & E & Hf & Hs & Hlen & Hsev).
  { by apply (Hact 0%nat). }
  assert (next config c0 self = self1) as Hnext by (unfold next; by rewrite E).
  assert (item_since i (now c0) self = now c0) as Hsince.
  { unfold item_since. by rewrite Hcond, Hst. }
  destruct (run_fires_started config i cond (now c0) cycles self1 Hcond Hen)
    as (outs & self' & R & Hc & Hall).
  { by rewrite (Hs _ Hcond), Hsince. }
  { intros j c' s Hc' Hs'. apply (Hact (S j)); [done|].
    cbn [states]. by rewrite Hnext. }
  exists (out :: outs), self'. split; [cbn [run]; by rewrite E, R|].
  split; [|by constructor].
  unfold alert_counts in *. cbn [fmap list_fmap fires]. rewrite Hc, Hlen, Hf.
  rewrite Hen, andb_true_r. unfold item_due. rewrite Hsince.
  by destruct (_ && _).
Qed.

Lemma alerts_of_type i out :
  Forall (λ a, alert_type a = item_alert_type i) (alerts_of i out).
Proof.
  apply Forall_forall. intros a Ha. unfold alerts_of in Ha.
  apply list_elem_of_filter in Ha as [Ha _]. unfold is_alert_of in Ha.
  apply andb_true_iff in Ha as [Ha _]. by apply bool_decide_eq_true in Ha.
Qed.

Lemma alert_counts_lookup config i since last nows outs k outk :
  alert_counts i outs
  = (λ b : bool, if b then 1%nat else 0%nat) <$> fires config i since last nows →
  outs !! k = Some outk →
  ∃ b : bool, fires config i since last nows !! k = Some b
       ∧ length (alerts_of i outk) = (if b : bool then 1 else 0)%nat.
Proof.
  intros Hc Hk.
  assert (alert_counts i outs !! k = Some (length (alerts_of i outk))) as H.
  { unfold alert_counts. by rewrite list_lookup_fmap, Hk. }
  rewrite Hc, list_lookup_fmap in H.
  destruct (fires config i since last nows !! k) as [b|]; [|done].
  exists b. split; [done|]. by injection H.
Qed.

(** C1, as the code has it.  Take an item with a dwell (every item but the
    two battery ones), enabled, whose condition is not tracked and which has
    no ledger entry, and a run in which the item is active at every cycle:
    its block is evaluated (not skipped by a bypass, an absent or invalid
    reading or a lost connection; for SpO2 warning and therapy-absence INFO,
    the higher tier returns no alert in the cycle) and its condition is true.
    The first cycle records the start t0.  Then every cycle returns at most
    one alert of the item, of the item's type and severity; a cycle returns
    none unless the dwell is met; the first cycle at which the dwell is met
    returns one; and after a cycle that returned one, the next cycle to
    return one is a cycle at which the dwell is met and the seconds elapsed
    since that fire are not less than [resend_interval_seconds].  The dwell
    and the cooldown are tested as the code tests them, on the elapsed
    seconds as a float ([seconds_reached] and [minutes_reached] say what the
    tests amount to for whole numbers). *)
Theorem dwell_then_cooldown config i cond c0 cycles self :
  item_condition i = Some cond →
  IC.enabled (item_cfg config i) = true →
  starts self !! condition_key cond = None →
  fired self !! item_ledger config i = None →
  (∀ j c s, (c0 :: cycles) !! j = Some c →
            states config (c0 :: cycles) self !! j = Some s →
            item_active config i c s = true) →
  let met (c : Cycle) : Prop :=
    item_dwell_met config i (total_seconds (now c - now c0)) = true in
  ∃ outs self',
    run config (c0 :: cycles) self = Ok (outs, self')
    ∧ ∀ k ck outk,
        (c0 :: cycles) !! k = Some ck → outs !! k = Some outk →
        (length (alerts_of i outk) ≤ 1)%nat
        ∧ Forall (λ a, alert_type a = item_alert_type i
                       ∧ severity a = Ev._get_severity (item_cfg config i))
            (alerts_of i outk)
        ∧ (alerts_of i outk ≠ [] → met ck)
        ∧ (met ck →
           (∀ j cj, (j < k)%nat → (c0 :: cycles) !! j = Some cj → ¬ met cj) →
           length (alerts_of i outk) = 1%nat)
        ∧ (∀ j cj outj,
             (j < k)%nat → (c0 :: cycles) !! j = Some cj → outs !! j = Some outj →
             alerts_of i outj ≠ [] →
             (∀ m outm, (j < m < k)%nat → outs !! m = Some outm →
                        alerts_of i outm = []) →
             (alerts_of i outk ≠ [] ↔
              met ck
              ∧ num_lt (Num (total_seconds (now ck - now cj)))
                  (IC.resend_interval_seconds (item_cfg config i)) = false)).
Proof.
  intros Hcond Hen Hst Hled Hact met.
  destruct (run_fires config i cond c0 cycles self Hcond Hen Hst Hact)
    as (outs & self' & R & Hc & Hall).
  exists outs, self'. split; [exact R|].
  rewrite Hled in Hc.
  set (nows := now <$> c0 :: cycles) in *.
  set (F := fires config i (now c0) None nows) in *.
  assert (∀ k ck, (c0 :: cycles) !! k = Some ck → nows !! k = Some (now ck)) as Hnow.
  { intros k ck Hk. unfold nows. by rewrite list_lookup_fmap, Hk. }
  assert (∀ k outk, outs !! k = Some outk →
                    ∃ b : bool, F !! k = Some b
                         ∧ length (alerts_of i outk) = (if b : bool then 1 else 0)%nat)
    as Hb by (intros; by eapply alert_counts_lookup).
  assert (∀ k outk b, outs !! k = Some outk → F !! k = Some b →
                      (alerts_of i outk ≠ [] ↔ b = true)) as Hne.
  { intros k outk b Hk HF. destruct (Hb _ _ Hk) as (b' & HF' & Hlen).
    rewrite HF in HF'. injection HF' as <-.
    destruct b, (alerts_of i outk); cbn in Hlen; try done. }
  assert (length outs = length (c0 :: cycles)) as Hlen.
  { destruct (run_total config (c0 :: cycles) self) as (o & s & R' & Hl).
    rewrite R in R'. by injection R' as <- <-. }
  intros k ck outk Hck Hk.
  destruct (Hb _ _ Hk) as (b & HF & Hcount).
  split; [rewrite Hcount; destruct b; lia|].
  split.
  { rewrite Forall_lookup in Hall. specialize (Hall _ _ Hk).
    pose proof (alerts_of_type i outk) as Hty.
    rewrite Forall_forall in Hall, Hty |- *. intros a Ha. split; auto. }
  split.
  { intros Hne'. apply (Hne _ _ _ Hk HF) in Hne'. subst b.
    exact (fires_met config i (now c0) None nows k (now ck) (Hnow _ _ Hck) HF). }
  split.
  - intros Hmet Hfirst.
    assert (b = true) as ->; [|done].
    rewrite (fires_first config i (now c0) None nows k (now ck) b (Hnow _ _ Hck) HF).
    { by rewrite Hmet. }
    intros m Hlt.
    assert (is_Some ((c0 :: cycles) !! m)) as [cm Hcm]
      by (apply lookup_lt_is_Some; apply lookup_lt_Some in Hck; lia).
    assert (is_Some (F !! m)) as [bm HFm].
    { apply lookup_lt_is_Some. unfold F. rewrite fires_length. unfold nows.
      rewrite length_fmap. apply lookup_lt_Some in Hck. lia. }
    change (F !! m = Some false).
    rewrite HFm. f_equal. destruct bm; [|done]. exfalso.
    apply (Hfirst m cm Hlt Hcm).
    exact (fires_met config i (now c0) None nows m (now cm) (Hnow _ _ Hcm) HFm).
  - intros j cj outj Hjk Hcj Hj Hfired Hbetween.
    destruct (Hb _ _ Hj) as (bj & HFj & _).
    apply (Hne _ _ _ Hj HFj) in Hfired. subst bj.
    rewrite (Hne _ _ _ Hk HF).
    rewrite (fires_next config i (now c0) None nows j k (now cj) (now ck) b
               Hjk (Hnow _ _ Hcj) (Hnow _ _ Hck) HFj HF).
    { by rewrite andb_true_iff, negb_true_iff. }
    intros m Hm.
    assert (is_Some (outs !! m)) as [outm Hom]
      by (apply lookup_lt_is_Some; apply lookup_lt_Some in Hk; lia).
    destruct (Hb _ _ Hom) as (bm & HFm & Hcm).
    change (F !! m = Some false).
    rewrite HFm. f_equal. rewrite (Hbetween m outm Hm Hom) in Hcm.
    by destruct bm.
Qed.

Lemma dwell_then_cooldown_witness :
  let high t := Example.cycle (Example.noon + t)
                  (Some (Example.reading_of 97 130 80)) OFF true in
  let c0 := high 0 in
  let cycles := [high 600; high 700; high 900] in
  let met (c : Cycle) : Prop :=
    item_dwell_met Example.config HrHigh (total_seconds (now c - now c0)) = true in
  ∃ outs self',
    run Example.config (c0 :: cycles) Ev.new = Ok (outs, self')
    ∧ ∀ k ck outk,
        (c0 :: cycles) !! k = Some ck → outs !! k = Some outk →
        (length (alerts_of HrHigh outk) ≤ 1)%nat
        ∧ Forall (λ a, alert_type a = item_alert_type HrHigh
                       ∧ severity a = Ev._get_severity (item_cfg Example.config HrHigh))
            (alerts_of HrHigh outk)
        ∧ (alerts_of HrHigh outk ≠ [] → met ck)
        ∧ (met ck →
           (∀ j cj, (j < k)%nat → (c0 :: cycles) !! j = Some cj → ¬ met cj) →
           length (alerts_of HrHigh outk) = 1%nat)
        ∧ (∀ j cj outj,
             (j < k)%nat → (c0 :: cycles) !! j = Some cj → outs !! j = Some outj →
             alerts_of HrHigh outj ≠ [] →
             (∀ m outm, (j < m < k)%nat → outs !! m = Some outm →
                        alerts_of HrHigh outm = []) →
             (alerts_of HrHigh outk ≠ [] ↔
              met ck
              ∧ num_lt (Num (total_seconds (now ck - now cj)))
                  (IC.resend_interval_seconds (item_cfg Example.config HrHigh))
                = false)).
Proof.
  cbv zeta.
  refine (dwell_then_cooldown Example.config HrHigh CondHrHigh _ _ Ev.new _ _ _ _ _).
  - reflexivity.
  - reflexivity.
  - reflexivity.
  - reflexivity.
  - intros j c s Hc Hs.
    destruct j as [|[|[|[|j]]]]; [..|discriminate Hc];
      vm_compute in Hc; vm_compute in Hs;
      injection Hc as <-; injection Hs as <-; vm_compute; reflexivity.
Defined.

(** The run of the witness: the dwell of 600 seconds is met at the second
    cycle, which returns the alert; the third cycle, 100 seconds later, is
    within the cooldown of 300 seconds and returns none; the fourth, 300
    seconds after the alert, returns the next one. *)
Example dwell_then_cooldown_run :
  let high t := Example.cycle (Example.noon + t)
                  (Some (Example.reading_of 97 130 80)) OFF true in
  ∃ outs self',
    run Example.config [high 0; high 600; high 700; high 900] Ev.new
    = Ok (outs, self')
    ∧ map (map alert_type) outs = [[]; [HR_HIGH]; []; [HR_HIGH]].
Proof. eexists _, _. split; [vm_compute; reflexivity|reflexivity]. Qed.

(** C1 fails as stated: SpO2 warning is a lower tier.  The saturation is
    under the warning threshold from noon on, and the warning dwell of 30
    seconds is met at the second cycle; but the critical tier returns its
    alert in that cycle, the warning tier is not evaluated, and the warning
    alert comes one cycle late. *)
Lemma spo2_warning_waits_for_critical :
  let c0 := Example.cycle Example.noon (Some (Example.reading_of 90 70 80)) OFF true in
  let c1 := Example.cycle (Example.noon + 30)
              (Some (Example.reading_of 85 70 80)) OFF true in
  let c2 := Example.cycle (Example.noon + 31)
              (Some (Example.reading_of 85 70 80)) OFF true in
  item_dwell_met Example.config Spo2Warning (total_seconds (now c0 - now c0)) = false
  ∧ item_dwell_met Example.config Spo2Warning (total_seconds (now c1 - now c0)) = true
  ∧ IC.enabled (spo2_warning Example.config) = true
  ∧ ∃ outs self',
      run Example.config [c0; c1; c2] Ev.new = Ok (outs, self')
      ∧ map (map alert_type) outs = [[]; [SPO2_CRITICAL]; [SPO2_WARNING]].
Proof.
  cbv zeta. split; [reflexivity|]. split; [reflexivity|]. split; [reflexivity|].
  eexists _, _. split; [vm_compute; reflexivity|reflexivity].
Qed.

(** The oximeter disconnected for 300 seconds against a threshold of 5
    (minutes): the alert is returned.  A heart rate high for 300 seconds
    against a dwell of 600 (seconds): none.  And the three tests at 5 and at
    300 seconds. *)
Lemma disconnect_dwell_in_minutes_witness :
  (∃ out self',
     evaluate_cycle Example.config (Example.cycle Example.noon None OFF false)
       (Example.evaluator (<["disconnect" := Example.seconds (Example.noon - 300)]> ∅)
          ∅ None) = Ok (out, self')
     ∧ (alerts_of Disconnect out ≠ [] ↔
        num_le (IC.threshold (disconnect Example.config))
          (Num (truediv (total_seconds (Example.seconds Example.noon
                                        - Example.seconds (Example.noon - 300)))
                  60)) = true
        ∧ ∀ f, (∅ : gmap string Z) !! item_ledger Example.config Disconnect = Some f →
               num_lt (Num (total_seconds (Example.seconds Example.noon - f)))
                 (IC.resend_interval_seconds (disconnect Example.config)) = false))
  ∧ (∃ out self',
     evaluate_cycle Example.config
       (Example.cycle Example.noon (Some (Example.reading_of 97 130 80)) OFF true)
       (Example.evaluator (<["hr_high" := Example.seconds (Example.noon - 300)]> ∅)
          ∅ None) = Ok (out, self')
     ∧ (alerts_of HrHigh out ≠ [] ↔
        num_le (IC.duration_seconds (hr_high Example.config))
          (Num (total_seconds (Example.seconds Example.noon
                               - Example.seconds (Example.noon - 300)))) = true
        ∧ ∀ f, (∅ : gmap string Z) !! item_ledger Example.config HrHigh = Some f →
               num_lt (Num (total_seconds (Example.seconds Example.noon - f)))
                 (IC.resend_interval_seconds (hr_high Example.config)) = false))
  ∧ (num_le (of_int 5) (Num (truediv (total_seconds 300000000) 60)) = true
     ↔ 60 * 5 * 1000000 ≤ 300000000)
  ∧ (num_le (of_int 5) (Num (total_seconds 300000000)) = true
     ↔ 5 * 1000000 ≤ 300000000)
  ∧ (num_lt (Num (total_seconds 300000000)) (of_int 5) = false
     ↔ 5 * 1000000 ≤ 300000000).
Proof.
  pose proof (disconnect_dwell_in_minutes Example.config) as (Hd & Hh & Hn).
  split; [|split].
  - apply (Hd (Example.cycle Example.noon None OFF false)
             (Example.evaluator
                (<["disconnect" := Example.seconds (Example.noon - 300)]> ∅) ∅ None)
             (Example.seconds (Example.noon - 300)));
      vm_compute; reflexivity.
  - apply (Hh (Example.cycle Example.noon (Some (Example.reading_of 97 130 80)) OFF true)
             (Example.evaluator
                (<["hr_high" := Example.seconds (Example.noon - 300)]> ∅) ∅ None)
             (Example.seconds (Example.noon - 300)));
      vm_compute; reflexivity.
  - apply (Hn 5 300000000); lia.
Defined.

Lemma condition_start_invariant_witness :
  let c0 := Example.cycle Example.noon (Some (Example.reading_of 97 130 80)) OFF true in
  let c1 := Example.cycle (Example.noon + 5)
              (Some (Example.reading_of 97 80 80)) OFF true in
  ∃ outs self',
    run Example.config [c0; c1] Ev.new = Ok (outs, self')
    ∧ ∀ t, starts self' !! condition_key CondHrHigh = Some t ↔
           continuously_true_since
             (observations Example.config CondHrHigh [c0; c1] Ev.new) t.
Proof.
  cbv zeta.
  apply (proj1 (condition_start_invariant Example.config CondHrHigh)).
  reflexivity.
Defined.

(** ** Floats at the thresholds *)

(** A disconnect threshold of [0.1] minutes is met after 6 seconds: the
    double [0.1] is above one tenth, but so is the quotient [6.0 / 60] once
    rounded. *)
Example disconnect_after_tenth_of_a_minute :
  Qle_bool tenth (6 # 60) = false
  ∧ ∃ out self',
      evaluate_cycle (disconnect_after tenth)
        (Example.cycle (Example.noon + 6) None OFF false)
        (Example.evaluator (<["disconnect" := Example.seconds Example.noon]> ∅) ∅ None)
      = Ok (out, self')
      ∧ map alert_type out = [DISCONNECT].
Proof.
  split; [vm_compute; reflexivity|].
  eexists _, _. split; [vm_compute; reflexivity|reflexivity].
Qed.

(** A disconnect threshold of [0.17] minutes is not met after 10.2 seconds:
    [10.2 / 60] rounds below the double [0.17]. *)
Example disconnect_after_seventeen_hundredths :
  ∃ self',
    evaluate_cycle (disconnect_after seventeen_hundredths)
      {| now := Example.seconds Example.noon + 10200000; reading := None;
         avaps_state := OFF; ble_connected := false |}
      (Example.evaluator (<["disconnect" := Example.seconds Example.noon]> ∅) ∅ None)
    = Ok ([], self').
Proof. eexists. vm_compute; reflexivity. Qed.

(** ** The tracker on its own *)

(** X1. [start] records the instant of the first call only: a second call
    does not move the start, and [duration_seconds] then counts from the
    first one (or from the start that was already recorded). *)
Theorem start_keeps_first_instant (condition : string) (t1 t2 t3 : Z) (tr : Tr.t) :
  ∃ tr1,
    Tr.start condition t1 tr = Ok (tt, tr1)
    ∧ Tr.start condition t2 tr1 = Ok (tt, tr1)
    ∧ Tr.duration_seconds condition t3 tr1
      = Ok (total_seconds (t3 - default t1 (Tr.condition_starts tr !! condition)), tr1).
Proof.
  unfold Tr.start, Tr.duration_seconds, bind, get, put, ret, datetime_now.
  destruct (Tr.condition_starts tr !! condition) as [t0|] eqn:E.
  - exists tr. rewrite E. done.
  - eexists. split; [reflexivity|]. cbn [Tr.condition_starts Tr.set_condition_starts].
    rewrite lookup_insert_eq. done.
Qed.

(** X2. [reset] never raises, also for a condition that is not tracked, and
    then it changes nothing; after it the duration of the condition is zero
    whatever was recorded, the other conditions and the ledger are as
    before. *)
Theorem reset_forgets_one_condition (condition : string) (t t' : Z) (tr : Tr.t) :
  ∃ tr1,
    Tr.reset condition t tr = Ok (tt, tr1)
    ∧ Tr.duration_seconds condition t' tr1 = Ok (0%Q, tr1)
    ∧ (∀ k, k ≠ condition →
            Tr.condition_starts tr1 !! k = Tr.condition_starts tr !! k)
    ∧ Tr.fired_alerts tr1 = Tr.fired_alerts tr
    ∧ (Tr.condition_starts tr !! condition = None → tr1 = tr).
Proof.
  unfold Tr.reset, Tr.duration_seconds, bind, get, put, ret.
  eexists. split; [reflexivity|].
  cbn [Tr.condition_starts Tr.set_condition_starts Tr.fired_alerts].
  rewrite lookup_delete_eq. split; [done|]. split.
  - intros k Hk. by rewrite lookup_delete_ne.
  - split; [done|]. intros E. destruct tr as [cs fa]. cbn in *.
    by rewrite delete_id.
Qed.

(** X3. [mark_fired] then [was_fired_recently]: the query changes nothing;
    for a cooldown of a whole number of seconds the answer is true exactly
    while fewer microseconds than the cooldown have passed since the mark;
    a cooldown that is not a number is never recent; and a type that was
    never marked is not recent (no [KeyError]). *)
Theorem mark_fired_then_recently (alert_type severity : string) (t0 : Z) (tr : Tr.t) :
  (∃ tr1,
     Tr.mark_fired alert_type severity t0 tr = Ok (tt, tr1)
     ∧ Tr.condition_starts tr1 = Tr.condition_starts tr
     ∧ (∀ (n t1 : Z),
          0 ≤ n → - (2 ^ 31 * 1000000) < t1 - t0 < 2 ^ 31 * 1000000 →
          Tr.was_fired_recently alert_type severity (of_int n) t1 tr1
          = Ok (bool_decide (t1 - t0 < n * 1000000), tr1))
     ∧ ∀ t1, Tr.was_fired_recently alert_type severity NaN t1 tr1 = Ok (false, tr1))
  ∧ (Tr.fired_alerts tr !! (alert_type +:+ "_" +:+ severity) = None →
     ∀ cooldown t1,
       Tr.was_fired_recently alert_type severity cooldown t1 tr = Ok (false, tr)).
Proof.
  split.
  - unfold Tr.mark_fired, Tr.was_fired_recently, Tr.fired_alerts_getitem,
      bind, get, put, ret, datetime_now.
    eexists. split; [reflexivity|]. split; [done|].
    unfold Tr.set_fired_alerts. cbv beta. cbn [Tr.fired_alerts].
    split.
    + intros n t1 Hn Ht.
      rewrite lookup_insert_eq. cbv beta iota. cbn [Tr.fired_alerts].
      rewrite lookup_insert_eq. f_equal. f_equal.
      unfold of_int, num_lt.
      pose proof (seconds_reached n (t1 - t0) Hn Ht) as Hs.
      destruct (Qle_bool (inject_Z n) (total_seconds (t1 - t0))).
      * symmetry. apply bool_decide_eq_false. apply proj1 in Hs.
        specialize (Hs eq_refl). lia.
      * symmetry. apply bool_decide_eq_true.
        destruct (Z_lt_le_dec (t1 - t0) (n * 1000000)) as [|Hle]; [done|].
        apply Hs in Hle. discriminate.
    + intros t1. rewrite lookup_insert_eq. cbv beta iota. cbn [Tr.fired_alerts].
      by rewrite lookup_insert_eq.
  - intros E cooldown t1.
    unfold Tr.was_fired_recently, bind, get, ret. by rewrite E.
Qed.

(** X4. [clear_fired] never raises; it removes from the ledger exactly the
    keys that start with the alert type and leaves the starts alone, so that
    afterwards the type is not recent at any severity. *)
Theorem clear_fired_removes_prefixed (alert_type : string) (t : Z) (tr : Tr.t) :
  ∃ tr1,
    Tr.clear_fired alert_type t tr = Ok (tt, tr1)
    ∧ Tr.condition_starts tr1 = Tr.condition_starts tr
    ∧ (∀ key, Tr.fired_alerts tr1 !! key =
              if String.prefix alert_type key then None
              else Tr.fired_alerts tr !! key)
    ∧ ∀ severity cooldown t1,
        Tr.was_fired_recently alert_type severity cooldown t1 tr1 = Ok (false, tr1).
Proof.
  exists (cleared alert_type tr). split; [apply clear_fired_closed|].
  split; [done|]. split; [apply cleared_lookup|].
  intros severity cooldown t1.
  unfold Tr.was_fired_recently, bind, get, ret.
  rewrite cleared_lookup, prefix_append. done.
Qed.

(** X5. [clear_fired] matches by [startswith]: clearing a type also clears
    the entries of every type whose name starts with it. *)
Theorem clear_fired_clears_longer_types (alert_type longer severity : string)
    (t0 t1 t2 : Z) (tr : Tr.t) :
  String.prefix alert_type longer = true →
  ∃ tr1 tr2,
    Tr.mark_fired longer severity t0 tr = Ok (tt, tr1)
    ∧ Tr.clear_fired alert_type t1 tr1 = Ok (tt, tr2)
    ∧ ∀ cooldown,
        Tr.was_fired_recently longer severity cooldown t2 tr2 = Ok (false, tr2).
Proof.
  intros Hp.
  eexists. exists (cleared alert_type
    (Tr.set_fired_alerts (<[longer +:+ "_" +:+ severity := t0]> (Tr.fired_alerts tr)) tr)).
  split; [reflexivity|]. split; [apply clear_fired_closed|].
  intros cooldown.
  unfold Tr.was_fired_recently, bind, get, ret.
  rewrite cleared_lookup.
  apply prefix_inv in Hp as [rest ->].
  assert (String.prefix alert_type ((alert_type +:+ rest) +:+ "_" +:+ severity) = true) as ->.
  { clear. generalize ("_" +:+ severity). intros s.
    induction alert_type as [|a p IH].
    - by destruct ((EmptyString +:+ rest) +:+ s).
    - change (String.prefix (String a p) (String a ((p +:+ rest) +:+ s)) = true).
      simpl. destruct (Ascii.ascii_dec a a); [apply IH|done]. }
  done.
Qed.

Lemma clear_fired_clears_longer_types_witness :
  ∃ tr1 tr2,
    Tr.mark_fired "no_therapy_high" "high" 10 Tr.new = Ok (tt, tr1)
    ∧ Tr.clear_fired "no_therapy" 20 tr1 = Ok (tt, tr2)
    ∧ ∀ cooldown,
        Tr.was_fired_recently "no_therapy_high" "high" cooldown 30 tr2 = Ok (false, tr2).
Proof.
  apply (clear_fired_clears_longer_types "no_therapy" "no_therapy_high" "high"
           10 20 30 Tr.new).
  reflexivity.
Defined.

(** ** Severity and the fields an item reads *)

(** X6. [_get_severity] looks the severity string up in [SEVERITY_MAP] and
    falls back to WARNING for any other string, without a [KeyError]. *)
Theorem get_severity_falls_back_to_warning (cfg : IC.t) :
  (Ev._get_severity cfg = CRITICAL ↔ IC.severity cfg = "critical")
  ∧ (Ev._get_severity cfg = HIGH ↔ IC.severity cfg = "high")
  ∧ (Ev._get_severity cfg = INFO ↔ IC.severity cfg = "info")
  ∧ (Ev._get_severity cfg = WARNING ↔
     IC.severity cfg ∉ ["critical"; "high"; "info"]).
Proof.
  unfold Ev._get_severity, SEVERITY_MAP.
  generalize (IC.severity cfg). intros s.
  assert (∀ x : string, x ∈ ["critical"; "high"; "info"] ↔
            x = "critical" ∨ x = "high" ∨ x = "info") as Hin.
  { intros x. rewrite !elem_of_cons, elem_of_nil. tauto. }
  rewrite Hin.
  destruct (decide (s = "critical")) as [->|N1];
    [rewrite lookup_insert_eq; cbn; intuition congruence|].
  rewrite lookup_insert_ne by done.
  destruct (decide (s = "high")) as [->|N2];
    [rewrite lookup_insert_eq; cbn; intuition congruence|].
  rewrite lookup_insert_ne by done.
  destruct (decide (s = "warning")) as [->|N3];
    [rewrite lookup_insert_eq; cbn; intuition congruence|].
  rewrite lookup_insert_ne by done.
  destruct (decide (s = "info")) as [->|N4];
    [rewrite lookup_insert_eq; cbn; intuition congruence|].
  rewrite lookup_insert_ne by done. rewrite lookup_empty. cbn.
  intuition congruence.
Qed.

(** Two configurations that differ in a field that is not read give the
    same closed form. *)
Ltac same_closed c :=
  cbv beta zeta delta [update_item];
  rewrite ?decide_True by done; rewrite ?decide_False by done;
  unfold evaluate_closed, vitals_closed, spo2_closed, hr_closed, battery_closed,
    disconnect_closed, no_therapy_closed, in_sleep_hours, tier_closed,
    fire_closed, ledger_key, Ev._get_severity, Ev._should_bypass,
    with_bypass_on_therapy, with_duration_seconds;
  cbn [spo2_critical_on_therapy spo2_critical_off_therapy spo2_warning hr_high
       hr_low disconnect no_therapy_at_night_info no_therapy_at_night_high
       battery_warning battery_critical sleep_hours
       IC.threshold IC.duration_seconds IC.resend_interval_seconds IC.severity
       IC.enabled IC.bypass_on_therapy];
  destruct (bool_decide (avaps_state c = ON));
  cbn [IC.threshold IC.duration_seconds IC.resend_interval_seconds IC.severity
       IC.enabled IC.bypass_on_therapy];
  reflexivity.

(** X7. The SpO2 critical tiers and the two therapy-absence tiers never read
    [bypass_on_therapy]: whatever the flag of such an item, [evaluate]
    returns the same alerts and leaves the same state. *)
Theorem bypass_flag_unread_by_four_items config i (b : bool) c self :
  i ∈ [Spo2CriticalOn; Spo2CriticalOff; NoTherapyHigh; NoTherapyInfo] →
  evaluate_cycle (update_item i (with_bypass_on_therapy b) config) c self
  = evaluate_cycle config c self.
Proof.
  intros Hi. rewrite !evaluate_cycle_closed. f_equal.
  destruct config.
  repeat (apply elem_of_cons in Hi as [->|Hi]; [same_closed c|]).
  by apply elem_of_nil in Hi.
Qed.

Lemma bypass_flag_unread_by_four_items_witness :
  evaluate_cycle
    (update_item Spo2CriticalOn (with_bypass_on_therapy true) Example.config)
    (Example.cycle Example.noon (Some (Example.reading_of 80 70 80)) ON true)
    Ev.new
  = evaluate_cycle Example.config
      (Example.cycle Example.noon (Some (Example.reading_of 80 70 80)) ON true)
      Ev.new.
Proof.
  apply (bypass_flag_unread_by_four_items Example.config Spo2CriticalOn true).
  left.
Defined.

(** X8. The disconnect item, the two therapy-absence tiers and the two
    battery items never read [duration_seconds]: their dwell is [threshold]
    in minutes, and the battery items have none. *)
Theorem duration_seconds_unread_by_five_items config i (d : number) c self :
  i ∈ [Disconnect; NoTherapyHigh; NoTherapyInfo; BatteryCritical; BatteryWarning] →
  evaluate_cycle (update_item i (with_duration_seconds d) config) c self
  = evaluate_cycle config c self.
Proof.
  intros Hi. rewrite !evaluate_cycle_closed. f_equal.
  destruct config.
  repeat (apply elem_of_cons in Hi as [->|Hi]; [same_closed c|]).
  by apply elem_of_nil in Hi.
Qed.

Lemma duration_seconds_unread_by_five_items_witness :
  evaluate_cycle
    (update_item Disconnect (with_duration_seconds (of_int 86400)) Example.config)
    (Example.cycle Example.noon None OFF false) Ev.new
  = evaluate_cycle Example.config
      (Example.cycle Example.noon None OFF false) Ev.new.
Proof.
  apply (duration_seconds_unread_by_five_items Example.config Disconnect (of_int 86400)).
  left.
Defined.

(** ** The output of one cycle *)

Lemma one_of_nil tys : one_of tys [].
Proof. by left. Qed.

Lemma one_of_weaken tys tys' a : tys ⊆ tys' → one_of tys a → one_of tys' a.
Proof. intros Hs [->|(x & -> & Hx)]; [by left|right; eauto]. Qed.

Lemma fire_closed_one now cfg ty aty msg o1 o2 tr a tr' :
  fire_closed now cfg ty aty msg o1 o2 tr = (a, tr') → one_of [aty] a.
Proof.
  unfold fire_closed. intros E.
  destruct (within_cooldown _ _ _); [injection E as <- _; apply one_of_nil|].
  destruct (IC.enabled cfg); injection E as <- _; [|apply one_of_nil].
  right. eexists. split; [done|]. cbn. set_solver.
Qed.

Lemma tier_closed_one now cfg ck ty aty dwell msg o1 o2 ev tr a tr' :
  tier_closed now cfg ck ty aty dwell msg o1 o2 ev tr = (a, tr') → one_of [aty] a.
Proof.
  unfold tier_closed. intros E. destruct ev.
  - injection E as <- _. apply one_of_nil.
  - injection E as <- _. apply one_of_nil.
  - cbv zeta in E. destruct (dwell _).
    + by apply fire_closed_one in E.
    + injection E as <- _. apply one_of_nil.
Qed.

Lemma one_of_either ty1 ty2 a1 a2 :
  one_of [ty1] a1 → one_of [ty2] a2 → (a1 ≠ [] → a2 = []) →
  one_of [ty1; ty2] (a1 ++ a2).
Proof.
  intros [->|(x & -> & Hx)] H2 Hn.
  - cbn. eapply one_of_weaken; [|exact H2]. set_solver.
  - rewrite Hn by done. right. exists x. split; [done|]. set_solver.
Qed.

Lemma spo2_closed_one config now r ton tr a tr' :
  spo2_closed config now r ton tr = (a, tr') →
  one_of [SPO2_CRITICAL; SPO2_WARNING] a.
Proof.
  intros E.
  apply spo2_closed_stages in E as (a1 & tr1 & a2 & -> & E1 & E2).
  apply one_of_either.
  - by apply tier_closed_one in E1.
  - by apply tier_closed_one in E2.
  - intros Hne.
    pose proof (spo2_warning_event _ _ _ _ _ _ _ E1) as Hnil.
    destruct a1 as [|x1 a1]; [done|].
    cbn [not_] in Hnil. symmetry in Hnil. apply negb_false_iff in Hnil.
    rewrite Hnil in E2. cbn [orb observe] in E2. by injection E2 as <- _.
Qed.

Lemma hr_closed_one config now r ton tr a tr' :
  hr_closed config now r ton tr = (a, tr') →
  ∃ a1 a2, a = a1 ++ a2 ∧ one_of [HR_HIGH] a1 ∧ one_of [HR_LOW] a2.
Proof.
  unfold hr_closed. intros E.
  destruct (tier_closed _ _ "hr_high" _ _ _ _ _ _ _ _) as [a1 tr1] eqn:E1.
  destruct (tier_closed _ _ "hr_low" _ _ _ _ _ _ _ _) as [a2 tr2] eqn:E2.
  injection E as <- _. exists a1, a2. split; [done|].
  split; [by apply tier_closed_one in E1|by apply tier_closed_one in E2].
Qed.

Lemma battery_closed_one config now r ton self a self' :
  battery_closed config now r ton self = (a, self') →
  one_of [BATTERY_CRITICAL; BATTERY_WARNING] a.
Proof.
  unfold battery_closed. intros E.
  destruct (bool_decide _); [injection E as <- _; apply one_of_nil|].
  cbv zeta in E.
  destruct (negb (Ev._should_bypass (battery_critical config) ton) && _).
  - destruct (fire_closed _ _ "battery_critical" _ _ _ _ _) as [a1 tr1] eqn:E1.
    injection E as <- _. apply fire_closed_one in E1.
    eapply one_of_weaken; [|exact E1]. set_solver.
  - destruct (negb (Ev._should_bypass (battery_warning config) ton) && _).
    + destruct (fire_closed _ _ "battery_warning" _ _ _ _ _) as [a1 tr1] eqn:E1.
      injection E as <- _. apply fire_closed_one in E1.
      eapply one_of_weaken; [|exact E1]. set_solver.
    + injection E as <- _. apply one_of_nil.
Qed.

Lemma disconnect_closed_one config now conn ton tr a tr' :
  disconnect_closed config now conn ton tr = (a, tr') →
  one_of [DISCONNECT] a ∧ (conn = true → a = []).
Proof.
  unfold disconnect_closed. intros E. split; [by apply tier_closed_one in E|].
  intros ->. eapply tier_closed_silent; [exact E|].
  by destruct (Ev._should_bypass _ _).
Qed.

Lemma no_therapy_closed_one config now st tr a tr' :
  no_therapy_closed config now st tr = (a, tr') →
  one_of [NO_THERAPY_AT_NIGHT] a.
Proof.
  unfold no_therapy_closed. intros E.
  destruct (in_sleep_hours config now && _); [|injection E as <- _; apply one_of_nil].
  cbv zeta in E.
  destruct (if reached (IC.threshold (no_therapy_at_night_high config)) _
            then _ else _) as [a1 tr1] eqn:E1.
  destruct (if not_ a1 && _ then _ else _) as [a2 tr2] eqn:E2.
  injection E as <- _.
  assert (one_of [NO_THERAPY_AT_NIGHT] a1) as H1.
  { destruct (reached _ _); [by apply fire_closed_one in E1|].
    injection E1 as <- _. apply one_of_nil. }
  assert (one_of [NO_THERAPY_AT_NIGHT] a2 ∧ (a1 ≠ [] → a2 = [])) as [H2 Hn].
  { destruct a1 as [|x a1].
    - split; [|done]. destruct (not_ [] && _); [by apply fire_closed_one in E2|].
      injection E2 as <- _. apply one_of_nil.
    - cbn [not_ andb] in E2. injection E2 as <- _. split; [apply one_of_nil|done]. }
  destruct H1 as [->|(x & -> & Hx)]; [exact H2|].
  rewrite Hn by done. right. eauto.
Qed.

(** X9. One call of [evaluate] returns its alerts in a fixed order, at most
    one of each kind: a disconnect alert, an SpO2 alert (critical or
    warning), an HR high alert, an HR low alert, a battery alert (critical or
    warning), a therapy-absence alert.  The disconnect alert needs a lost
    connection and the vitals alerts a connected, valid reading, so a call
    returns at most five alerts. *)
Theorem evaluate_output_shape config c self :
  ∃ out self',
    evaluate_cycle config c self = Ok (out, self')
    ∧ (∃ d s h l b n,
         out = d ++ s ++ h ++ l ++ b ++ n
         ∧ one_of [DISCONNECT] d
         ∧ one_of [SPO2_CRITICAL; SPO2_WARNING] s
         ∧ one_of [HR_HIGH] h
         ∧ one_of [HR_LOW] l
         ∧ one_of [BATTERY_CRITICAL; BATTERY_WARNING] b
         ∧ one_of [NO_THERAPY_AT_NIGHT] n
         ∧ (ble_connected c = true → d = [])
         ∧ (vitals c = None → s = [] ∧ h = [] ∧ l = [] ∧ b = []))
    ∧ (length out ≤ 5)%nat.
Proof.
  rewrite evaluate_cycle_closed.
  destruct (evaluate_closed config c self) as [out self'] eqn:E.
  exists out, self'. split; [done|].
  unfold evaluate_closed in E.
  destruct (disconnect_closed _ _ _ _ _) as [d tr0] eqn:E0.
  destruct (vitals_closed _ _ _) as [v self1] eqn:E1.
  destruct (no_therapy_closed _ _ _ _) as [n tr2] eqn:E2.
  injection E as <- _.
  apply disconnect_closed_one in E0 as [Hd Hconn].
  apply no_therapy_closed_one in E2.
  assert (∃ s h l b, v = s ++ h ++ l ++ b
            ∧ one_of [SPO2_CRITICAL; SPO2_WARNING] s
            ∧ one_of [HR_HIGH] h ∧ one_of [HR_LOW] l
            ∧ one_of [BATTERY_CRITICAL; BATTERY_WARNING] b
            ∧ (vitals c = None → s = [] ∧ h = [] ∧ l = [] ∧ b = [])
            ∧ (v ≠ [] → ble_connected c = true))
    as (s & h & l & b & -> & Hs & Hh & Hl & Hb & Hnone & Hv).
  { rewrite vitals_closed_vitals in E1. unfold vitals in *.
    destruct (reading c) as [r|]; [destruct (ble_connected c && is_valid r) eqn:G|].
    - destruct (spo2_closed _ _ _ _ _) as [s tr1] eqn:Es.
      destruct (hr_closed _ _ _ _ _) as [hl tr3] eqn:Eh.
      destruct (battery_closed _ _ _ _ _) as [b self3] eqn:Eb.
      injection E1 as <- _.
      apply spo2_closed_one in Es. apply battery_closed_one in Eb.
      apply hr_closed_one in Eh as (h & l & -> & Hh & Hl).
      exists s, h, l, b. rewrite <- !app_assoc.
      repeat (split; [done|]). intros _. by apply andb_true_iff in G as [? _].
    - injection E1 as <- _. exists [], [], [], [].
      repeat (split; [done || apply one_of_nil|]). done.
    - injection E1 as <- _. exists [], [], [], [].
      repeat (split; [done || apply one_of_nil|]). done. }
  assert (∀ tys a, one_of tys a → (length a ≤ 1)%nat) as Hlen.
  { intros tys a [->|(x & -> & _)]; cbn; lia. }
  split.
  - exists d, s, h, l, b, n. rewrite <- !app_assoc. done.
  - apply Hlen in Hs, Hh, Hl, Hb, E2. rewrite !length_app.
    destruct d as [|x d]; [cbn; lia|].
    destruct (decide (s ++ h ++ l ++ b = [])) as [Hnil|Hne].
    + apply Hlen in Hd. apply (f_equal length) in Hnil.
      rewrite !length_app in Hnil. cbn in *. lia.
    + apply Hv in Hne. by specialize (Hconn Hne).
Qed.

(** ** What a cycle leaves alone *)

Lemma evaluate_closed_parts config c self out self' :
  evaluate_closed config c self = (out, self') →
  ∃ d tr0 v self1 n tr2,
    disconnect_closed config (now c) (ble_connected c) (therapy_on c)
      (Ev.tracker self) = (d, tr0)
    ∧ vitals_closed config c (with_tracker tr0 self) = (v, self1)
    ∧ no_therapy_closed config (now c) (avaps_state c) (Ev.tracker self1) = (n, tr2)
    ∧ out = (d ++ v) ++ n
    ∧ self' = with_tracker tr2 self1.
Proof.
  unfold evaluate_closed, therapy_on. intros E.
  destruct (disconnect_closed _ _ _ _ _) as [d tr0] eqn:E0.
  destruct (vitals_closed _ _ _) as [v self1] eqn:E1.
  destruct (no_therapy_closed _ _ _ _) as [n tr2] eqn:E2.
  injection E as <- <-. by exists d, tr0, v, self1, n, tr2.
Qed.

(** A property of the states and of the outputs that every cycle of a run
    keeps. *)
Lemma run_keeps config (P : Cycle → Prop) (R : Ev.t → Ev.t → Prop)
    (Q : list Alert → Prop) cycles self :
  (∀ s, R s s) → (∀ s1 s2 s3, R s1 s2 → R s2 s3 → R s1 s3) →
  (∀ c s out s', P c → evaluate_closed config c s = (out, s') → R s s' ∧ Q out) →
  Forall P cycles →
  ∃ outs self', run config cycles self = Ok (outs, self')
                ∧ R self self' ∧ Forall Q outs.
Proof.
  intros Hrefl Htrans Hstep HP. revert self.
  induction HP as [|c cycles Hc _ IH]; intros self.
  - exists [], self. by repeat split.
  - cbn [run]. rewrite evaluate_cycle_closed.
    destruct (evaluate_closed config c self) as [out self1] eqn:E.
    destruct (Hstep _ _ _ _ Hc E) as [HR HQ].
    destruct (IH self1) as (outs & self' & -> & HR' & HQ').
    exists (out :: outs), self'. split; [done|]. split; [by eapply Htrans|].
    by constructor.
Qed.

Lemma evaluate_closed_gap config c self out self' :
  vitals c = None →
  evaluate_closed config c self = (out, self') →
  touches ["disconnect"; "no_therapy"]
    ["disconnect"; "no_therapy_info"; "no_therapy_high"]
    (of_types [DISCONNECT; NO_THERAPY_AT_NIGHT])
    (Ev.tracker self) out (Ev.tracker self')
  ∧ Ev._last_battery_level self' = Ev._last_battery_level self.
Proof.
  intros Hv E.
  apply evaluate_closed_parts in E
    as (d & tr0 & v & self1 & n & tr2 & E0 & E1 & E2 & -> & ->).
  rewrite vitals_closed_vitals, Hv in E1. injection E1 as <- <-.
  rewrite app_nil_r. split; [|done].
  apply disconnect_closed_touches in E0. apply no_therapy_closed_touches in E2.
  eapply touches_trans.
  - eapply touches_weaken; [| |
      |exact E0]; [set_solver|set_solver|unfold of_types; set_solver].
  - eapply touches_weaken; [| |
      |exact E2]; [set_solver|set_solver|unfold of_types; set_solver].
Qed.

(** X10. While no valid reading arrives from a connected oximeter (no
    reading, an invalid one, or a lost connection), the calls of [evaluate]
    leave the state of the vitals alone: the starts of the SpO2 and heart
    rate conditions, the ledger entries of the SpO2, heart rate and battery
    alerts and the last battery level are after the gap what they were
    before it, and only disconnect and therapy-absence alerts are returned.
    A dwell that began before the gap goes on counting through it. *)
Theorem vitals_state_survives_gap config cycles self :
  Forall (λ c, vitals c = None) cycles →
  ∃ outs self',
    run config cycles self = Ok (outs, self')
    ∧ (∀ k, k ∈ vitals_keys → starts self' !! k = starts self !! k)
    ∧ (∀ p lk, p ∈ vitals_prefixes → String.prefix p lk = true →
               fired self' !! lk = fired self !! lk)
    ∧ Ev._last_battery_level self' = Ev._last_battery_level self
    ∧ Forall (Forall (λ a, alert_type a ∈ [DISCONNECT; NO_THERAPY_AT_NIGHT])) outs.
Proof.
  intros Hgap.
  destruct (run_keeps config (λ c, vitals c = None)
    (λ s s', (∀ k, k ∈ vitals_keys → starts s' !! k = starts s !! k)
             ∧ (∀ p lk, p ∈ vitals_prefixes → String.prefix p lk = true →
                        fired s' !! lk = fired s !! lk)
             ∧ Ev._last_battery_level s' = Ev._last_battery_level s)
    (Forall (λ a, alert_type a ∈ [DISCONNECT; NO_THERAPY_AT_NIGHT]))
    cycles self) as (outs & self' & Hrun & (H1 & H2 & H3) & HQ); [| | |exact Hgap|].
  - done.
  - intros s1 s2 s3 (A1 & A2 & A3) (B1 & B2 & B3). split; [|split].
    + intros k Hk. by rewrite B1, A1.
    + intros p lk Hp Hlk. by rewrite (B2 p), (A2 p).
    + by rewrite B3.
  - intros c s out s' Hv E.
    destruct (evaluate_closed_gap _ _ _ _ _ Hv E) as [(T1 & T2 & T3) HL].
    split; [|exact T3]. split; [|split; [|exact HL]].
    + intros k Hk. apply T1. unfold vitals_keys in Hk. set_solver.
    + intros p lk Hp Hlk. apply T2.
      unfold vitals_prefixes in Hp.
      repeat (apply elem_of_cons in Hp as [->|Hp];
              [apply prefix_inv in Hlk as [rest ->]; repeat constructor|]).
      by apply elem_of_nil in Hp.
  - by exists outs, self'.
Qed.

Lemma vitals_state_survives_gap_witness :
  let gap :=
    [Example.cycle Example.noon None OFF false;
     Example.cycle (Example.noon + 60) (Some {| spo2 := 0; heart_rate := 0; battery_level := 0;
                is_valid := false |}) OFF true] in
  let self :=
    Example.evaluator (<["hr_high" := Example.seconds (Example.noon - 500)]> ∅)
      ∅ (Some 80) in
  Forall (λ c, vitals c = None) gap
  ∧ ∃ outs self',
      run Example.config gap self = Ok (outs, self')
      ∧ (∀ k, k ∈ vitals_keys → starts self' !! k = starts self !! k)
      ∧ (∀ p lk, p ∈ vitals_prefixes → String.prefix p lk = true →
                 fired self' !! lk = fired self !! lk)
      ∧ Ev._last_battery_level self' = Ev._last_battery_level self
      ∧ Forall (Forall (λ a, alert_type a ∈ [DISCONNECT; NO_THERAPY_AT_NIGHT])) outs.
Proof.
  assert (Forall (λ c, vitals c = None)
    [Example.cycle Example.noon None OFF false;
     Example.cycle (Example.noon + 60) (Some {| spo2 := 0; heart_rate := 0; battery_level := 0;
                is_valid := false |}) OFF true])
    as H by (repeat constructor).
  split; [exact H|].
  exact (vitals_state_survives_gap Example.config _ _ H).
Defined.

(** ** The two SpO2 critical timers *)

Lemma spo2_closed_touches_mode config now r ton tr a tr' :
  spo2_closed config now r ton tr = (a, tr') →
  touches [item_type (spo2_critical_item ton); "spo2_warning"]
    [item_type (spo2_critical_item ton); "spo2_warning"]
    (of_types [SPO2_CRITICAL; SPO2_WARNING]) tr a tr'.
Proof.
  unfold spo2_closed. cbv zeta.
  destruct (tier_closed _ _ _ _ SPO2_CRITICAL _ _ _ _ _ _) as [a1 tr1] eqn:E1.
  destruct (tier_closed _ _ _ _ SPO2_WARNING _ _ _ _ _ _) as [a2 tr2] eqn:E2.
  intros [= <- <-]. eapply touches_trans.
  - destruct ton; touches_tier E1.
  - destruct ton; touches_tier E2.
Qed.

Lemma evaluate_closed_touches_mode config c self out self' :
  evaluate_closed config c self = (out, self') →
  touches
    ["disconnect"; item_type (spo2_critical_item (therapy_on c)); "spo2_warning";
     "hr_high"; "hr_low"; "no_therapy"]
    ["disconnect"; item_type (spo2_critical_item (therapy_on c)); "spo2_warning";
     "hr_high"; "hr_low"; "battery_critical"; "battery_warning";
     "no_therapy_info"; "no_therapy_high"]
    (λ _, True) (Ev.tracker self) out (Ev.tracker self').
Proof.
  intros E.
  apply evaluate_closed_parts in E
    as (d & tr0 & v & self1 & n & tr2 & E0 & E1 & E2 & -> & ->).
  apply disconnect_closed_touches in E0. apply no_therapy_closed_touches in E2.
  assert (touches
    [item_type (spo2_critical_item (therapy_on c)); "spo2_warning"; "hr_high"; "hr_low"]
    [item_type (spo2_critical_item (therapy_on c)); "spo2_warning"; "hr_high"; "hr_low";
     "battery_critical"; "battery_warning"]
    (λ _, True) tr0 v (Ev.tracker self1)) as Ev.
  { rewrite vitals_closed_vitals in E1. destruct (vitals c) as [r|].
    - destruct (spo2_closed _ _ _ _ _) as [a1 tr1] eqn:Es.
      destruct (hr_closed _ _ _ _ _) as [a2 tr3] eqn:Eh.
      destruct (battery_closed _ _ _ _ _) as [a3 self3] eqn:Eb.
      injection E1 as <- <-.
      apply spo2_closed_touches_mode in Es. apply hr_closed_touches in Eh.
      apply battery_closed_touches in Eb. cbn in Eb.
      eapply touches_trans; [eapply touches_trans|].
      + eapply touches_weaken, Es; set_solver.
      + eapply touches_weaken, Eh; set_solver.
      + eapply touches_weaken, Eb; set_solver.
    - injection E1 as <- <-. eapply touches_weaken, (touches_nil (λ _, True)); set_solver. }
  eapply touches_trans; [eapply touches_trans|].
  - eapply touches_weaken, E0; set_solver.
  - eapply touches_weaken, Ev; set_solver.
  - eapply touches_weaken, E2; set_solver.
Qed.

(** X11. The two SpO2 critical tiers keep separate timers, and a call of
    [evaluate] only visits the one of the current therapy mode: while
    therapy stays ON, the start and the ledger entries of
    "spo2_critical_off" are neither advanced nor reset, and the other way
    round.  A start recorded in one mode is still there when that mode
    comes back. *)
Theorem other_therapy_mode_timer_frozen config (ton : bool) cycles self :
  Forall (λ c, therapy_on c = ton) cycles →
  let other := item_type (spo2_critical_item (negb ton)) in
  ∃ outs self',
    run config cycles self = Ok (outs, self')
    ∧ starts self' !! other = starts self !! other
    ∧ ∀ lk, String.prefix other lk = true → fired self' !! lk = fired self !! lk.
Proof.
  intros Hmode other.
  destruct (run_keeps config (λ c, therapy_on c = ton)
    (λ s s', starts s' !! other = starts s !! other
             ∧ ∀ lk, String.prefix other lk = true → fired s' !! lk = fired s !! lk)
    (λ _, True) cycles self) as (outs & self' & Hrun & (H1 & H2) & _);
    [| | |exact Hmode|].
  - done.
  - intros s1 s2 s3 [A1 A2] [B1 B2]. split; [by rewrite B1|].
    intros lk Hlk. by rewrite B2, A2.
  - intros c s out s' Hc E. split; [|done].
    apply evaluate_closed_touches_mode in E as (T1 & T2 & _).
    rewrite Hc in T1, T2. subst other. split.
    + apply T1. destruct ton; cbn; set_solver.
    + intros lk Hlk. apply T2.
      apply prefix_inv in Hlk as [rest ->].
      destruct ton; repeat constructor.
  - by exists outs, self'.
Qed.

Lemma other_therapy_mode_timer_frozen_witness :
  let cycles :=
    [Example.cycle Example.noon (Some (Example.reading_of 80 70 80)) ON true;
     Example.cycle (Example.noon + 60) (Some (Example.reading_of 97 70 80)) ON true] in
  let self :=
    Example.evaluator (<["spo2_critical_off" := Example.seconds (Example.noon - 5)]> ∅)
      (<["spo2_critical_off_critical" := Example.seconds (Example.noon - 5)]> ∅)
      (Some 80) in
  ∃ outs self',
    run Example.config cycles self = Ok (outs, self')
    ∧ starts self' !! "spo2_critical_off" = starts self !! "spo2_critical_off"
    ∧ ∀ lk, String.prefix "spo2_critical_off" lk = true →
            fired self' !! lk = fired self !! lk.
Proof.
  apply (other_therapy_mode_timer_frozen Example.config true).
  repeat constructor.
Defined.

(** ** The instants a cycle records *)

Lemma stamps_refl now tr : stamps now tr tr.
Proof. split; intros; by right. Qed.

Lemma stamps_trans now tr1 tr2 tr3 :
  stamps now tr1 tr2 → stamps now tr2 tr3 → stamps now tr1 tr3.
Proof.
  intros [A1 A2] [B1 B2]. split.
  - intros k t H. apply B1 in H as [->|H]; [by left|by apply A1].
  - intros k t H. apply B2 in H as [->|H]; [by left|by apply A2].
Qed.

Lemma reset_to_stamps now k tr : stamps now tr (reset_to k tr).
Proof.
  split; [|intros; by right]. intros k' t. unfold reset_to. cbn.
  intros H. apply lookup_delete_Some in H as [_ H]. by right.
Qed.

Lemma cleared_stamps now ty tr : stamps now tr (cleared ty tr).
Proof.
  split; [intros; by right|]. intros lk t. rewrite cleared_lookup.
  destruct (String.prefix ty lk); [done|]. by right.
Qed.

Lemma started_stamps now k tr : stamps now tr (started now k tr).
Proof.
  split; [|intros ? ?; rewrite started_fired; by right].
  intros k' t. rewrite started_lookup. destruct (decide (k = k')) as [<-|].
  - destruct (Tr.condition_starts tr !! k); cbn; intros [= <-]; [by right|by left].
  - by right.
Qed.

Lemma fire_closed_stamps now cfg ty aty msg o1 o2 tr a tr' :
  fire_closed now cfg ty aty msg o1 o2 tr = (a, tr') → stamps now tr tr'.
Proof.
  unfold fire_closed. destruct (within_cooldown _ _ _).
  - intros [= _ <-]. apply stamps_refl.
  - intros [= _ <-]. split; [intros; by right|]. intros lk t. cbn.
    destruct (decide (ledger_key ty cfg = lk)) as [<-|].
    + rewrite lookup_insert_eq. intros [= <-]. by left.
    + rewrite lookup_insert_ne by done. by right.
Qed.

Lemma tier_closed_stamps now cfg ck ty aty dwell msg o1 o2 ev tr a tr' :
  tier_closed now cfg ck ty aty dwell msg o1 o2 ev tr = (a, tr') →
  stamps now tr tr'.
Proof.
  unfold tier_closed. destruct ev.
  - intros [= _ <-]. apply stamps_refl.
  - intros [= _ <-]. eapply stamps_trans; [apply reset_to_stamps|apply cleared_stamps].
  - cbv zeta. destruct (dwell _).
    + intros E. eapply stamps_trans; [apply started_stamps|].
      by eapply fire_closed_stamps.
    + intros [= _ <-]. apply started_stamps.
Qed.

Lemma evaluate_closed_stamps config c self out self' :
  evaluate_closed config c self = (out, self') →
  stamps (now c) (Ev.tracker self) (Ev.tracker self').
Proof.
  intros E.
  apply evaluate_closed_parts in E
    as (d & tr0 & v & self1 & n & tr2 & E0 & E1 & E2 & -> & ->).
  apply tier_closed_stamps in E0.
  assert (stamps (now c) tr0 (Ev.tracker self1)) as Ev.
  { rewrite vitals_closed_vitals in E1. destruct (vitals c) as [r|];
      [|injection E1 as _ <-; apply stamps_refl].
    destruct (spo2_closed _ _ _ _ _) as [a1 tr1] eqn:Es.
    destruct (hr_closed _ _ _ _ _) as [a2 tr3] eqn:Eh.
    destruct (battery_closed _ _ _ _ _) as [a3 self3] eqn:Eb.
    injection E1 as _ <-.
    apply spo2_closed_stages in Es as (s1 & trs & s2 & _ & Es1 & Es2).
    apply tier_closed_stamps in Es1, Es2.
    unfold hr_closed in Eh.
    destruct (tier_closed _ _ "hr_high" _ _ _ _ _ _ _ _) as [h1 trh] eqn:Eh1.
    destruct (tier_closed _ _ "hr_low" _ _ _ _ _ _ _ _) as [h2 trl] eqn:Eh2.
    injection Eh as _ <-.
    apply tier_closed_stamps in Eh1, Eh2.
    assert (stamps (now c) trl (Ev.tracker self3)) as Hb.
    { unfold battery_closed in Eb.
      destruct (bool_decide _); [injection Eb as _ <-; apply stamps_refl|].
      cbv zeta in Eb.
      destruct (negb (Ev._should_bypass (battery_critical config) (therapy_on c)) && _).
      - destruct (fire_closed _ _ "battery_critical" _ _ _ _ _) as [b1 trb] eqn:Eb1.
        injection Eb as _ <-. by apply fire_closed_stamps in Eb1.
      - destruct (negb (Ev._should_bypass (battery_warning config) (therapy_on c)) && _).
        + destruct (fire_closed _ _ "battery_warning" _ _ _ _ _) as [b1 trb] eqn:Eb1.
          injection Eb as _ <-. by apply fire_closed_stamps in Eb1.
        + injection Eb as _ <-. apply stamps_refl. }
    eauto using stamps_trans. }
  assert (stamps (now c) (Ev.tracker self1) tr2) as En.
  { unfold no_therapy_closed in E2.
    destruct (in_sleep_hours config (now c) && _).
    - cbv zeta in E2.
      destruct (if reached (IC.threshold (no_therapy_at_night_high config)) _
                then _ else _) as [n1 tr3] eqn:E3.
      destruct (if not_ n1 && _ then _ else _) as [n2 tr4] eqn:E4.
      injection E2 as _ <-.
      assert (stamps (now c) (started (now c) "no_therapy" (Ev.tracker self1)) tr3).
      { destruct (reached _ _); [by apply fire_closed_stamps in E3|].
        injection E3 as _ <-. apply stamps_refl. }
      assert (stamps (now c) tr3 tr4).
      { destruct (not_ n1 && _); [by apply fire_closed_stamps in E4|].
        injection E4 as _ <-. apply stamps_refl. }
      eauto using stamps_trans, started_stamps.
    - injection E2 as _ <-.
      eauto using stamps_trans, reset_to_stamps, cleared_stamps. }
  cbn. eauto using stamps_trans.
Qed.

Lemma stamps_until now bound tr tr' :
  stamped_until bound tr → bound ≤ now → stamps now tr tr' →
  stamped_until now tr'.
Proof.
  intros [A1 A2] Hb [B1 B2]. split.
  - intros k t H. apply B1 in H as [->|H]; [lia|]. apply A1 in H. lia.
  - intros k t H. apply B2 in H as [->|H]; [lia|]. apply A2 in H. lia.
Qed.

(** X12. Along a run whose clock never goes back, no recorded instant is
    ahead of the clock: at every call of [evaluate] the starts and the
    ledger entries in the tracker are at most the instant of the call, so
    the durations and elapsed times that the call computes are never
    negative. *)
Theorem recorded_instants_never_ahead config cycles self bound :
  stamped_until bound (Ev.tracker self) →
  Sorted Z.le (bound :: (now <$> cycles)) →
  ∀ j c s,
    cycles !! j = Some c → states config cycles self !! j = Some s →
    stamped_until (now c) (Ev.tracker s)
    ∧ stamped_until (now c) (Ev.tracker (next config c s))
    ∧ ∀ condition, ∃ d,
        Tr.duration_seconds condition (now c) (Ev.tracker s) = Ok (d, Ev.tracker s)
        ∧ (0 <= d)%Q.
Proof.
  revert self bound. induction cycles as [|c0 cycles IH]; intros self bound Hst Hs;
    [done|].
  cbn [fmap list_fmap] in Hs. apply Sorted_inv in Hs as [Hs Hhd].
  apply HdRel_inv in Hhd.
  assert (stamped_until (now c0) (Ev.tracker (next config c0 self))) as Hnext.
  { eapply stamps_until; [exact Hst|exact Hhd|].
    rewrite next_closed.
    destruct (evaluate_closed config c0 self) as [out self'] eqn:E.
    by apply evaluate_closed_stamps in E. }
  intros [|j] c s Hc Hs'.
  - injection Hc as <-. cbn in Hs'. injection Hs' as <-.
    destruct Hst as [A1 A2].
    split; [|split; [exact Hnext|]].
    + split; intros k t H; [apply A1 in H|apply A2 in H]; lia.
    + intros condition. unfold Tr.duration_seconds, bind, get, ret, datetime_now.
      destruct (Tr.condition_starts (Ev.tracker self) !! condition) as [t|] eqn:E.
      * eexists. split; [reflexivity|]. apply A1 in E.
        apply total_seconds_nonneg. lia.
      * eexists. split; [reflexivity|]. done.
  - cbn in Hc, Hs'. by eapply (IH _ (now c0)).
Qed.

Lemma recorded_instants_never_ahead_witness :
  let c0 := Example.cycle Example.noon (Some (Example.reading_of 97 130 80)) OFF true in
  let c1 := Example.cycle (Example.noon + 600)
              (Some (Example.reading_of 97 130 80)) OFF true in
  let s1 := next Example.config c0 Ev.new in
  stamped_until (now c1) (Ev.tracker s1)
  ∧ stamped_until (now c1) (Ev.tracker (next Example.config c1 s1))
  ∧ ∀ condition, ∃ d,
      Tr.duration_seconds condition (now c1) (Ev.tracker s1) = Ok (d, Ev.tracker s1)
      ∧ (0 <= d)%Q.
Proof.
  refine (recorded_instants_never_ahead Example.config
           [Example.cycle Example.noon (Some (Example.reading_of 97 130 80)) OFF true;
            Example.cycle (Example.noon + 600)
              (Some (Example.reading_of 97 130 80)) OFF true]
           Ev.new 0 _ _ 1%nat _ _ _ _).
  - split; intros k t H; cbn in H; by rewrite lookup_empty in H.
  - cbn [fmap list_fmap].
    repeat first [apply Sorted_nil | apply Sorted_cons | apply HdRel_nil
                 | apply HdRel_cons];
      vm_compute; discriminate.
  - reflexivity.
  - reflexivity.
Defined.

(** ** Battery alerts along a run *)

Lemma evaluate_closed_last_battery config c self out self' :
  evaluate_closed config c self = (out, self') →
  Ev._last_battery_level self' =
  match vitals c with
  | Some r => Some (battery_level r)
  | None => Ev._last_battery_level self
  end.
Proof.
  intros E.
  apply evaluate_closed_parts in E
    as (d & tr0 & v & self1 & n & tr2 & E0 & E1 & E2 & -> & ->).
  cbn [with_tracker Ev._last_battery_level].
  rewrite vitals_closed_vitals in E1. destruct (vitals c) as [r|];
    [|by injection E1 as _ <-].
  destruct (spo2_closed _ _ _ _ _) as [a1 tr1].
  destruct (hr_closed _ _ _ _ _) as [a2 tr3].
  destruct (battery_closed _ _ _ _ _) as [a3 self3] eqn:Eb.
  injection E1 as _ <-. unfold battery_closed in Eb.
  destruct (bool_decide _) eqn:Hd.
  - injection Eb as _ <-. by apply bool_decide_eq_true in Hd.
  - cbv zeta in Eb.
    destruct (if negb _ && _ then _ else _) as [a tr']. by injection Eb as _ <-.
Qed.

Lemma evaluate_closed_battery_count config c self out self' :
  evaluate_closed config c self = (out, self') →
  (length (alerts_of BatteryCritical out)
   + length (alerts_of BatteryWarning out) ≤ 1)%nat
  ∧ ((∀ r, vitals c = Some r → Ev._last_battery_level self = Some (battery_level r)) →
     alerts_of BatteryCritical out = [] ∧ alerts_of BatteryWarning out = []).
Proof.
  intros E.
  assert (∀ i, i = BatteryCritical ∨ i = BatteryWarning →
            (item_active config i c self = false → alerts_of i out = [])
            ∧ (length (alerts_of i out) ≤ 1)%nat) as Hi.
  { intros i Hi.
    assert (item_active config i c self = false → alerts_of i out = []) as Hoff.
    { intros Hoff. apply silent_alerts_of.
      eapply evaluate_closed_silent; [exact E|exact Hoff| |]; by destruct Hi as [->| ->]. }
    split; [exact Hoff|].
    destruct (item_active config i c self) eqn:Hact;
      [|rewrite Hoff by done; cbn; lia].
    destruct (evaluate_closed_decides _ _ _ _ _ _ E Hact) as (_ & _ & D3 & _).
    unfold alerts_of. rewrite D3. destruct (_ && _); lia. }
  destruct (Hi BatteryCritical (or_introl eq_refl)) as [Hc0 Hc1].
  destruct (Hi BatteryWarning (or_intror eq_refl)) as [Hw0 Hw1].
  split.
  - destruct (item_active config BatteryCritical c self) eqn:Hc.
    + rewrite Hw0; [cbn; lia|].
      unfold item_active in Hc |- *. destruct (vitals c) as [r|]; [|done].
      apply andb_true_iff in Hc as [_ ->]. by rewrite andb_false_r.
    + rewrite Hc0 by done. cbn. lia.
  - intros Hseen. split; [apply Hc0|apply Hw0]; unfold item_active;
      destruct (vitals c) as [r|]; try done;
      rewrite (bool_decide_eq_true_2 _ (Hseen r eq_refl)); done.
Qed.

(** X13. A battery alert needs a change of level: in a run in which every
    valid reading shows the same battery level, at most one call of
    [evaluate] returns a battery alert, however long the run lasts and
    whatever the cooldown; and none does when that level is the one seen
    last before the run. *)
Theorem battery_alert_once_per_level config cycles self (level : Z) :
  Forall (λ c, ∀ r, vitals c = Some r → battery_level r = level) cycles →
  ∃ outs self',
    run config cycles self = Ok (outs, self')
    ∧ (sum_list (alert_counts BatteryCritical outs)
       + sum_list (alert_counts BatteryWarning outs) ≤ 1)%nat
    ∧ (Ev._last_battery_level self = Some level →
       Forall (λ out, alerts_of BatteryCritical out = []
                      ∧ alerts_of BatteryWarning out = []) outs).
Proof.
  intros Hlevel. revert self.
  induction Hlevel as [|c cycles Hc _ IH]; intros self.
  { exists [], self. split; [done|]. split; [cbn; lia|done]. }
  cbn [run]. rewrite evaluate_cycle_closed.
  destruct (evaluate_closed config c self) as [out self1] eqn:E.
  destruct (IH self1) as (outs & self' & -> & Hsum & Hseen).
  exists (out :: outs), self'. split; [done|].
  pose proof (evaluate_closed_last_battery _ _ _ _ _ E) as Hlast.
  destruct (evaluate_closed_battery_count _ _ _ _ _ E) as [Hone Hnone].
  assert (∀ l : list (list Alert),
            Forall (λ out, alerts_of BatteryCritical out = []
                           ∧ alerts_of BatteryWarning out = []) l →
            sum_list (alert_counts BatteryCritical l) = 0%nat
            ∧ sum_list (alert_counts BatteryWarning l) = 0%nat) as Hzero.
  { induction 1 as [|o l [Ho1 Ho2] _ [IH1 IH2]]; [done|].
    unfold alert_counts in *. cbn. cbn in IH1, IH2. rewrite Ho1, Ho2, IH1, IH2. done. }
  assert (∀ i, sum_list (alert_counts i (out :: outs))
               = (length (alerts_of i out) + sum_list (alert_counts i outs))%nat)
    as Hcons by done.
  rewrite !Hcons.
  split.
  - destruct (vitals c) as [r|] eqn:Hv.
    + rewrite (Hc r eq_refl) in Hlast.
      destruct (Hzero _ (Hseen Hlast)) as [Z1 Z2]. lia.
    + destruct Hnone as [N1 N2]; [done|]. rewrite N1, N2. cbn. lia.
  - intros Hs. constructor.
    + apply Hnone. intros r Hr. rewrite Hs. f_equal. symmetry. by apply Hc.
    + apply Hseen. rewrite Hlast. destruct (vitals c) as [r|] eqn:Hv; [|done].
      f_equal. by apply Hc.
Qed.

Lemma battery_alert_once_per_level_witness :
  let cycles :=
    [Example.cycle Example.noon (Some (Example.reading_of 97 70 5)) OFF true;
     Example.cycle (Example.noon + 7200) (Some (Example.reading_of 97 70 5)) OFF true] in
  ∃ outs self',
    run Example.config cycles Ev.new = Ok (outs, self')
    ∧ (sum_list (alert_counts BatteryCritical outs)
       + sum_list (alert_counts BatteryWarning outs) ≤ 1)%nat
    ∧ (Ev._last_battery_level Ev.new = Some 5 →
       Forall (λ out, alerts_of BatteryCritical out = []
                      ∧ alerts_of BatteryWarning out = []) outs).
Proof.
  apply (battery_alert_once_per_level Example.config _ Ev.new 5).
  repeat constructor; intros r Hr; injection Hr as <-; reflexivity.
Defined.

(** ** No alert without cause *)

Lemma spo2_critical_silent config c self out self' :
  evaluate_closed config c self = (out, self') →
  item_active config (spo2_critical_item (therapy_on c)) c self = false →
  Forall (λ a, alert_type a ≠ SPO2_CRITICAL) out.
Proof.
  intros E Hoff.
  apply evaluate_closed_parts in E
    as (d & tr0 & v & self1 & n & tr2 & E0 & E1 & E2 & -> & ->).
  apply disconnect_closed_touches in E0 as (_ & _ & T0).
  apply no_therapy_closed_touches in E2 as (_ & _ & T2).
  assert (∀ tys (l : list Alert), SPO2_CRITICAL ∉ tys → Forall (of_types tys) l →
            Forall (λ a, alert_type a ≠ SPO2_CRITICAL) l) as Hty.
  { intros tys l Hn Hf. eapply Forall_impl; [exact Hf|].
    intros a Ha Heq. unfold of_types in Ha. by rewrite Heq in Ha. }
  rewrite !Forall_app. split; [split|].
  - eapply Hty, T0. set_solver.
  - rewrite vitals_closed_vitals in E1.
    unfold item_active, condition_event in Hoff.
    destruct (vitals c) as [r|]; [|by injection E1 as <- _].
    destruct (spo2_closed _ _ _ _ _) as [s tr1] eqn:Es.
    destruct (hr_closed _ _ _ _ _) as [h tr3] eqn:Eh.
    destruct (battery_closed _ _ _ _ _) as [b self3] eqn:Eb.
    injection E1 as <- _.
    apply hr_closed_touches in Eh as (_ & _ & Th).
    apply battery_closed_touches in Eb as (_ & _ & Tb).
    apply spo2_closed_stages in Es as (a1 & trs & a2 & -> & Es1 & Es2).
    apply tier_closed_touches in Es2 as (_ & _ & Ts2).
    rewrite !Forall_app. repeat split.
    + assert (a1 = []) as ->; [|done].
      eapply tier_closed_silent; [exact Es1|].
      intros Hact. destruct (therapy_on c); cbn in Hoff, Hact;
        by rewrite Hact in Hoff.
    + eapply Hty, Ts2. set_solver.
    + eapply Hty, Th. set_solver.
    + eapply Hty, Tb. set_solver.
  - eapply Hty, T2. set_solver.
Qed.

Lemma evaluate_closed_justified config i c self out self' :
  evaluate_closed config c self = (out, self') →
  alerts_of i out ≠ [] →
  item_active config (item_run i c) c self = true
  ∧ item_due config (item_run i c) (now c) self = true
  ∧ IC.enabled (item_cfg config (item_run i c)) = true.
Proof.
  intros E Hne.
  assert (alerts_of (item_run i c) out = alerts_of i out) as Hsame.
  { unfold alerts_of, item_run, spo2_critical_item.
    destruct i; try done; by destruct (therapy_on c). }
  rewrite <- Hsame in Hne.
  assert (item_active config (item_run i c) c self = true) as Hact.
  { destruct (item_active config (item_run i c) c self) eqn:Hoff; [done|].
    exfalso. apply Hne.
    destruct (decide (i = Spo2CriticalOn ∨ i = Spo2CriticalOff)) as [Hi|Hi].
    - assert (item_run i c = spo2_critical_item (therapy_on c)) as Hr
        by (by destruct Hi as [-> | ->]).
      rewrite Hr in Hoff |- *.
      pose proof (spo2_critical_silent _ _ _ _ _ E Hoff) as Hs.
      unfold alerts_of. apply filter_none. eapply Forall_impl; [exact Hs|].
      intros a Ha. unfold is_alert_of. apply not_true_iff_false.
      apply andb_false_iff. left. apply bool_decide_eq_false.
      by destruct (therapy_on c).
    - apply silent_alerts_of.
      eapply evaluate_closed_silent; [exact E|exact Hoff| |];
        destruct i; cbn; try done; exfalso; apply Hi; auto. }
  split; [exact Hact|].
  destruct (evaluate_cycle_active _ _ _ _ Hact) as (out' & s' & Ec & _ & _ & D3 & _).
  rewrite evaluate_cycle_closed, E in Ec. injection Ec as <- <-.
  destruct (item_due _ _ _ _); [|by destruct (alerts_of _ out)].
  destruct (IC.enabled _); [done|by destruct (alerts_of _ out)].
Qed.

(** X14. No alert without cause: when a call of [evaluate] returns an alert
    counted for an item, the block of that item was evaluated in the call
    with its condition true, its dwell was met and the last fire was not
    within the cooldown, and the item is enabled.  (An SpO2 critical alert
    comes from the tier of the current therapy mode.) *)
Theorem every_alert_is_due config i c self :
  ∃ out self',
    evaluate_cycle config c self = Ok (out, self')
    ∧ (alerts_of i out ≠ [] →
       item_active config (item_run i c) c self = true
       ∧ item_due config (item_run i c) (now c) self = true
       ∧ IC.enabled (item_cfg config (item_run i c)) = true).
Proof.
  rewrite evaluate_cycle_closed.
  destruct (evaluate_closed config c self) as [out self'] eqn:E.
  exists out, self'. split; [done|]. intros Hne.
  by eapply evaluate_closed_justified.
Qed.

(** ** [reset_all] *)

(** X15. [reset_all] puts the evaluator back to its initial state whatever
    it held.  In the call of [evaluate] that follows, every dwell starts
    from zero, so an item with a condition alerts only if its dwell is met
    at zero elapsed time; and the battery level counts as changed, so a
    level at or under the critical threshold (tier not bypassed, item
    enabled) is announced at once, although the level and the cooldown are
    what they were. *)
Theorem reset_all_starts_over config (t : Z) c self :
  ∃ fresh out self',
    Ev.reset_all t self = Ok (tt, fresh)
    ∧ fresh = Ev.new
    ∧ evaluate_cycle config c fresh = Ok (out, self')
    ∧ (∀ i, alerts_of i out ≠ [] →
            item_dwell_met config (item_run i c) (total_seconds 0) = true)
    ∧ (∀ r, vitals c = Some r → battery_critical_applies config r c = true →
            IC.enabled (battery_critical config) = true →
            length (alerts_of BatteryCritical out) = 1%nat).
Proof.
  exists Ev.new. rewrite evaluate_cycle_closed.
  destruct (evaluate_closed config c Ev.new) as [out self'] eqn:E.
  exists out, self'. split; [done|]. split; [done|]. split; [done|]. split.
  - intros i Hne.
    destruct (evaluate_closed_justified _ _ _ _ _ _ E Hne) as (_ & Hdue & _).
    unfold item_due in Hdue. apply andb_true_iff in Hdue as [Hdwell _].
    assert (item_since (item_run i c) (now c) Ev.new = now c) as Hs.
    { unfold item_since. destruct (item_condition (item_run i c)); [|done].
      unfold starts. cbn. by rewrite ?lookup_empty. }
    by rewrite Hs, Z.sub_diag in Hdwell.
  - intros r Hv Happ Hen.
    assert (item_active config BatteryCritical c Ev.new = true) as Hact.
    { unfold item_active. rewrite Hv, Happ. done. }
    destruct (evaluate_cycle_active _ _ _ _ Hact) as (out' & s' & Ec & _ & _ & D3 & _).
    rewrite evaluate_cycle_closed, E in Ec. injection Ec as <- <-.
    rewrite D3. cbn [item_cfg]. rewrite Hen.
    unfold item_due, item_dwell_met, within_cooldown, fired. cbn.
    by rewrite lookup_empty.
Qed.

(** ** The two tiers of the therapy-absence alert *)

(** X16. In sleep hours with therapy OFF, the therapy-absence evaluator
    returns at most one alert.  The HIGH tier is decided first; the INFO
    tier is decided as well unless the HIGH tier returned an alert, so it
    is still decided when HIGH is within its cooldown or disabled (unlike
    the battery tiers).  Each tier that is decided and due sets its ledger
    entry. *)
Theorem therapy_absence_escalation config (st : AVAPSState) (instant : Z) self :
  in_sleep_hours config instant = true → st = OFF →
  ∃ out self',
    Ev._evaluate_no_therapy_at_night config st instant self = Ok (out, self')
    ∧ let high := item_due config NoTherapyHigh instant self in
      let info := item_due config NoTherapyInfo instant self in
      let high_alert := high && IC.enabled (no_therapy_at_night_high config) in
      (length out ≤ 1)%nat
      ∧ length (alerts_of NoTherapyHigh out) = (if high_alert then 1 else 0)%nat
      ∧ length (alerts_of NoTherapyInfo out) =
        (if negb high_alert && info && IC.enabled (no_therapy_at_night_info config)
         then 1 else 0)%nat
      ∧ fired self' !! item_ledger config NoTherapyHigh =
        (if high then Some instant else fired self !! item_ledger config NoTherapyHigh)
      ∧ (high_alert = false →
         fired self' !! item_ledger config NoTherapyInfo =
         (if info then Some instant
          else fired self !! item_ledger config NoTherapyInfo)).
Proof.
  intros Hsleep ->.
  rewrite run_bind_ret, _evaluate_no_therapy_at_night_closed.
  destruct (no_therapy_closed config instant OFF (Ev.tracker self))
    as [out tr'] eqn:E.
  exists out, (with_tracker tr' self). split; [done|]. cbv zeta.
  assert (in_sleep_hours config instant && bool_decide (OFF = OFF) = true) as Hon
    by (by rewrite Hsleep).
  pose proof (no_therapy_high_decides _ _ _ _ _ _ E Hon) as DH.
  apply decides_due_at in DH as [DH1 DH2].
  rewrite !item_due_due_at. unfold fired, item_ledger, alerts_of.
  cbn [Ev.tracker with_tracker item_cfg item_type item_condition fmap option_fmap
       option_map condition_key] in *.
  split.
  { apply no_therapy_closed_one in E as [->|(x & -> & _)]; cbn; lia. }
  split; [exact DH2|]. 
  destruct (due_at instant (no_therapy_at_night_high config) "no_therapy_high"
              (item_dwell_met config NoTherapyHigh) (Some "no_therapy")
              (Ev.tracker self)
            && IC.enabled (no_therapy_at_night_high config)) eqn:Hhigh.
  - split; [|split; [exact DH1|done]].
    pose proof (no_therapy_closed_silent_info _ _ _ _ _ _ E Hhigh) as Hs.
    apply silent_alerts_of in Hs. unfold alerts_of in Hs. by rewrite Hs.
  - pose proof (no_therapy_info_decides _ _ _ _ _ _ E Hon Hhigh) as DI.
    apply decides_due_at in DI as [DI1 DI2].
    cbn [item_cfg item_type item_condition fmap option_fmap option_map
         condition_key] in *.
    split; [exact DI2|]. split; [exact DH1|]. intros _. exact DI1.
Qed.

Lemma therapy_absence_escalation_witness :
  let self :=
    Example.evaluator
      (<["no_therapy" := Example.seconds (Example.eleven_pm - 3600)]> ∅)
      ∅ None in
  ∃ out self',
    Ev._evaluate_no_therapy_at_night Example.config OFF
      (Example.seconds Example.eleven_pm) self = Ok (out, self')
    ∧ let high := item_due Example.config NoTherapyHigh
                    (Example.seconds Example.eleven_pm) self in
      let info := item_due Example.config NoTherapyInfo
                    (Example.seconds Example.eleven_pm) self in
      let high_alert :=
        high && IC.enabled (no_therapy_at_night_high Example.config) in
      (length out ≤ 1)%nat
      ∧ length (alerts_of NoTherapyHigh out) = (if high_alert then 1 else 0)%nat
      ∧ length (alerts_of NoTherapyInfo out) =
        (if negb high_alert && info
            && IC.enabled (no_therapy_at_night_info Example.config)
         then 1 else 0)%nat
      ∧ fired self' !! item_ledger Example.config NoTherapyHigh =
        (if high then Some (Example.seconds Example.eleven_pm)
         else fired self !! item_ledger Example.config NoTherapyHigh)
      ∧ (high_alert = false →
         fired self' !! item_ledger Example.config NoTherapyInfo =
         (if info then Some (Example.seconds Example.eleven_pm)
          else fired self !! item_ledger Example.config NoTherapyInfo)).
Proof.
  apply (therapy_absence_escalation Example.config OFF
           (Example.seconds Example.eleven_pm)); reflexivity.
Defined.

(** ** A false observation and what follows *)

(** X17. A call that observes the condition of an item false re-arms the
    item: in the calls that follow, as long as the item stays active, its
    alerts are those of a new timer.  The dwell counts from the first call
    that observes the condition true again, and the cooldown of the alerts
    sent before the false observation is forgotten. *)
Theorem false_observation_rearms config i cond c0 c1 cycles self :
  item_condition i = Some cond →
  IC.enabled (item_cfg config i) = true →
  condition_event config cond c0 self = Inactive →
  (∀ j c s, (c1 :: cycles) !! j = Some c →
            states config (c1 :: cycles) (next config c0 self) !! j = Some s →
            item_active config i c s = true) →
  ∃ out0 outs self',
    run config (c0 :: c1 :: cycles) self = Ok (out0 :: outs, self')
    ∧ alert_counts i outs
      = (λ b : bool, if b then 1%nat else 0%nat)
          <$> fires config i (now c1) None (now <$> c1 :: cycles).
Proof.
  intros Hcond Hen Hev Hact.
  assert (starts (next config c0 self) !! condition_key cond = None
          ∧ fired (next config c0 self) !! item_ledger config i = None) as [Hs Hf].
  { rewrite next_closed.
    destruct (evaluate_closed config c0 self) as [out0 self0] eqn:E.
    destruct (evaluate_closed_tracks config cond _ _ _ _ E) as [K1 K2].
    rewrite Hev in K1. split; [exact K1|].
    apply (K2 Hev (item_type i)); [|apply prefix_ledger_key].
    destruct i; cbn in Hcond; try discriminate; injection Hcond as <-; cbn;
      set_solver. }
  destruct (run_fires config i cond c1 cycles (next config c0 self) Hcond Hen Hs Hact)
    as (outs & self' & Hrun & Hcounts & _).
  rewrite Hf in Hcounts.
  change (run config (c0 :: c1 :: cycles) self) with
    (match evaluate_cycle config c0 self with
     | Ok (alerts, s1) =>
         match run config (c1 :: cycles) s1 with
         | Ok (rest, s2) => Ok (alerts :: rest, s2)
         | Raise e => Raise e
         end
     | Raise e => Raise e
     end).
  pose proof (next_closed config c0 self) as Hn.
  rewrite evaluate_cycle_closed.
  destruct (evaluate_closed config c0 self) as [out0 self0]. cbn in Hn. subst self0.
  rewrite Hrun. by exists out0, outs, self'.
Qed.

Lemma false_observation_rearms_witness :
  let c0 := Example.cycle Example.noon (Some (Example.reading_of 97 80 80)) OFF true in
  let c1 := Example.cycle (Example.noon + 5)
              (Some (Example.reading_of 97 130 80)) OFF true in
  let self :=
    Example.evaluator (<["hr_high" := Example.seconds (Example.noon - 700)]> ∅)
      (<["hr_high_high" := Example.seconds (Example.noon - 10)]> ∅) (Some 80) in
  ∃ out0 outs self',
    run Example.config [c0; c1] self = Ok (out0 :: outs, self')
    ∧ alert_counts HrHigh outs
      = (λ b : bool, if b then 1%nat else 0%nat)
          <$> fires Example.config HrHigh (now c1) None (now <$> [c1]).
Proof.
  cbv zeta.
  refine (false_observation_rearms Example.config HrHigh CondHrHigh _ _ [] _ _ _ _ _).
  - reflexivity.
  - reflexivity.
  - reflexivity.
  - intros j c s Hc Hs.
    destruct j as [|j]; [|discriminate Hc].
    vm_compute in Hc; vm_compute in Hs.
    injection Hc as <-; injection Hs as <-. vm_compute; reflexivity.
Defined.

(** ** Therapy state UNKNOWN *)

(** X18. Outside sleep hours, [evaluate] handles the therapy state UNKNOWN
    exactly as OFF: neither is ON for the bypass, and the therapy-absence
    evaluator resets for both. *)
Theorem unknown_is_off_outside_sleep_hours config (rd : option OxiReading)
    (connected : bool) (instant : Z) self :
  in_sleep_hours config instant = false →
  Ev.evaluate config rd UNKNOWN connected instant self
  = Ev.evaluate config rd OFF connected instant self.
Proof.
  intros Hsleep.
  change (evaluate_cycle config
            {| now := instant; reading := rd; avaps_state := UNKNOWN;
               ble_connected := connected |} self
          = evaluate_cycle config
              {| now := instant; reading := rd; avaps_state := OFF;
                 ble_connected := connected |} self).
  rewrite !evaluate_cycle_closed. f_equal.
  unfold evaluate_closed, vitals_closed, no_therapy_closed.
  cbn [now reading avaps_state ble_connected]. rewrite Hsleep. reflexivity.
Qed.

Lemma unknown_is_off_outside_sleep_hours_witness :
  Ev.evaluate Example.config (Some (Example.reading_of 85 130 5)) UNKNOWN true
    (Example.seconds Example.noon) Ev.new
  = Ev.evaluate Example.config (Some (Example.reading_of 85 130 5)) OFF true
      (Example.seconds Example.noon) Ev.new.
Proof.
  apply (unknown_is_off_outside_sleep_hours Example.config). reflexivity.
Defined.

(** ** What a vitals alert carries *)

Lemma fire_closed_carries now cfg ty aty msg o1 o2 tr a tr' :
  fire_closed now cfg ty aty msg o1 o2 tr = (a, tr') →
  Forall (λ x, alert_spo2 x = o1 ∧ alert_heart_rate x = o2
               ∧ severity x = Ev._get_severity cfg) a.
Proof.
  unfold fire_closed. destruct (within_cooldown _ _ _); [by intros [= <- _]|].
  destruct (IC.enabled cfg); intros [= <- _]; [|done]. by repeat constructor.
Qed.

Lemma tier_closed_carries now cfg ck ty aty dwell msg o1 o2 ev tr a tr' :
  tier_closed now cfg ck ty aty dwell msg o1 o2 ev tr = (a, tr') →
  Forall (λ x, alert_spo2 x = o1 ∧ alert_heart_rate x = o2
               ∧ severity x = Ev._get_severity cfg) a.
Proof.
  unfold tier_closed. destruct ev; [by intros [= <- _]..|].
  cbv zeta. destruct (dwell _); [apply fire_closed_carries|by intros [= <- _]].
Qed.

(** X19. Every SpO2, heart rate or battery alert that [evaluate] returns
    carries the SpO2 and the heart rate of the reading passed to the call,
    and the severity configured for an item of its alert type. *)
Theorem vitals_alert_carries_reading config c self :
  ∃ out self',
    evaluate_cycle config c self = Ok (out, self')
    ∧ ∀ a, a ∈ out → alert_type a ∈ vitals_types →
        ∃ r i, reading c = Some r
          ∧ alert_spo2 a = Some (spo2 r)
          ∧ alert_heart_rate a = Some (heart_rate r)
          ∧ item_alert_type i = alert_type a
          ∧ severity a = Ev._get_severity (item_cfg config i).
Proof.
  rewrite evaluate_cycle_closed.
  destruct (evaluate_closed config c self) as [out self'] eqn:E.
  exists out, self'. split; [done|]. intros a Ha Hty.
  apply evaluate_closed_parts in E
    as (d & tr0 & v & self1 & n & tr2 & E0 & E1 & E2 & -> & ->).
  apply disconnect_closed_touches in E0 as (_ & _ & T0).
  apply no_therapy_closed_touches in E2 as (_ & _ & T2).
  rewrite Forall_forall in T0, T2. unfold of_types, vitals_types in *.
  apply elem_of_app in Ha as [Ha|Ha]; [apply elem_of_app in Ha as [Ha|Ha]|].
  { apply T0 in Ha. apply list_elem_of_singleton in Ha. rewrite Ha in Hty.
    repeat (apply elem_of_cons in Hty as [Hty|Hty]; [discriminate|]).
    by apply elem_of_nil in Hty. }
  2: { apply T2 in Ha. apply list_elem_of_singleton in Ha. rewrite Ha in Hty.
       repeat (apply elem_of_cons in Hty as [Hty|Hty]; [discriminate|]).
       by apply elem_of_nil in Hty. }
  rewrite vitals_closed_vitals in E1. unfold vitals in E1.
  destruct (reading c) as [r|]; [|injection E1 as <- _; by apply elem_of_nil in Ha].
  destruct (ble_connected c && is_valid r);
    [|injection E1 as <- _; by apply elem_of_nil in Ha].
  exists r.
  destruct (spo2_closed _ _ _ _ _) as [s tr1] eqn:Es.
  destruct (hr_closed _ _ _ _ _) as [h tr3] eqn:Eh.
  destruct (battery_closed _ _ _ _ _) as [b self3] eqn:Eb.
  injection E1 as <- _.
  assert (∀ (i : Item) (l : list Alert),
    Forall (λ x, alert_spo2 x = Some (spo2 r) ∧ alert_heart_rate x = Some (heart_rate r)
                 ∧ severity x = Ev._get_severity (item_cfg config i)) l →
    Forall (of_types [item_alert_type i]) l →
    a ∈ l →
    ∃ i, Some r = Some r ∧ alert_spo2 a = Some (spo2 r)
         ∧ alert_heart_rate a = Some (heart_rate r)
         ∧ item_alert_type i = alert_type a
         ∧ severity a = Ev._get_severity (item_cfg config i)) as Hfrom.
  { intros i l Hc Ht Hin. rewrite Forall_forall in Hc, Ht.
    destruct (Hc _ Hin) as (? & ? & ?). specialize (Ht _ Hin).
    unfold of_types in Ht. apply list_elem_of_singleton in Ht.
    exists i. by repeat split. }
  apply elem_of_app in Ha as [Ha|Ha]; [apply elem_of_app in Ha as [Ha|Ha]|].
  - apply spo2_closed_stages in Es as (a1 & trs & a2 & -> & Es1 & Es2).
    apply elem_of_app in Ha as [Ha|Ha].
    + eapply (Hfrom (spo2_critical_item (therapy_on c))); [| |exact Ha].
      * apply tier_closed_carries in Es1. exact Es1.
      * apply tier_closed_touches in Es1 as (_ & _ & T).
        by destruct (therapy_on c).
    + eapply (Hfrom Spo2Warning); [| |exact Ha].
      * apply tier_closed_carries in Es2. exact Es2.
      * by apply tier_closed_touches in Es2 as (_ & _ & T).
  - unfold hr_closed in Eh.
    destruct (tier_closed _ _ "hr_high" _ _ _ _ _ _ _ _) as [h1 trh] eqn:Eh1.
    destruct (tier_closed _ _ "hr_low" _ _ _ _ _ _ _ _) as [h2 trl] eqn:Eh2.
    injection Eh as <- _. apply elem_of_app in Ha as [Ha|Ha].
    + eapply (Hfrom HrHigh); [| |exact Ha].
      * apply tier_closed_carries in Eh1. exact Eh1.
      * by apply tier_closed_touches in Eh1 as (_ & _ & T).
    + eapply (Hfrom HrLow); [| |exact Ha].
      * apply tier_closed_carries in Eh2. exact Eh2.
      * by apply tier_closed_touches in Eh2 as (_ & _ & T).
  - unfold battery_closed in Eb.
    destruct (bool_decide _); [injection Eb as <- _; by apply elem_of_nil in Ha|].
    cbv zeta in Eb.
    destruct (negb (Ev._should_bypass (battery_critical config) _) && _).
    + destruct (fire_closed _ _ "battery_critical" _ _ _ _ _) as [b1 trb] eqn:Eb1.
      injection Eb as <- _.
      eapply (Hfrom BatteryCritical); [| |exact Ha].
      * apply fire_closed_carries in Eb1. exact Eb1.
      * apply fire_closed_touches in Eb1 as (_ & _ & T).
        eapply Forall_impl; [exact T|]. intros x [Hx _]. unfold of_types.
        rewrite Hx. set_solver.
    + destruct (negb (Ev._should_bypass (battery_warning config) _) && _).
      * destruct (fire_closed _ _ "battery_warning" _ _ _ _ _) as [b1 trb] eqn:Eb1.
        injection Eb as <- _.
        eapply (Hfrom BatteryWarning); [| |exact Ha].
        -- apply fire_closed_carries in Eb1. exact Eb1.
        -- apply fire_closed_touches in Eb1 as (_ & _ & T).
           eapply Forall_impl; [exact T|]. intros x [Hx _]. unfold of_types.
           rewrite Hx. set_solver.
      * injection Eb as <- _. by apply elem_of_nil in Ha.
Qed.
